(** * PiCast: a DLNA/UPnP MediaRenderer

    A shallow embedding of the control plane of the renderer:

    - [PyStr]      the [str] methods the code relies on
    - [Ssdp]       [src/ssdp_server.py], the discovery engine
    - [PyNum]      Python numbers: [int] as [Z], [float] as binary64
                   ([spec_float]), [int(str)], [float(str)], [//] and [%]
    - [TimeCodec]  [format_time] and [parse_time] of
                   [src/services/soap_handler.py]
    - [Mpv]        [src/player/mpv_controller.py], the playback bridge; the
                   engine on the other side of the socket is an oracle
                   [nat -> event]
    - [Services]   [src/services/av_transport.py],
                   [src/services/rendering_control.py],
                   [src/services/connection_manager.py] and the SOAP dispatch
                   of [src/http_server.py]
    - [Config]     [src/config.py], the accessor of the configuration
    - [Soap]       [parse_soap_request] of [src/services/soap_handler.py], on
                   the tree [ET.fromstring] builds
    - [Fault]      [create_soap_error] and [_send_soap_error], with the part
                   of [ET.tostring] they use
    - [MpvProcess] [MPVController.start], the wait for the engine's socket
    - [Renderer]   [src/main.py], start and stop of the components
    - [Notions]    predicates the statements are written with
    - [Samples]    concrete engines, devices and values

    Python strings are modelled by [string]; a character stands for a code
    point below 256.  Exceptions are values of [exn] carried by [result];
    code that mutates the player or a service runs in the state and
    exception monad [M].  The facts follow the definitions, one section per
    part of the program. *)

From Stdlib Require Import ZArith List String Ascii Bool Lia Sorted.
From Stdlib Require Import SpecFloat DecimalString DecimalPos.
Import ListNotations.

Set Warnings "-register-all".

Local Open Scope string_scope.
Local Open Scope Z_scope.

(** ** Exceptions *)

Inductive exn : Type :=
| ValueError (msg : string)
| RuntimeError (msg : string)
| IndexError (msg : string)
| TypeError (msg : string)
| OverflowError (msg : string)
| AttributeError (msg : string)
| ZeroDivisionError (msg : string).

(** [str(e)] *)
Definition exn_str (e : exn) : string :=
  match e with
  | ValueError m | RuntimeError m | IndexError m
  | TypeError m | OverflowError m | AttributeError m
  | ZeroDivisionError m => m
  end.

Inductive result (A : Type) : Type :=
| Ok (a : A)
| Raise (e : exn).
Arguments Ok {A} a.
Arguments Raise {A} e.

Definition rbind {A B} (r : result A) (k : A -> result B) : result B :=
  match r with
  | Ok a => k a
  | Raise e => Raise e
  end.

(** ** The [str] methods used by the code *)

Module PyStr.

(** [s.startswith(p)] *)
Fixpoint startswith (s p : string) {struct p} : bool :=
  match p with
  | EmptyString => true
  | String a p' =>
      match s with
      | EmptyString => false
      | String b s' => Ascii.eqb a b && startswith s' p'
      end
  end.

(** [sub in s] *)
Fixpoint contains (sub s : string) : bool :=
  startswith s sub ||
  match s with
  | EmptyString => false
  | String _ s' => contains sub s'
  end.

(** [s[n:]] *)
Fixpoint drop (n : nat) (s : string) : string :=
  match n, s with
  | O, _ => s
  | S _, EmptyString => EmptyString
  | S k, String _ s' => drop k s'
  end.

(** [s.split(sep)] for a separator that is not empty.  The scan goes left to
    right; [skip] counts the characters of a separator that was just matched
    and are still to be passed over. *)
Fixpoint split_from (sep s : string) (skip : nat) : list string :=
  match s with
  | EmptyString => [EmptyString]
  | String c s' =>
      match skip with
      | S k => split_from sep s' k
      | O =>
          if startswith s sep
          then EmptyString :: split_from sep s' (String.length sep - 1)
          else match split_from sep s' 0 with
               | f :: fs => String c f :: fs
               | [] => [String c EmptyString]
               end
      end
  end.

Definition split (s sep : string) : list string := split_from sep s 0.

(** [s.split(sep, 1)]: cut at the first separator only. *)
Fixpoint split_once_from (sep s : string) : list string :=
  match s with
  | EmptyString => [EmptyString]
  | String c s' =>
      if startswith s sep
      then [EmptyString; drop (String.length sep) s]
      else match split_once_from sep s' with
           | f :: fs => String c f :: fs
           | [] => [String c EmptyString]
           end
  end.

Definition split_once (s sep : string) : list string := split_once_from sep s.

(** [c.isspace()] for a code point below 256: the ASCII blanks 9-13 and 32,
    the separators 28-31, NEL (133) and the no-break space (160). *)
Definition isspace (c : ascii) : bool :=
  let n := nat_of_ascii c in
  ((9 <=? n) && (n <=? 13) || (28 <=? n) && (n <=? 32) ||
   (n =? 133) || (n =? 160))%nat.

Fixpoint lstrip (s : string) : string :=
  match s with
  | EmptyString => EmptyString
  | String c s' => if isspace c then lstrip s' else s
  end.

Fixpoint rstrip (s : string) : string :=
  match s with
  | EmptyString => EmptyString
  | String c s' =>
      match rstrip s' with
      | EmptyString => if isspace c then EmptyString else String c EmptyString
      | r => String c r
      end
  end.

(** [s.strip()] *)
Definition strip (s : string) : string := rstrip (lstrip s).

(** [xs[i]] on a list *)
Definition getitem (xs : list string) (i : nat) : result string :=
  match nth_error xs i with
  | Some x => Ok x
  | None => Raise (IndexError "list index out of range")
  end.

End PyStr.

(** ** [src/ssdp_server.py] *)

Module Ssdp.
Import PyStr.

Definition crlf : string := String (ascii_of_nat 13) (String (ascii_of_nat 10) EmptyString).

(** The two fields of [SSDPServer] the messages are stamped with. *)
Record SSDPServer : Type := {
  device_uuid : string;
  location_url : string
}.

Definition SSDP_ADDR : string := "239.255.255.250".
Definition SSDP_PORT : Z := 1900.
Definition SSDP_PORT_str : string := "1900".

Definition address : Type := (string * Z)%type.

(** One call of [sock.sendto(payload, dest)]. *)
Record datagram : Type := {
  payload : string;
  dest : address
}.

Definition _send_msearch_response (self : SSDPServer) (addr : address) (st : string)
  : list datagram :=
  let response :=
    "HTTP/1.1 200 OK" ++ crlf ++
    "CACHE-CONTROL: max-age=1800" ++ crlf ++
    "EXT:" ++ crlf ++
    "LOCATION: " ++ location_url self ++ crlf ++
    "SERVER: Linux/4.x UPnP/1.1 Pi-Audio-Renderer/1.0" ++ crlf ++
    "ST: " ++ st ++ crlf ++
    "USN: uuid:" ++ device_uuid self ++ "::" ++ st ++ crlf ++
    crlf in
  [ {| payload := response; dest := addr |} ].

(** The [for line in ...: if line.startswith('ST:'): ...; break] loop; [None]
    when no line matches. *)
Fixpoint search_target (lines : list string) : result (option string) :=
  match lines with
  | [] => Ok None
  | line :: rest =>
      if startswith line "ST:"
      then rbind (getitem (split_once line ":") 1) (fun v => Ok (Some (strip v)))
      else search_target rest
  end.

Definition should_respond (self : SSDPServer) (st : string) : bool :=
  String.eqb st "ssdp:all" ||
  String.eqb st "upnp:rootdevice" ||
  String.eqb st ("uuid:" ++ device_uuid self) ||
  String.eqb st "urn:schemas-upnp-org:device:MediaRenderer:1" ||
  String.eqb st "urn:schemas-upnp-org:service:AVTransport:1" ||
  String.eqb st "urn:schemas-upnp-org:service:RenderingControl:1" ||
  String.eqb st "urn:schemas-upnp-org:service:ConnectionManager:1".

(** The search targets the device answers to, as the specification lists
    them: everything, the root device, this device's UUID, the renderer device
    type and the three service types. *)
Definition accepted_targets (self : SSDPServer) : list string :=
  [ "ssdp:all";
    "upnp:rootdevice";
    "uuid:" ++ device_uuid self;
    "urn:schemas-upnp-org:device:MediaRenderer:1";
    "urn:schemas-upnp-org:service:AVTransport:1";
    "urn:schemas-upnp-org:service:RenderingControl:1";
    "urn:schemas-upnp-org:service:ConnectionManager:1" ].

Definition _handle_msearch (self : SSDPServer) (message : string) (addr : address)
  : result (list datagram) :=
  rbind (search_target (split message crlf)) (fun st =>
  match st with
  | None | Some EmptyString => Ok []
  | Some st =>
      if should_respond self st
      then Ok (_send_msearch_response self addr st)
      else Ok []
  end).

(** One turn of [_listen_loop] on a received datagram. *)
Definition _listen_step (self : SSDPServer) (message : string) (addr : address)
  : result (list datagram) :=
  if contains "M-SEARCH" message
  then _handle_msearch self message addr
  else Ok [].

Definition _send_notify (self : SSDPServer) (nt nts : string) : list datagram :=
  let message :=
    "NOTIFY * HTTP/1.1" ++ crlf ++
    "HOST: " ++ SSDP_ADDR ++ ":" ++ SSDP_PORT_str ++ crlf ++
    "CACHE-CONTROL: max-age=1800" ++ crlf ++
    "LOCATION: " ++ location_url self ++ crlf ++
    "NT: " ++ nt ++ crlf ++
    "NTS: " ++ nts ++ crlf ++
    "SERVER: Linux/4.x UPnP/1.1 Pi-Audio-Renderer/1.0" ++ crlf ++
    "USN: uuid:" ++ device_uuid self ++ "::" ++ nt ++ crlf ++
    crlf in
  [ {| payload := message; dest := (SSDP_ADDR, SSDP_PORT) |} ].

(** The [services] list of [_send_alive]. *)
Definition alive_services (self : SSDPServer) : list string :=
  [ "upnp:rootdevice";
    "uuid:" ++ device_uuid self;
    "urn:schemas-upnp-org:device:MediaRenderer:1";
    "urn:schemas-upnp-org:service:AVTransport:1";
    "urn:schemas-upnp-org:service:RenderingControl:1";
    "urn:schemas-upnp-org:service:ConnectionManager:1" ].

Definition _send_alive (self : SSDPServer) : list datagram :=
  flat_map (fun service => _send_notify self service "ssdp:alive") (alive_services self).

(** The [services] list of [_send_byebye]. *)
Definition byebye_services (self : SSDPServer) : list string :=
  [ "upnp:rootdevice";
    "uuid:" ++ device_uuid self;
    "urn:schemas-upnp-org:device:MediaRenderer:1" ].

Definition _send_byebye (self : SSDPServer) : list datagram :=
  flat_map (fun service => _send_notify self service "ssdp:byebye") (byebye_services self).

End Ssdp.


(** ** Python numbers: [int] and [float]

    A [float] is an IEEE-754 binary64 value, given by the Standard Library's
    [spec_float] at precision 53 and maximal exponent 1024; sums, differences
    and quotients are its correctly rounded [SFadd], [SFsub] and [SFdiv]. *)

Module PyNum.
Import PyStr.

Definition prec : Z := 53.
Definition emax : Z := 1024.

Definition float : Type := spec_float.

Definition fadd : float -> float -> float := SFadd prec emax.
Definition fsub : float -> float -> float := SFsub prec emax.
Definition fdiv : float -> float -> float := SFdiv prec emax.
Definition fltb : float -> float -> bool := SFltb.
Definition fleb : float -> float -> bool := SFleb.
Definition feqb : float -> float -> bool := SFeqb.

(** The nearest float to the integer [m * 2^e] (ties to even). *)
Definition normalize (m e : Z) (szero : bool) : float :=
  binary_normalize prec emax m e szero.

(** The nearest float to the ratio [p / q] of two positive integers. *)
Definition round_ratio (s : bool) (p q : positive) : float :=
  let '(mz, ez, lz) := SFdiv_core_binary prec emax (Zpos p) 0 (Zpos q) 0 in
  binary_round_aux prec emax s mz ez lz.

Definition fzero : float := S754_zero false.
Definition fone : float := Eval cbv in normalize 1 0 false.
Definition fhalf : float := Eval cbv in normalize 1 (-1) false.
Definition finf : float := S754_infinity false.

(** The floats 60.0, 3600.0 and 2.0**53. *)
Definition f60 : float := Eval cbv in normalize 60 0 false.
Definition f3600 : float := Eval cbv in normalize 3600 0 false.
Definition two53 : float := Eval cbv in normalize 1 53 false.

(** The float 1e20. *)
Definition f1e20 : float := Eval cbv in normalize (10 ^ 20) 0 false.

(** C's truth value of a double: anything but a zero. *)
Definition nonzero (x : float) : bool :=
  match x with
  | S754_zero _ => false
  | _ => true
  end.

Definition signbit (x : float) : bool :=
  match x with
  | S754_zero s | S754_infinity s | S754_finite s _ _ => s
  | S754_nan => false
  end.

(** C's [fmod]: the exact remainder of the truncated division, with the sign
    of the dividend. *)
Definition fmod (x y : float) : float :=
  match x, y with
  | S754_nan, _ | _, S754_nan => S754_nan
  | S754_infinity _, _ => S754_nan
  | _, S754_zero _ => S754_nan
  | _, S754_infinity _ => x
  | S754_zero _, _ => x
  | S754_finite sx mx ex, S754_finite _ my ey =>
      let e := Z.min ex ey in
      let a := Zpos mx * 2 ^ (ex - e) in
      let b := Zpos my * 2 ^ (ey - e) in
      normalize (cond_Zopp sx (a mod b)) e sx
  end.

(** C's [floor]. *)
Definition ffloor (x : float) : float :=
  match x with
  | S754_finite s m e =>
      if 0 <=? e then x
      else normalize (cond_Zopp s (Zpos m) / 2 ^ (- e)) 0 s
  | _ => x
  end.

(** [math.floor(x)] of a finite float, as an integer. *)
Definition floorZ (x : float) : Z :=
  match x with
  | S754_finite s m e =>
      if 0 <=? e then cond_Zopp s (Zpos m) * 2 ^ e
      else cond_Zopp s (Zpos m) / 2 ^ (- e)
  | _ => 0
  end.

(** [int(x)] of a float: truncation toward zero. *)
Definition int_of_float (x : float) : result Z :=
  match x with
  | S754_zero _ => Ok 0
  | S754_finite s m e =>
      Ok (cond_Zopp s (if 0 <=? e then Zpos m * 2 ^ e else Zpos m / 2 ^ (- e)))
  | S754_infinity _ => Raise (OverflowError "cannot convert float infinity to integer")
  | S754_nan => Raise (ValueError "cannot convert float NaN to integer")
  end.

(** [float(z)] of an int. *)
Definition float_of_int (z : Z) : result float :=
  match normalize z 0 false with
  | S754_infinity _ => Raise (OverflowError "int too large to convert to float")
  | f => Ok f
  end.

(** [float.__floordiv__] and [float.__mod__] (CPython's [_float_div_mod] and
    [float_rem]). *)
Definition float_floor_div (vx wx : float) : result float :=
  if feqb wx fzero then Raise (ZeroDivisionError "float floor division by zero")
  else
    let mod_ := fmod vx wx in
    let div := fdiv (fsub vx mod_) wx in
    let div :=
      if nonzero mod_ && negb (Bool.eqb (fltb wx fzero) (fltb mod_ fzero))
      then fsub div fone else div in
    if nonzero div then
      let floordiv := ffloor div in
      Ok (if fltb fhalf (fsub div floordiv) then fadd floordiv fone else floordiv)
    else Ok (S754_zero (signbit (fdiv vx wx))).

Definition float_rem (vx wx : float) : result float :=
  if feqb wx fzero then Raise (ZeroDivisionError "float modulo")
  else
    let mod_ := fmod vx wx in
    if nonzero mod_ then
      Ok (if negb (Bool.eqb (fltb wx fzero) (fltb mod_ fzero)) then fadd mod_ wx else mod_)
    else Ok (S754_zero (signbit wx)).

(** A finite float is a whole multiple of [2^-1074], the least positive
    float: [B2U x] is the absolute value of [x] counted in that unit. *)
Definition B2U (x : float) : Z :=
  match x with
  | S754_finite _ m e => Zpos m * 2 ^ (e + 1074)
  | _ => 0
  end.

(** One, counted in units of [2^-1074]. *)
Definition W : Z := 2 ^ 1074.

(** A float of the format that is finite and carries no minus sign: [+0.0] or
    a positive number in canonical form. *)
Definition good (x : float) : Prop :=
  valid_binary prec emax x = true /\
  match x with
  | S754_zero s | S754_finite s _ _ => s = false
  | _ => False
  end.

(** A number held by a Python variable of the code: an [int] or a [float]. *)
Inductive pynum : Type :=
| PInt (z : Z)
| PFloat (f : float).

Definition as_float (n : pynum) : result float :=
  match n with
  | PInt z => float_of_int z
  | PFloat f => Ok f
  end.

(** [a // b] *)
Definition floordiv (a b : pynum) : result pynum :=
  match a, b with
  | PInt x, PInt y =>
      if y =? 0 then Raise (ZeroDivisionError "integer division or modulo by zero")
      else Ok (PInt (x / y))
  | _, _ =>
      rbind (as_float a) (fun x => rbind (as_float b) (fun y =>
      rbind (float_floor_div x y) (fun r => Ok (PFloat r))))
  end.

(** [a % b] *)
Definition modulo (a b : pynum) : result pynum :=
  match a, b with
  | PInt x, PInt y =>
      if y =? 0 then Raise (ZeroDivisionError "integer division or modulo by zero")
      else Ok (PInt (x mod y))
  | _, _ =>
      rbind (as_float a) (fun x => rbind (as_float b) (fun y =>
      rbind (float_rem x y) (fun r => Ok (PFloat r))))
  end.

(** [int(n)] of a number. *)
Definition int_of_num (n : pynum) : result Z :=
  match n with
  | PInt z => Ok z
  | PFloat f => int_of_float f
  end.

(** [n < 0] *)
Definition is_negative (n : pynum) : bool :=
  match n with
  | PInt z => z <? 0
  | PFloat f => fltb f fzero
  end.

(** [n == float('inf')] *)
Definition is_inf (n : pynum) : bool :=
  match n with
  | PInt _ => false
  | PFloat f => feqb f finf
  end.

(** *** Decimal text *)

(** The decimal text of an int: what [str(z)] is when [str] accepts [z]. *)
Definition str_of_int (z : Z) : string :=
  match z with
  | Z0 => "0"
  | Zpos p => NilEmpty.string_of_uint (Pos.to_uint p)
  | Zneg p => "-" ++ NilEmpty.string_of_uint (Pos.to_uint p)
  end.

(** [f"{z:02d}"] *)
Definition format_02d (z : Z) : string :=
  if (0 <=? z) && (z <? 10) then "0" ++ str_of_int z else str_of_int z.

Definition digit_of (c : ascii) : option Z :=
  let n := nat_of_ascii c in
  if ((48 <=? n) && (n <=? 57))%nat then Some (Z.of_nat n - 48) else None.

Definition is_digit (c : ascii) : bool :=
  match digit_of c with Some _ => true | None => false end.

(** A run of decimal digits in which single underscores may separate digits.
    [digits_from acc n s] reads such a run from the start of [s], called after
    a digit; it returns the value, the number of digits read and the rest. *)
Fixpoint digits_from (acc : Z) (n : nat) (s : string) : Z * nat * string :=
  match s with
  | String c s' =>
      match digit_of c with
      | Some d => digits_from (10 * acc + d) (S n) s'
      | None =>
          if Ascii.eqb c "_" then
            match s' with
            | String c' s'' =>
                match digit_of c' with
                | Some d => digits_from (10 * acc + d) (S n) s''
                | None => (acc, n, s)
                end
            | EmptyString => (acc, n, s)
            end
          else (acc, n, s)
      end
  | EmptyString => (acc, n, s)
  end.

(** A run of digits at the start of [s]; [None] when [s] does not start with
    a digit. *)
Definition digits (s : string) : option (Z * nat * string) :=
  match s with
  | String c s' =>
      match digit_of c with
      | Some d => Some (digits_from d 1 s')
      | None => None
      end
  | EmptyString => None
  end.

(** The integer a run of decimal digits denotes, after the digits read so
    far, whose value is [acc]. *)
Fixpoint uint_value (acc : Z) (u : Decimal.uint) : Z :=
  match u with
  | Decimal.Nil => acc
  | Decimal.D0 u' => uint_value (10 * acc + 0) u'
  | Decimal.D1 u' => uint_value (10 * acc + 1) u'
  | Decimal.D2 u' => uint_value (10 * acc + 2) u'
  | Decimal.D3 u' => uint_value (10 * acc + 3) u'
  | Decimal.D4 u' => uint_value (10 * acc + 4) u'
  | Decimal.D5 u' => uint_value (10 * acc + 5) u'
  | Decimal.D6 u' => uint_value (10 * acc + 6) u'
  | Decimal.D7 u' => uint_value (10 * acc + 7) u'
  | Decimal.D8 u' => uint_value (10 * acc + 8) u'
  | Decimal.D9 u' => uint_value (10 * acc + 9) u'
  end.

(** The decimal digits of an integer that is not negative. *)
Definition uint_of_Z (z : Z) : Decimal.uint :=
  match z with
  | Zpos p => Pos.to_uint p
  | _ => Decimal.D0 Decimal.Nil
  end.

(** A text made of decimal digits only. *)
Fixpoint digits_only (s : string) : bool :=
  match s with
  | EmptyString => true
  | String c s' => is_digit c && digits_only s'
  end.

Definition sign_of (s : string) : bool * string :=
  match s with
  | String "-" s' => (true, s')
  | String "+" s' => (false, s')
  | _ => (false, s)
  end.

(** [sys.int_info.default_max_str_digits] *)
Definition max_str_digits : nat := 4300.

(** The number of decimal digits of an int. *)
Definition int_digits (z : Z) : nat := Decimal.nb_digits (uint_of_Z (Z.abs z)).

(** [str(z)] of an int, which is also how an f-string formats it: an int of
    more than [max_str_digits] digits is refused. *)
Definition str_int (z : Z) : result string :=
  if (max_str_digits <? int_digits z)%nat
  then Raise (ValueError ("Exceeds the limit (4300 digits) for integer string conversion; " ++
                          "use sys.set_int_max_str_digits() to increase the limit"))
  else Ok (str_of_int z).

(** A number formatted into the text of a log line, as in
    [logger.info(f"Seeking to {position}")].  The text goes to the log, which
    is not followed here; forming it is what [str] does, and raises for an
    int that [str] refuses.  A float always has a text. *)
Definition format_num (n : pynum) : result unit :=
  match n with
  | PInt z => rbind (str_int z) (fun _ => Ok tt)
  | PFloat _ => Ok tt
  end.

(** The blanks [int(s)] and [float(s)] skip at both ends of a text.  Among
    the ASCII characters they are those of C's [isspace], 9-13 and 32: the
    separators 28-31, which [str.strip] removes, are left in place and make
    the text invalid.  Beyond ASCII they are the Unicode blanks, NEL (133)
    and the no-break space (160), which CPython turns into spaces before it
    reads the number. *)
Definition is_blank (c : ascii) : bool :=
  let n := nat_of_ascii c in
  ((9 <=? n) && (n <=? 13) || (n =? 32) || (n =? 133) || (n =? 160))%nat.

Fixpoint lskip (s : string) : string :=
  match s with
  | EmptyString => EmptyString
  | String c s' => if is_blank c then lskip s' else s
  end.

Fixpoint rskip (s : string) : string :=
  match s with
  | EmptyString => EmptyString
  | String c s' =>
      match rskip s' with
      | EmptyString => if is_blank c then EmptyString else String c EmptyString
      | r => String c r
      end
  end.

Definition trim (s : string) : string := rskip (lskip s).

(** [int(s)] of a str, base 10. *)
Definition int_of_string (s : string) : result Z :=
  let bad := Raise (ValueError "invalid literal for int() with base 10") in
  let '(neg, body) := sign_of (trim s) in
  match digits body with
  | Some (v, n, EmptyString) =>
      if (max_str_digits <? n)%nat
      then Raise (ValueError "Exceeds the limit (4300 digits) for integer string conversion")
      else Ok (cond_Zopp neg v)
  | _ => bad
  end.

Definition lower (c : ascii) : ascii :=
  let n := nat_of_ascii c in
  if ((65 <=? n) && (n <=? 90))%nat then ascii_of_nat (n + 32) else c.

Fixpoint lowercase (s : string) : string :=
  match s with
  | EmptyString => EmptyString
  | String c s' => String (lower c) (lowercase s')
  end.

(** The float nearest to [m * 10^e], [m >= 0]. *)
Definition float_of_decimal (neg : bool) (m e : Z) : float :=
  match m with
  | Zpos p =>
      if 0 <=? e then normalize (cond_Zopp neg (Zpos p * 10 ^ e)) 0 neg
      else round_ratio neg p (Z.to_pos (10 ^ (- e)))
  | _ => S754_zero neg
  end.

(** The optional exponent part [e[+-]ddd] followed by the end of the text. *)
Definition exponent_of (s : string) : option Z :=
  match s with
  | EmptyString => Some 0
  | String c s' =>
      if Ascii.eqb (lower c) "e" then
        let '(neg, body) := sign_of s' in
        match digits body with
        | Some (v, _, EmptyString) => Some (cond_Zopp neg v)
        | _ => None
        end
      else None
  end.

(** The digits of a decimal literal: the mantissa as an integer, the number
    of digits after the point, and the text that follows.  One of the integer
    part and the fraction may be missing, not both. *)
Definition mantissa_of (body : string) : option (Z * nat * string) :=
  match digits body with
  | Some (ip, _, String "." (String c r as rest)) =>
      match digit_of c with
      | Some d => Some (digits_from (10 * ip + d) 1 r)
      | None => Some (ip, O, rest)
      end
  | Some (ip, _, String "." EmptyString) => Some (ip, O, EmptyString)
  | Some (ip, _, rest) => Some (ip, O, rest)
  | None =>
      match body with
      | String "." rest => digits rest
      | _ => None
      end
  end.

(** [float(s)] of a str. *)
Definition float_of_string (s : string) : result float :=
  let bad := Raise (ValueError "could not convert string to float") in
  let '(neg, body) := sign_of (trim s) in
  let word := lowercase body in
  if String.eqb word "inf" || String.eqb word "infinity" then Ok (S754_infinity neg)
  else if String.eqb word "nan" then Ok S754_nan
  else
    match mantissa_of body with
    | Some (m, n, rest) =>
        match exponent_of rest with
        | Some e => Ok (float_of_decimal neg m (e - Z.of_nat n))
        | None => bad
        end
    | None => bad
    end.

End PyNum.

(** ** [src/services/soap_handler.py]: the time-code codec *)

Module TimeCodec.
Import PyStr PyNum.

(** [minutes] and [secs] lie between 0 and 59 whenever the f-string is
    reached, so that only the text of [hours] can be refused. *)
Definition format_time (seconds : pynum) : result string :=
  if is_negative seconds || is_inf seconds then Ok "00:00:00"
  else
    rbind (rbind (floordiv seconds (PInt 3600)) int_of_num) (fun hours =>
    rbind (rbind (rbind (modulo seconds (PInt 3600))
                        (fun r => floordiv r (PInt 60))) int_of_num) (fun minutes =>
    rbind (rbind (modulo seconds (PInt 60)) int_of_num) (fun secs =>
    rbind (str_int hours) (fun h =>
    Ok (h ++ ":" ++ format_02d minutes ++ ":" ++ format_02d secs))))).

(** The body of the [try] block of [parse_time]. *)
Definition parse_time_try (time_str : string) : result pynum :=
  let parts := split time_str ":" in
  match parts with
  | [h; m; s] =>
      rbind (int_of_string h) (fun hours =>
      rbind (int_of_string m) (fun minutes =>
      rbind (int_of_string s) (fun seconds =>
      Ok (PInt (hours * 3600 + minutes * 60 + seconds)))))
  | [m; s] =>
      rbind (int_of_string m) (fun minutes =>
      rbind (int_of_string s) (fun seconds =>
      Ok (PInt (minutes * 60 + seconds))))
  | _ =>
      rbind (getitem parts 0) (fun p =>
      rbind (float_of_string p) (fun f => Ok (PFloat f)))
  end.

(** [parse_time]: the bare [except] turns every exception into [0.0]. *)
Definition parse_time (time_str : string) : pynum :=
  match parse_time_try time_str with
  | Ok v => v
  | Raise _ => PFloat fzero
  end.

End TimeCodec.

(** ** State with exceptions

    A method that mutates [self] and may raise is a function from the state
    before to an outcome and the state after; a raised exception keeps the
    mutations made so far. *)

Definition M (S A : Type) : Type := S -> result A * S.

Definition ret {S A} (a : A) : M S A := fun s => (Ok a, s).
Definition raise {S A} (e : exn) : M S A := fun s => (Raise e, s).
Definition bind {S A B} (m : M S A) (k : A -> M S B) : M S B :=
  fun s => match m s with
           | (Ok a, s') => k a s'
           | (Raise e, s') => (Raise e, s')
           end.
Definition lift {S A} (r : result A) : M S A := fun s => (r, s).
Definition get {S} : M S S := fun s => (Ok s, s).
Definition modify {S} (f : S -> S) : M S unit := fun s => (Ok tt, f s).

Declare Scope monad_scope.
Delimit Scope monad_scope with monad.
Notation "x <- m ;; k" := (bind m (fun x => k))
  (at level 61, m at next level, right associativity) : monad_scope.
Notation "m ;; k" := (bind m (fun _ => k))
  (at level 61, right associativity) : monad_scope.

(** ** [src/player/mpv_controller.py] *)

Module Mpv.
Import PyStr PyNum.
Local Open Scope monad_scope.

(** A JSON value, as [json.loads] returns it and [json.dumps] takes it;
    [JNull] is [None].  An object is given by its items. *)
Inductive json : Type :=
| JNull
| JBool (b : bool)
| JInt (z : Z)
| JFloat (f : float)
| JStr (s : string)
| JArray (items : list json)
| JObject (items : list (string * json)).

Definition json_of_num (n : pynum) : json :=
  match n with
  | PInt z => JInt z
  | PFloat f => JFloat f
  end.

(** The truth value of a JSON value. *)
Definition truthy (v : json) : bool :=
  match v with
  | JNull => false
  | JBool b => b
  | JInt z => negb (z =? 0)
  | JFloat f => nonzero f
  | JStr s => negb (String.eqb s "")
  | JArray items => match items with [] => false | _ => true end
  | JObject items => match items with [] => false | _ => true end
  end.

(** [d.get(key)] on the items of a dict. *)
Fixpoint dict_get (items : list (string * json)) (key : string) : json :=
  match items with
  | [] => JNull
  | (k, v) :: rest => if String.eqb k key then v else dict_get rest key
  end.

(** [response and response.get('error') == 'success'], taken as a condition:
    a value that is true and is no dict has no [get]. *)
Definition succeeded (response : json) : result bool :=
  if truthy response then
    match response with
    | JObject items =>
        Ok (match dict_get items "error" with
            | JStr e => String.eqb e "success"
            | _ => false
            end)
    | _ => Raise (AttributeError "object has no attribute 'get'")
    end
  else Ok false.

(** [int(v)] and [float(v)] of a JSON value that is not [None]. *)
Definition int_of_json (v : json) : result Z :=
  match v with
  | JBool b => Ok (if b then 1 else 0)
  | JInt z => Ok z
  | JFloat f => int_of_float f
  | JStr s => int_of_string s
  | _ => Raise (TypeError "int() argument must be a string, a bytes-like object or a real number")
  end.

Definition float_of_json (v : json) : result float :=
  match v with
  | JBool b => Ok (if b then fone else fzero)
  | JInt z => float_of_int z
  | JFloat f => Ok f
  | JStr s => float_of_string s
  | _ => Raise (TypeError "float() argument must be a string or a real number")
  end.

(** What the engine's side does with one [_send_command].  [sendall] may
    raise, [socket.timeout] ([SendTimeout]; the socket is kept) or another
    exception ([SendFailure]; the socket is closed): the request is not
    written.  Once it is written, the reading times out ([Timeout]; the
    socket is kept), fails with another exception ([Failure]; the socket is
    closed), ends with no data ([Eof]), or yields a decoded line ([Reply]).
    A line that [json.loads] refuses, such as one that holds an int of more
    than 4300 digits, is a [Failure]: the ints of a [Reply] are ints that
    [str] accepts. *)
Inductive exchange : Type :=
| SendTimeout
| SendFailure
| Timeout
| Failure
| Eof
| Reply (r : json).

(** The environment of one call: whether a connection can be opened, should
    one be needed, and how the exchange goes. *)
Record event : Type := {
  connects : bool;
  outcome : exchange
}.

(** An event under which a command goes through: a connection is there or can
    be opened, and the engine answers with a dict whose [error] is
    ['success']. *)
Definition accepts (ev : event) : Prop :=
  connects ev = true /\
  exists r, outcome ev = Reply r /\ succeeded r = Ok true.

(** A request as written to the socket. *)
Record request : Type := {
  command : list json;
  req_id : Z
}.

Inductive transport_state : Type :=
| STOPPED
| PLAYING
| PAUSED_PLAYBACK
| TRANSITIONING.

Definition state_name (st : transport_state) : string :=
  match st with
  | STOPPED => "STOPPED"
  | PLAYING => "PLAYING"
  | PAUSED_PLAYBACK => "PAUSED_PLAYBACK"
  | TRANSITIONING => "TRANSITIONING"
  end.

(** The fields of [MPVController] the methods read and write.  [socket] says
    whether [self.socket] is set.  Two more fields record the history of the
    object: [wire], the requests [sendall] has written, oldest first, and
    [calls], the number of [_send_command] calls made. *)
Record MPVController : Type := {
  socket : bool;
  current_url : option string;
  current_state : transport_state;
  current_volume : Z;
  current_position : pynum;
  current_duration : pynum;
  request_id : Z;
  wire : list request;
  calls : nat
}.

(** [__init__] *)
Definition init (default_volume : Z) : MPVController := {|
  socket := false;
  current_url := None;
  current_state := STOPPED;
  current_volume := default_volume;
  current_position := PInt 0;
  current_duration := PInt 0;
  request_id := 0;
  wire := [];
  calls := O
|}.

Definition set_state (st : transport_state) (p : MPVController) : MPVController :=
  {| socket := socket p; current_url := current_url p; current_state := st;
     current_volume := current_volume p; current_position := current_position p;
     current_duration := current_duration p; request_id := request_id p;
     wire := wire p; calls := calls p |}.

Definition set_url (u : option string) (p : MPVController) : MPVController :=
  {| socket := socket p; current_url := u; current_state := current_state p;
     current_volume := current_volume p; current_position := current_position p;
     current_duration := current_duration p; request_id := request_id p;
     wire := wire p; calls := calls p |}.

Definition set_volume_field (v : Z) (p : MPVController) : MPVController :=
  {| socket := socket p; current_url := current_url p; current_state := current_state p;
     current_volume := v; current_position := current_position p;
     current_duration := current_duration p; request_id := request_id p;
     wire := wire p; calls := calls p |}.

Definition set_position (x : pynum) (p : MPVController) : MPVController :=
  {| socket := socket p; current_url := current_url p; current_state := current_state p;
     current_volume := current_volume p; current_position := x;
     current_duration := current_duration p; request_id := request_id p;
     wire := wire p; calls := calls p |}.

Definition set_duration (x : pynum) (p : MPVController) : MPVController :=
  {| socket := socket p; current_url := current_url p; current_state := current_state p;
     current_volume := current_volume p; current_position := current_position p;
     current_duration := x; request_id := request_id p;
     wire := wire p; calls := calls p |}.

Section Engine.

(** The engine and the channel to it: the event met by the n-th call of
    [_send_command]. *)
Variable engine : nat -> event.

(** [_send_command], with [_connect_socket] inlined.  [None] is [JNull].
    The id is taken before the [try] block, so a request that [sendall] does
    not write has used one. *)
Definition _send_command (cmd : list json) : M MPVController json :=
  fun self =>
    let ev := engine (calls self) in
    if negb (socket self) && negb (connects ev) then
      (Ok JNull,
       {| socket := false; current_url := current_url self;
          current_state := current_state self; current_volume := current_volume self;
          current_position := current_position self;
          current_duration := current_duration self;
          request_id := request_id self; wire := wire self;
          calls := S (calls self) |})
    else
      let rid := request_id self + 1 in
      let unsent (open : bool) :=
        {| socket := open; current_url := current_url self;
           current_state := current_state self; current_volume := current_volume self;
           current_position := current_position self;
           current_duration := current_duration self;
           request_id := rid;
           wire := wire self;
           calls := S (calls self) |} in
      let sent (open : bool) :=
        {| socket := open; current_url := current_url self;
           current_state := current_state self; current_volume := current_volume self;
           current_position := current_position self;
           current_duration := current_duration self;
           request_id := rid;
           wire := wire self ++ [ {| command := cmd; req_id := rid |} ];
           calls := S (calls self) |} in
      match outcome ev with
      | SendTimeout => (Ok JNull, unsent true)
      | SendFailure => (Ok JNull, unsent false)
      | Timeout => (Ok JNull, sent true)
      | Failure => (Ok JNull, sent false)
      | Eof => (Ok JNull, sent true)
      | Reply r => (Ok r, sent true)
      end.

Definition _get_property (property_name : string) : M MPVController json :=
  response <- _send_command [JStr "get_property"; JStr property_name] ;;
  ok <- lift (succeeded response) ;;
  if ok then
    match response with
    | JObject items => ret (dict_get items "data")
    | _ => ret JNull
    end
  else ret JNull.

Definition play (url : string) : M MPVController bool :=
  modify (set_state TRANSITIONING) ;;
  modify (set_url (Some url)) ;;
  response <- _send_command [JStr "loadfile"; JStr url; JStr "replace"] ;;
  ok <- lift (succeeded response) ;;
  if ok then modify (set_state PLAYING) ;; ret true
  else modify (set_state STOPPED) ;; ret false.

Definition pause : M MPVController bool :=
  response <- _send_command [JStr "set_property"; JStr "pause"; JBool true] ;;
  ok <- lift (succeeded response) ;;
  if ok then modify (set_state PAUSED_PLAYBACK) ;; ret true
  else ret false.

Definition resume : M MPVController bool :=
  response <- _send_command [JStr "set_property"; JStr "pause"; JBool false] ;;
  ok <- lift (succeeded response) ;;
  if ok then modify (set_state PLAYING) ;; ret true
  else ret false.

Definition stop : M MPVController bool :=
  _send_command [JStr "stop"] ;;
  modify (set_state STOPPED) ;;
  modify (set_url None) ;;
  modify (set_position (PInt 0)) ;;
  modify (set_duration (PInt 0)) ;;
  ret true.

Definition set_volume (level : Z) : M MPVController bool :=
  let level := Z.max 0 (Z.min 100 level) in
  response <- _send_command [JStr "set_property"; JStr "volume"; JInt level] ;;
  ok <- lift (succeeded response) ;;
  if ok then modify (set_volume_field level) ;; ret true
  else ret false.

Definition get_volume : M MPVController Z :=
  volume <- _get_property "volume" ;;
  match volume with
  | JNull => ret tt
  | _ => v <- lift (int_of_json volume) ;; modify (set_volume_field v)
  end ;;
  self <- get ;;
  ret (current_volume self).

Definition get_position : M MPVController pynum :=
  position <- _get_property "time-pos" ;;
  match position with
  | JNull => ret tt
  | _ => x <- lift (float_of_json position) ;; modify (set_position (PFloat x))
  end ;;
  self <- get ;;
  ret (current_position self).

Definition get_duration : M MPVController pynum :=
  duration <- _get_property "duration" ;;
  match duration with
  | JNull => ret tt
  | _ => x <- lift (float_of_json duration) ;; modify (set_duration (PFloat x))
  end ;;
  self <- get ;;
  ret (current_duration self).

Definition seek (position : pynum) : M MPVController bool :=
  lift (format_num position) ;;
  response <- _send_command [JStr "seek"; json_of_num position; JStr "absolute"] ;;
  ok <- lift (succeeded response) ;;
  if ok then modify (set_position position) ;; ret true
  else ret false.

(** The dict returned by [get_status]. *)
Record status : Type := {
  status_state : transport_state;
  status_url : option string;
  status_volume : Z;
  status_position : pynum;
  status_duration : pynum
}.

Definition get_status : M MPVController status :=
  self <- get ;;
  match current_state self with
  | PLAYING => get_position ;; get_duration ;; ret tt
  | _ => ret tt
  end ;;
  self <- get ;;
  ret {| status_state := current_state self;
         status_url := current_url self;
         status_volume := current_volume self;
         status_position := current_position self;
         status_duration := current_duration self |}.

Definition is_playing : M MPVController bool :=
  paused <- _get_property "pause" ;;
  match paused with
  | JBool false => modify (set_state PLAYING) ;; ret true
  | JBool true => modify (set_state PAUSED_PLAYBACK) ;; ret false
  | _ => modify (set_state STOPPED) ;; ret false
  end.

(** The public methods of the bridge, as a caller may invoke them. *)
Inductive op : Type :=
| OpPlay (url : string)
| OpPause
| OpResume
| OpStop
| OpSetVolume (level : Z)
| OpGetVolume
| OpGetPosition
| OpGetDuration
| OpSeek (position : pynum)
| OpGetStatus
| OpIsPlaying.

(** The state after one call; what the call returns or raises is the
    caller's business. *)
Definition exec (o : op) (self : MPVController) : MPVController :=
  match o with
  | OpPlay url => snd (play url self)
  | OpPause => snd (pause self)
  | OpResume => snd (resume self)
  | OpStop => snd (stop self)
  | OpSetVolume level => snd (set_volume level self)
  | OpGetVolume => snd (get_volume self)
  | OpGetPosition => snd (get_position self)
  | OpGetDuration => snd (get_duration self)
  | OpSeek position => snd (seek position self)
  | OpGetStatus => snd (get_status self)
  | OpIsPlaying => snd (is_playing self)
  end.

Definition run (ops : list op) (self : MPVController) : MPVController :=
  fold_left (fun s o => exec o s) ops self.

End Engine.

End Mpv.

(** ** The control services and the SOAP endpoint *)

Module Services.
Import PyStr PyNum TimeCodec Mpv.
Local Open Scope monad_scope.

(** A [Dict[str, str]]: the arguments of an action, or its result fields in
    the order they are written. *)
Definition dict : Type := list (string * string).

(** [args.get(key, default)] *)
Fixpoint args_get (args : dict) (key default : string) : string :=
  match args with
  | [] => default
  | (k, v) :: rest => if String.eqb k key then v else args_get rest key default
  end.

(** [src/services/av_transport.py] *)
Record AVTransportService : Type := {
  current_uri : string;
  current_uri_metadata : string
}.

(** [src/services/rendering_control.py]; [volume_before_mute] is [None] as
    long as the attribute has not been set. *)
Record RenderingControlService : Type := {
  muted : bool;
  volume_before_mute : option Z
}.

(** The objects a request handler reaches through [self.server]: the three
    services share one player. *)
Record server : Type := {
  player : MPVController;
  av_transport_service : AVTransportService;
  rendering_control_service : RenderingControlService
}.

(** [UPnPHTTPServer.__init__] over a fresh player. *)
Definition new_server (default_volume : Z) : server := {|
  player := Mpv.init default_volume;
  av_transport_service := {| current_uri := ""; current_uri_metadata := "" |};
  rendering_control_service := {| muted := false; volume_before_mute := None |}
|}.

(** A method of the player, called through [self.player]. *)
Definition on_player {A} (m : M MPVController A) : M server A :=
  fun s =>
    let '(r, p) := m (player s) in
    (r, {| player := p;
           av_transport_service := av_transport_service s;
           rendering_control_service := rendering_control_service s |}).

Definition set_av (a : AVTransportService) (s : server) : server :=
  {| player := player s;
     av_transport_service := a;
     rendering_control_service := rendering_control_service s |}.

Definition set_rc (r : RenderingControlService) (s : server) : server :=
  {| player := player s;
     av_transport_service := av_transport_service s;
     rendering_control_service := r |}.

(** [desired_mute in ('1', 'true', 'True')], with [desired_mute] read from
    the arguments of [SetMute]. *)
Definition desired_mute (args : dict) : bool :=
  let d := args_get args "DesiredMute" "0" in
  String.eqb d "1" || String.eqb d "true" || String.eqb d "True".

Section Engine.
Variable engine : nat -> event.

(** *** AVTransport *)

Definition AV_SERVICE_TYPE : string := "urn:schemas-upnp-org:service:AVTransport:1".

Definition _handle_SetAVTransportURI (args : dict) : M server dict :=
  modify (set_av {| current_uri := args_get args "CurrentURI" "";
                    current_uri_metadata := args_get args "CurrentURIMetaData" "" |}) ;;
  ret [].

Definition _handle_Play (args : dict) : M server dict :=
  self <- get ;;
  let uri := current_uri (av_transport_service self) in
  if String.eqb uri "" then raise (ValueError "No URI set")
  else
    success <- on_player (play engine uri) ;;
    if success then ret []
    else raise (RuntimeError "Failed to start playback").

Definition _handle_Pause (args : dict) : M server dict :=
  on_player (pause engine) ;; ret [].

Definition _handle_Stop (args : dict) : M server dict :=
  on_player (stop engine) ;; ret [].

Definition _handle_Seek (args : dict) : M server dict :=
  let unit_ := args_get args "Unit" "ABS_TIME" in
  let target := args_get args "Target" "00:00:00" in
  (if String.eqb unit_ "ABS_TIME" || String.eqb unit_ "REL_TIME"
   then
     let position := parse_time target in
     lift (format_num position) ;;
     on_player (seek engine position) ;; ret tt
   else ret tt) ;;
  ret [].

Definition _handle_GetTransportInfo (args : dict) : M server dict :=
  st <- on_player (get_status engine) ;;
  ret [ ("CurrentTransportState", state_name (status_state st));
        ("CurrentTransportStatus", "OK");
        ("CurrentSpeed", "1") ].

Definition _handle_GetPositionInfo (args : dict) : M server dict :=
  st <- on_player (get_status engine) ;;
  self <- get ;;
  duration <- lift (format_time (status_duration st)) ;;
  position <- lift (format_time (status_position st)) ;;
  ret [ ("Track", "1");
        ("TrackDuration", duration);
        ("TrackMetaData", current_uri_metadata (av_transport_service self));
        ("TrackURI", current_uri (av_transport_service self));
        ("RelTime", position);
        ("AbsTime", position);
        ("RelCount", "0");
        ("AbsCount", "0") ].

Definition _handle_GetMediaInfo (args : dict) : M server dict :=
  st <- on_player (get_status engine) ;;
  self <- get ;;
  duration <- lift (format_time (status_duration st)) ;;
  ret [ ("NrTracks", "1");
        ("MediaDuration", duration);
        ("CurrentURI", current_uri (av_transport_service self));
        ("CurrentURIMetaData", current_uri_metadata (av_transport_service self));
        ("NextURI", "");
        ("NextURIMetaData", "");
        ("PlayMedium", "NETWORK");
        ("RecordMedium", "NOT_IMPLEMENTED");
        ("WriteStatus", "NOT_IMPLEMENTED") ].

(** The methods [getattr(self, "_handle_" + action)] finds on an
    [AVTransportService]. *)
Definition av_handlers : list (string * (dict -> M server dict)) :=
  [ ("SetAVTransportURI", _handle_SetAVTransportURI);
    ("Play", _handle_Play);
    ("Pause", _handle_Pause);
    ("Stop", _handle_Stop);
    ("Seek", _handle_Seek);
    ("GetTransportInfo", _handle_GetTransportInfo);
    ("GetPositionInfo", _handle_GetPositionInfo);
    ("GetMediaInfo", _handle_GetMediaInfo) ].

(** *** RenderingControl *)

Definition RC_SERVICE_TYPE : string := "urn:schemas-upnp-org:service:RenderingControl:1".

(** [str(volume)] is taken as [str_of_int]: the volume of the player is the
    default of the configuration, a level cut to [0, 100] or what [int] made
    of a value of a [Reply], each an int that [str] accepts. *)
Definition _handle_GetVolume (args : dict) : M server dict :=
  volume <- on_player (get_volume engine) ;;
  ret [ ("CurrentVolume", str_of_int volume) ].

Definition _handle_SetVolume (args : dict) : M server dict :=
  volume <- lift (int_of_string (args_get args "DesiredVolume" "50")) ;;
  on_player (set_volume engine volume) ;;
  ret [].

Definition _handle_GetMute (args : dict) : M server dict :=
  self <- get ;;
  ret [ ("CurrentMute", if muted (rendering_control_service self) then "1" else "0") ].

Definition _handle_SetMute (args : dict) : M server dict :=
  let m := desired_mute args in
  self <- get ;;
  let rc := rendering_control_service self in
  modify (set_rc {| muted := m; volume_before_mute := volume_before_mute rc |}) ;;
  (if m then
     v <- on_player (get_volume engine) ;;
     modify (set_rc {| muted := m; volume_before_mute := Some v |}) ;;
     on_player (set_volume engine 0) ;; ret tt
   else
     match volume_before_mute rc with
     | Some v => on_player (set_volume engine v) ;; ret tt
     | None => ret tt
     end) ;;
  ret [].

Definition rc_handlers : list (string * (dict -> M server dict)) :=
  [ ("GetVolume", _handle_GetVolume);
    ("SetVolume", _handle_SetVolume);
    ("GetMute", _handle_GetMute);
    ("SetMute", _handle_SetMute) ].

(** *** ConnectionManager *)

Definition CM_SERVICE_TYPE : string := "urn:schemas-upnp-org:service:ConnectionManager:1".

Definition PROTOCOL_INFO : string :=
  "http-get:*:audio/mpeg:*," ++
  "http-get:*:audio/mp3:*," ++
  "http-get:*:audio/mp4:*," ++
  "http-get:*:audio/x-m4a:*," ++
  "http-get:*:audio/aac:*," ++
  "http-get:*:audio/flac:*," ++
  "http-get:*:audio/x-flac:*," ++
  "http-get:*:audio/ogg:*," ++
  "http-get:*:audio/vorbis:*," ++
  "http-get:*:audio/wav:*," ++
  "http-get:*:audio/x-wav:*," ++
  "http-get:*:audio/L16:*," ++
  "http-get:*:application/ogg:*".

Definition _handle_GetProtocolInfo (args : dict) : M server dict :=
  ret [ ("Source", ""); ("Sink", PROTOCOL_INFO) ].

Definition _handle_GetCurrentConnectionIDs (args : dict) : M server dict :=
  ret [ ("ConnectionIDs", "0") ].

Definition _handle_GetCurrentConnectionInfo (args : dict) : M server dict :=
  ret [ ("RcsID", "0");
        ("AVTransportID", "0");
        ("ProtocolInfo", "");
        ("PeerConnectionManager", "");
        ("PeerConnectionID", "-1");
        ("Direction", "Input");
        ("Status", "OK") ].

Definition cm_handlers : list (string * (dict -> M server dict)) :=
  [ ("GetProtocolInfo", _handle_GetProtocolInfo);
    ("GetCurrentConnectionIDs", _handle_GetCurrentConnectionIDs);
    ("GetCurrentConnectionInfo", _handle_GetCurrentConnectionInfo) ].

(** *** Dispatch *)

Inductive service : Type :=
| Transport
| Rendering
| Connection.

Definition SERVICE_TYPE (svc : service) : string :=
  match svc with
  | Transport => AV_SERVICE_TYPE
  | Rendering => RC_SERVICE_TYPE
  | Connection => CM_SERVICE_TYPE
  end.

Definition handlers (svc : service) : list (string * (dict -> M server dict)) :=
  match svc with
  | Transport => av_handlers
  | Rendering => rc_handlers
  | Connection => cm_handlers
  end.

(** The closed action set of a service. *)
Definition actions (svc : service) : list string := map fst (handlers svc).

(** [getattr(self, f"_handle_{action}", None)] *)
Fixpoint lookup_handler (hs : list (string * (dict -> M server dict))) (action : string)
  : option (dict -> M server dict) :=
  match hs with
  | [] => None
  | (name, h) :: rest => if String.eqb name action then Some h else lookup_handler rest action
  end.

(** [handle_action], the same in the three services. *)
Definition handle_action (svc : service) (action : string) (args : dict) : M server dict :=
  match lookup_handler (handlers svc) action with
  | Some handler => handler args
  | None => raise (ValueError ("Unknown action: " ++ action))
  end.

(** *** [src/http_server.py]: [do_POST] *)

(** What [SOAPHandler.parse_soap_request] returns when it does not return
    [None]. *)
Record soap_request : Type := {
  action : string;
  service_type : string;
  args : dict
}.

(** What the handler writes back: a SOAP response with status 200, a SOAP
    fault with status 500 ([_send_soap_error]), or a plain HTTP error
    ([send_error]). *)
Inductive http_response : Type :=
| SoapResponse (action service_type : string) (response_args : dict)
| SoapError (error_code : Z) (error_description : string)
| HttpError (code : Z) (message : string).

(** The routing of [do_POST] on [self.path]. *)
Definition route (path : string) : option service :=
  if contains "/AVTransport/control" path then Some Transport
  else if contains "/RenderingControl/control" path then Some Rendering
  else if contains "/ConnectionManager/control" path then Some Connection
  else None.

Definition do_POST (path : string) (request : option soap_request)
  : server -> http_response * server :=
  fun s =>
    match request with
    | None => (SoapError 401 "Invalid Action", s)
    | Some req =>
        match route path with
        | None => (HttpError 404 "Service Not Found", s)
        | Some svc =>
            match handle_action svc (action req) (args req) s with
            | (Ok response_args, s') =>
                (SoapResponse (action req) (SERVICE_TYPE svc) response_args, s')
            | (Raise e, s') => (SoapError 501 (exn_str e), s')
            end
        end
    end.

End Engine.

End Services.

(** ** [src/config.py] *)

Module Config.
Import PyStr.

(** A value as [yaml.safe_load] returns it; [YNull] is [None].  A mapping is
    given by its items under a string key, each key once: [value.get(k)]
    with a string [k] finds no other. *)
Inductive yaml : Type :=
| YNull
| YBool (b : bool)
| YInt (z : Z)
| YFloat (f : PyNum.float)
| YStr (s : string)
| YList (items : list yaml)
| YDict (items : list (string * yaml)).

(** [value.get(k)] on the items of a dict. *)
Fixpoint dict_get (items : list (string * yaml)) (k : string) : yaml :=
  match items with
  | [] => YNull
  | (k', v) :: rest => if String.eqb k' k then v else dict_get rest k
  end.

(** The loop of [Config.get] over the keys that are left. *)
Fixpoint descend (keys : list string) (value default : yaml) : yaml :=
  match keys with
  | [] => value
  | k :: rest =>
      match value with
      | YDict items =>
          match dict_get items k with
          | YNull => default
          | v => descend rest v default
          end
      | _ => default
      end
  end.

(** [Config.get]; [config] is [self.config]. *)
Definition get (config : yaml) (key : string) (default : yaml) : yaml :=
  descend (split key ".") config default.

Definition get_device_name (config : yaml) : yaml :=
  get config "device.name" (YStr "Raspberry Pi Audio Renderer").
Definition get_device_uuid (config : yaml) : yaml :=
  get config "device.uuid" (YStr "12345678-1234-1234-1234-123456789012").
Definition get_manufacturer (config : yaml) : yaml :=
  get config "device.manufacturer" (YStr "Custom").
Definition get_model_name (config : yaml) : yaml :=
  get config "device.model_name" (YStr "Pi Audio Renderer").
Definition get_model_number (config : yaml) : yaml :=
  get config "device.model_number" (YStr "1.0").
Definition get_serial_number (config : yaml) : yaml :=
  get config "device.serial_number" (YStr "RPI2-001").
Definition get_network_interface (config : yaml) : yaml :=
  get config "network.interface" (YStr "eth0").
Definition get_http_port (config : yaml) : yaml :=
  get config "network.http_port" (YInt 8000).
Definition get_ssdp_multicast_ip (config : yaml) : yaml :=
  get config "network.ssdp_multicast_ip" (YStr "239.255.255.250").
Definition get_ssdp_port (config : yaml) : yaml :=
  get config "network.ssdp_port" (YInt 1900).
Definition get_announce_interval (config : yaml) : yaml :=
  get config "network.announce_interval" (YInt 30).
Definition get_mpv_ipc_socket (config : yaml) : yaml :=
  get config "audio.mpv_ipc_socket" (YStr "/tmp/mpv-socket").
Definition get_default_volume (config : yaml) : yaml :=
  get config "audio.default_volume" (YInt 50).
Definition get_audio_output_driver (config : yaml) : yaml :=
  get config "audio.output_driver" (YStr "alsa").
Definition get_cache_enabled (config : yaml) : yaml :=
  get config "audio.cache" (YBool true).
Definition get_demuxer_max_bytes (config : yaml) : yaml :=
  get config "audio.demuxer_max_bytes" (YStr "2M").
Definition get_log_level (config : yaml) : yaml :=
  get config "logging.level" (YStr "INFO").
Definition get_log_file (config : yaml) : yaml :=
  get config "logging.file" (YStr "renderer.log").
Definition get_log_max_size_mb (config : yaml) : yaml :=
  get config "logging.max_size_mb" (YInt 10).
Definition get_log_backup_count (config : yaml) : yaml :=
  get config "logging.backup_count" (YInt 3).

End Config.

(** ** [src/services/soap_handler.py]: reading a request *)

Module Soap.
Import PyStr Mpv Services.

(** An element of the tree [ET.fromstring] builds: its tag, with the
    namespace in braces before the local name, its text, and its children.
    The attributes are left out, the code reads none. *)
Inductive element : Type :=
| Element (tag : string) (text : option string) (children : list element).

Definition tag_of (e : element) : string :=
  match e with Element t _ _ => t end.

Definition text_of (e : element) : option string :=
  match e with Element _ t _ => t end.

Definition children_of (e : element) : list element :=
  match e with Element _ _ cs => cs end.

(** [elem.iter()]: the element and all that is below it, in document
    order. *)
Fixpoint iter (e : element) : list element :=
  match e with
  | Element _ _ cs => e :: flat_map iter cs
  end.

Definition BODY_TAG : string := "{http://schemas.xmlsoap.org/soap/envelope/}Body".

(** [root.find('.//{...}Body')]: the first element below the root, the root
    itself left out, whose tag is that of a SOAP body. *)
Definition find_body (root : element) : option element :=
  find (fun e => String.eqb (tag_of e) BODY_TAG) (flat_map iter (children_of root)).

(** [xs[0]] on a list of elements and [xs[-1]] on a list of strings. *)
Definition first_element (xs : list element) : result element :=
  match xs with
  | x :: _ => Ok x
  | [] => Raise (IndexError "list index out of range")
  end.

Definition last_item (xs : list string) : result string :=
  match rev xs with
  | x :: _ => Ok x
  | [] => Raise (IndexError "list index out of range")
  end.

(** [s.strip(chars)] *)
Fixpoint has_char (c : ascii) (chars : string) : bool :=
  match chars with
  | EmptyString => false
  | String d chars' => Ascii.eqb d c || has_char c chars'
  end.

Fixpoint lstrip_chars (chars s : string) : string :=
  match s with
  | EmptyString => EmptyString
  | String c s' => if has_char c chars then lstrip_chars chars s' else s
  end.

Fixpoint rstrip_chars (chars s : string) : string :=
  match s with
  | EmptyString => EmptyString
  | String c s' =>
      match rstrip_chars chars s' with
      | EmptyString => if has_char c chars then EmptyString else String c EmptyString
      | r => String c r
      end
  end.

Definition strip_chars (chars s : string) : string :=
  rstrip_chars chars (lstrip_chars chars s).

(** [d[k] = v] on a dict given by its items: the value of a key that is
    there is replaced in place, a new key goes to the end. *)
Fixpoint dict_set (d : dict) (k v : string) : dict :=
  match d with
  | [] => [(k, v)]
  | (k', v') :: rest =>
      if String.eqb k' k then (k', v) :: rest else (k', v') :: dict_set rest k v
  end.

(** [arg.text or ""] *)
Definition text_or_empty (e : element) : string :=
  match text_of e with
  | Some t => t
  | None => ""
  end.

(** The loop that fills [args]. *)
Fixpoint read_args (children : list element) (args : dict) : result dict :=
  match children with
  | [] => Ok args
  | arg :: rest =>
      rbind (last_item (split (tag_of arg) "}")) (fun arg_name =>
      read_args rest (dict_set args arg_name (text_or_empty arg)))
  end.

(** The body of the [try] block of [parse_soap_request]; [root] is what
    [ET.fromstring(body)] returned. *)
Definition parse_soap_request_try (root : element) : result (option soap_request) :=
  match find_body root with
  | None => Ok None
  | Some body_elem =>
      rbind (first_element (children_of body_elem)) (fun action_elem =>
      rbind (last_item (split (tag_of action_elem) "}")) (fun action_name =>
      rbind (getitem (split (tag_of action_elem) "}") 0) (fun before =>
      let service_type := strip_chars "{" before in
      rbind (read_args (children_of action_elem) []) (fun args =>
      Ok (Some {| action := action_name; service_type := service_type; args := args |})))))
  end.

(** [parse_soap_request]; [document] is the outcome of [ET.fromstring(body)],
    [None] when it raised on a body that is no well-formed XML.  Every
    exception ends in [None]. *)
Definition parse_soap_request (document : option element) : option soap_request :=
  match document with
  | None => None
  | Some root =>
      match parse_soap_request_try root with
      | Ok request => request
      | Raise _ => None
      end
  end.

(** [do_POST] from the body on. *)
Definition do_POST_body (engine : nat -> event) (path : string) (document : option element)
  : server -> http_response * server :=
  do_POST engine path (parse_soap_request document).

End Soap.

(** ** Writing a fault: [create_soap_error] and [_send_soap_error] *)

Module Fault.
Import PyStr PyNum.

Definition quote : string := String (ascii_of_nat 34) EmptyString.
Definition newline : string := String (ascii_of_nat 10) EmptyString.

(** [s.replace(c, by)] for a single character [c]. *)
Fixpoint replace_char (c : ascii) (by_ : string) (s : string) : string :=
  match s with
  | EmptyString => EmptyString
  | String a s' =>
      if Ascii.eqb a c then by_ ++ replace_char c by_ s'
      else String a (replace_char c by_ s')
  end.

(** [ElementTree._escape_cdata] and [ElementTree._escape_attrib]. *)
Definition _escape_cdata (text : string) : string :=
  replace_char ">" "&gt;" (replace_char "<" "&lt;" (replace_char "&" "&amp;" text)).

Definition _escape_attrib (text : string) : string :=
  replace_char (ascii_of_nat 9) "&#09;"
    (replace_char (ascii_of_nat 10) "&#10;"
      (replace_char (ascii_of_nat 13) "&#13;"
        (replace_char (ascii_of_nat 34) "&quot;"
          (replace_char ">" "&gt;" (replace_char "<" "&lt;" (replace_char "&" "&amp;" text)))))).

(** An [ET.Element] as the code builds it: a tag and attribute names that
    carry no namespace in braces, the attributes in the order they were set,
    a text or [None], the sub-elements; no tail. *)
Inductive node : Type :=
| Node (tag : string) (attrib : list (string * string)) (text : option string)
       (children : list node).

(** [ET.tostring(elem, encoding='unicode')] on such an element: an element
    with neither text nor children is written in the short form. *)
Fixpoint tostring (e : node) : string :=
  match e with
  | Node tag attrib text children =>
      let start :=
        "<" ++ tag ++
        String.concat ""
          (map (fun kv => " " ++ fst kv ++ "=" ++ quote ++ _escape_attrib (snd kv) ++ quote)
               attrib) in
      let filled :=
        match text, children with
        | Some (String _ _), _ => true
        | _, _ :: _ => true
        | _, _ => false
        end in
      if filled then
        start ++ ">" ++
        match text with
        | Some t => _escape_cdata t
        | None => ""
        end ++
        String.concat "" (map tostring children) ++
        "</" ++ tag ++ ">"
      else start ++ " />"
  end.

Definition SOAP_NS : string := "http://schemas.xmlsoap.org/soap/envelope/".
Definition ENCODING_STYLE : string := "http://schemas.xmlsoap.org/soap/encoding/".

(** The XML declaration both documents start with. *)
Definition declaration : string :=
  "<?xml version=" ++ quote ++ "1.0" ++ quote ++ " encoding=" ++ quote ++ "utf-8" ++ quote ++
  "?>" ++ newline.

(** [SOAPHandler.create_soap_error]; [str(error_code)] is taken as
    [str_of_int], the codes of the callers being 401 and 501. *)
Definition create_soap_error (error_code : Z) (error_description : string) : string :=
  let envelope :=
    Node "s:Envelope" [ ("xmlns:s", SOAP_NS); ("s:encodingStyle", ENCODING_STYLE) ] None
      [ Node "s:Body" [] None
          [ Node "s:Fault" [] None
              [ Node "faultcode" [] (Some "s:Client") [];
                Node "faultstring" [] (Some "UPnPError") [];
                Node "detail" [] None
                  [ Node "UPnPError" [ ("xmlns", "urn:schemas-upnp-org:control-1-0") ] None
                      [ Node "errorCode" [] (Some (str_of_int error_code)) [];
                        Node "errorDescription" [] (Some error_description) [] ] ] ] ] ] in
  declaration ++ tostring envelope.

(** [s.encode('utf-8')] for code points below 256: one byte below 128, two
    bytes from 128 on. *)
Definition utf8_char (c : ascii) : list ascii :=
  let n := nat_of_ascii c in
  if (n <? 128)%nat then [c]
  else [ascii_of_nat (192 + n / 64); ascii_of_nat (128 + n mod 64)].

Fixpoint utf8 (s : string) : list ascii :=
  match s with
  | EmptyString => []
  | String c s' => (utf8_char c ++ utf8 s')%list
  end.

(** What a handler writes: the code of the status line, the headers the
    code sets, and the bytes of the body. *)
Record message : Type := {
  status : Z;
  headers : list (string * string);
  body : list ascii
}.

(** [UPnPHTTPRequestHandler._send_soap_error] *)
Definition _send_soap_error (error_code : Z) (error_description : string) : message :=
  let soap_error := create_soap_error error_code error_description in
  {| status := 500;
     headers := [ ("Content-Type", "text/xml; charset=" ++ quote ++ "utf-8" ++ quote);
                  ("Content-Length", str_of_int (Z.of_nat (String.length soap_error))) ];
     body := utf8 soap_error |}.

End Fault.

(** ** [src/player/mpv_controller.py]: starting the engine *)

Module MpvProcess.
Import PyNum.

(** The float 0.1. *)
Definition tenth : float :=
  Eval vm_compute in
    match float_of_string "0.1" with
    | Ok f => f
    | Raise _ => S754_nan
    end.

(** [a + b] *)
Definition add (a b : pynum) : result pynum :=
  match a, b with
  | PInt x, PInt y => Ok (PInt (x + y))
  | _, _ =>
      rbind (as_float a) (fun x => rbind (as_float b) (fun y => Ok (PFloat (fadd x y))))
  end.

(** [f < z] for a float and an int, compared as the numbers they are. *)
Definition float_lt_int (f : float) (z : Z) : bool :=
  match f with
  | S754_nan => false
  | S754_infinity s => s
  | S754_zero _ => 0 <? z
  | S754_finite s m e =>
      if 0 <=? e then cond_Zopp s (Zpos m) * 2 ^ e <? z
      else cond_Zopp s (Zpos m) <? z * 2 ^ (- e)
  end.

(** [z < f] *)
Definition int_lt_float (z : Z) (f : float) : bool :=
  match f with
  | S754_nan => false
  | S754_infinity s => negb s
  | S754_zero _ => z <? 0
  | S754_finite s m e =>
      if 0 <=? e then z <? cond_Zopp s (Zpos m) * 2 ^ e
      else z * 2 ^ (- e) <? cond_Zopp s (Zpos m)
  end.

(** [a < b] *)
Definition lt (a b : pynum) : bool :=
  match a, b with
  | PInt x, PInt y => x <? y
  | PFloat f, PInt y => float_lt_int f y
  | PInt x, PFloat g => int_lt_float x g
  | PFloat f, PFloat g => fltb f g
  end.

(** What [start] meets: whether [subprocess.Popen] returns or raises, and
    what the n-th of the calls of [os.path.exists] on the socket path made
    after it returns. *)
Record os : Type := {
  popen_returns : bool;
  socket_exists : nat -> bool
}.

(** The loop [while not os.path.exists(...) and waited < max_wait], entered
    at the check numbered [check]: the number of the check that ends it and
    the time waited, by the program's count.  [fuel] bounds the turns. *)
Fixpoint wait (w : os) (check : nat) (waited : pynum) (fuel : nat)
  : option (result (nat * pynum)) :=
  match fuel with
  | O => None
  | S fuel' =>
      if negb (socket_exists w check) && lt waited (PInt 5)
      then
        match add waited (PFloat tenth) with
        | Ok waited' => wait w (S check) waited' fuel'
        | Raise e => Some (Raise e)
        end
      else Some (Ok (check, waited))
  end.

(** [start] from [subprocess.Popen] on: whether it returns [True], and the
    number of times it slept.  Every exception is caught and gives
    [False]. *)
Definition start (w : os) (fuel : nat) : option (bool * nat) :=
  if negb (popen_returns w) then Some (false, O)
  else
    match wait w 0 (PInt 0) fuel with
    | None => None
    | Some (Raise _) => Some (false, O)
    | Some (Ok (check, _)) => Some (socket_exists w (S check), check)
    end.

End MpvProcess.

(** ** [src/main.py]: starting and stopping the renderer *)

Module Renderer.

(** The calls [AudioRenderer] makes on its components. *)
Inductive call : Type :=
| PlayerStart       (* [self.player.start()] *)
| HttpCreate        (* [UPnPHTTPServer(...)], which binds the port *)
| HttpStart         (* [self.http_server.start()] *)
| DiscoveryStart    (* [self.ssdp_server.start()] *)
| DiscoveryStop     (* [self.ssdp_server.stop()] *)
| HttpStop          (* [self.http_server.stop()] *)
| PlayerStop.       (* [self.player.stop_mpv()] *)

(** The fields of [AudioRenderer] that [start] and [stop] read and write;
    for a component, whether the attribute is set. *)
Record AudioRenderer : Type := {
  player : bool;
  http_server : bool;
  ssdp_server : bool;
  running : bool
}.

(** [__init__], once the address of the interface is known. *)
Definition init : AudioRenderer :=
  {| player := false; http_server := false; ssdp_server := false; running := false |}.

(** How the calls of [start] go: what [player.start()] returns, and whether
    each of the other three returns or raises. *)
Record world : Type := {
  player_starts : bool;
  http_is_created : bool;
  http_starts : bool;
  discovery_starts : bool
}.

(** [stop]; each call on a component is made under [try], so that whether it
    raises changes nothing. *)
Definition stop (self : AudioRenderer) : AudioRenderer * list call :=
  if negb (running self) then (self, [])
  else
    ({| player := player self; http_server := http_server self;
        ssdp_server := ssdp_server self; running := false |},
     ((if ssdp_server self then [DiscoveryStop] else []) ++
      (if http_server self then [HttpStop] else []) ++
      (if player self then [PlayerStop] else []))%list).

(** The [except] branch of [start]. *)
Definition start_failed (self : AudioRenderer) (made : list call)
  : bool * AudioRenderer * list call :=
  let '(self', calls) := stop self in (false, self', (made ++ calls)%list).

(** [start]: what it returns, the renderer afterwards, the calls made. *)
Definition start (w : world) (self : AudioRenderer) : bool * AudioRenderer * list call :=
  let self1 := {| player := true; http_server := http_server self;
                  ssdp_server := ssdp_server self; running := running self |} in
  if negb (player_starts w) then (false, self1, [PlayerStart])
  else if negb (http_is_created w) then start_failed self1 [PlayerStart; HttpCreate]
  else
    let self2 := {| player := true; http_server := true;
                    ssdp_server := ssdp_server self; running := running self |} in
    if negb (http_starts w) then start_failed self2 [PlayerStart; HttpCreate; HttpStart]
    else
      let self3 := {| player := true; http_server := true;
                      ssdp_server := true; running := running self |} in
      if negb (discovery_starts w)
      then start_failed self3 [PlayerStart; HttpCreate; HttpStart; DiscoveryStart]
      else
        (true,
         {| player := true; http_server := true; ssdp_server := true; running := true |},
         [PlayerStart; HttpCreate; HttpStart; DiscoveryStart]).

(** A call that stops a component. *)
Definition is_stop (c : call) : bool :=
  match c with
  | DiscoveryStop | HttpStop | PlayerStop => true
  | _ => false
  end.

End Renderer.

(** ** Notions the statements use *)

Module Notions.
Import PyStr PyNum TimeCodec Mpv Services.

(** The event a call meets lets a command through and acknowledges it: a
    connection is there or can be opened, and the engine answers with a dict
    whose [error] is ['success']. *)
Definition acknowledged (engine : nat -> event) (p : MPVController) : Prop :=
  (socket p = true \/ connects (engine (calls p)) = true) /\
  exists items,
    outcome (engine (calls p)) = Reply (JObject items) /\
    dict_get items "error" = JStr "success".

(** The event a call meets brings no reply: no connection can be opened, the
    request cannot be written, or the exchange times out, fails or ends
    without data. *)
Definition unanswered (engine : nat -> event) (p : MPVController) : Prop :=
  (socket p = false /\ connects (engine (calls p)) = false) \/
  outcome (engine (calls p)) = SendTimeout \/
  outcome (engine (calls p)) = SendFailure \/
  outcome (engine (calls p)) = Timeout \/
  outcome (engine (calls p)) = Failure \/
  outcome (engine (calls p)) = Eof.

(** What a method that sets the state [target] on success does to the
    player [p]: the state moves exactly when the method returns [True],
    which it does exactly when the engine acknowledges the command, and
    nothing else changes. *)
Definition follows (engine : nat -> event) (p : MPVController) (m : M MPVController bool)
    (target : transport_state) : Prop :=
  current_url (snd (m p)) = current_url p /\
  current_volume (snd (m p)) = current_volume p /\
  current_position (snd (m p)) = current_position p /\
  current_duration (snd (m p)) = current_duration p /\
  current_state (snd (m p)) =
    match fst (m p) with
    | Ok true => target
    | _ => current_state p
    end /\
  (fst (m p) = Ok true <-> acknowledged engine p).

(** The playback fields of two states of the server are the same. *)
Definition same_playback (s s' : server) : Prop :=
  current_state (player s') = current_state (player s) /\
  current_url (player s') = current_url (player s) /\
  current_volume (player s') = current_volume (player s) /\
  current_position (player s') = current_position (player s) /\
  current_duration (player s') = current_duration (player s).

(** A method keeps the property [I] of the player, whatever it returns or
    raises. *)
Definition preserves (I : MPVController -> Prop) {A} (m : M MPVController A) : Prop :=
  forall p, I p -> I (snd (m p)).

(** The event lets [sendall] write the request. *)
Definition sends (ev : event) : Prop :=
  outcome ev <> SendTimeout /\ outcome ev <> SendFailure.

(** The ids taken so far are 1, ..., [request_id]: the requests written carry
    some of them, in increasing order, and no call took more than one. *)
Definition ids_counted (p : MPVController) : Prop :=
  StronglySorted Z.lt (map req_id (wire p)) /\
  Forall (fun r => 1 <= req_id r <= request_id p) (wire p) /\
  Z.of_nat (List.length (wire p)) <= request_id p <= Z.of_nat (calls p).

(** The requests written so far carry the ids 1, 2, ... with no gap, and
    [request_id] is their number. *)
Definition ids_dense (p : MPVController) : Prop :=
  map req_id (wire p) = map Z.of_nat (seq 1 (List.length (wire p))) /\
  request_id p = Z.of_nat (List.length (wire p)).

(** A player that holds no connection and has written nothing, stopped at
    the volume [dv] with position and duration 0. *)
Definition idle (dv : Z) (p : MPVController) : Prop :=
  socket p = false /\ wire p = [] /\ request_id p = 0 /\
  current_state p = STOPPED /\ current_volume p = dv /\
  current_position p = PInt 0 /\ current_duration p = PInt 0.

(** A body from which no request can be read: one that is no well-formed
    XML, one with no SOAP body below the root, one whose SOAP body is
    empty. *)
Definition unreadable (document : option Soap.element) : Prop :=
  match document with
  | None => True
  | Some root =>
      match Soap.find_body root with
      | None => True
      | Some body_elem => Soap.children_of body_elem = []
      end
  end.

(** The local name of a tag: what follows its last closing brace. *)
Definition local_name (tag : string) : string := last (split tag "}") "".

(** The text of the last of [children] whose local name is [k]. *)
Definition last_text (k : string) (children : list Soap.element) (default : string)
  : string :=
  fold_left (fun acc c => if String.eqb (local_name (Soap.tag_of c)) k
                          then Soap.text_or_empty c else acc)
            children default.

(** The time [MpvProcess.start] has waited after [k] turns of its loop, by
    the program's count. *)
Fixpoint waited_after (k : nat) : pynum :=
  match k with
  | O => PInt 0
  | S k' =>
      match MpvProcess.add (waited_after k') (PFloat MpvProcess.tenth) with
      | Ok x => x
      | Raise _ => waited_after k'
      end
  end.

(** The fault document: what comes before the error code and after the
    description, and the element that holds the description. *)
Definition fault_head : string :=
  Fault.declaration ++
  "<s:Envelope xmlns:s=" ++ Fault.quote ++ Fault.SOAP_NS ++ Fault.quote ++
  " s:encodingStyle=" ++ Fault.quote ++ Fault.ENCODING_STYLE ++ Fault.quote ++ ">" ++
  "<s:Body><s:Fault><faultcode>s:Client</faultcode><faultstring>UPnPError</faultstring>" ++
  "<detail><UPnPError xmlns=" ++ Fault.quote ++ "urn:schemas-upnp-org:control-1-0" ++
  Fault.quote ++ ">" ++
  "<errorCode>".

Definition fault_tail : string :=
  "</UPnPError></detail></s:Fault></s:Body></s:Envelope>".

Definition description_element (error_description : string) : string :=
  match error_description with
  | EmptyString => "<errorDescription />"
  | _ => "<errorDescription>" ++ Fault._escape_cdata error_description ++
         "</errorDescription>"
  end.

(** What [_escape_cdata] writes for one character. *)
Definition escape_char (a : ascii) : string :=
  if Ascii.eqb a "&" then "&amp;"
  else if Ascii.eqb a "<" then "&lt;"
  else if Ascii.eqb a ">" then "&gt;"
  else String a EmptyString.

(** An ampersand is followed by [amp;], [lt;] or [gt;]. *)
Fixpoint entities_only (s : string) : bool :=
  match s with
  | EmptyString => true
  | String a s' =>
      (negb (Ascii.eqb a "&") || startswith s' "amp;" || startswith s' "lt;"
       || startswith s' "gt;")
      && entities_only s'
  end.

(** The number of characters of a text that are not ASCII. *)
Fixpoint beyond_ascii (s : string) : nat :=
  match s with
  | EmptyString => O
  | String c s' => ((if (nat_of_ascii c <? 128)%nat then 0 else 1) + beyond_ascii s')%nat
  end.

End Notions.

(** ** Sample environments *)

Module Samples.
Import Mpv Services.

(** An engine that is reachable and acknowledges every command. *)
Definition engine_ok : nat -> event :=
  fun _ => {| connects := true;
              outcome := Reply (JObject [("error", JStr "success")]) |}.

(** An engine that cannot be reached. *)
Definition engine_down : nat -> event :=
  fun _ => {| connects := false; outcome := Failure |}.

(** An engine whose first request cannot be written, [sendall] raising and
    the socket being closed, and which acknowledges every command from then
    on. *)
Definition engine_drops_first : nat -> event :=
  fun k => match k with
           | O => {| connects := true; outcome := SendFailure |}
           | S _ => engine_ok k
           end.

(** An engine that acknowledges its first [n] commands and then is lost. *)
Definition engine_until (n : nat) : nat -> event :=
  fun k => if (k <? n)%nat then engine_ok k else engine_down k.

(** An engine that reports the value [data] for every property it is asked. *)
Definition engine_reporting (data : json) : nat -> event :=
  fun _ => {| connects := true;
              outcome := Reply (JObject [("error", JStr "success"); ("data", data)]) |}.

Definition sample_device : Ssdp.SSDPServer :=
  {| Ssdp.device_uuid := "12345678-1234-1234-1234-123456789012";
     Ssdp.location_url := "http://192.168.1.20:8000/description.xml" |}.

(** A search for the rendering service, as a control point sends it. *)
Definition sample_search : string :=
  "M-SEARCH * HTTP/1.1" ++ Ssdp.crlf ++
  "HOST: 239.255.255.250:1900" ++ Ssdp.crlf ++
  "MAN: ssdp:discover" ++ Ssdp.crlf ++
  "MX: 3" ++ Ssdp.crlf ++
  "ST: urn:schemas-upnp-org:service:RenderingControl:1" ++ Ssdp.crlf ++
  Ssdp.crlf.

(** 3665.75 seconds. *)
Definition f3665_75 : PyNum.float := S754_finite false 8061069499039744 (-41).

(** The float 130.0. *)
Definition f130 : PyNum.float := Eval cbv in PyNum.normalize 130 0 false.

(** The text of [n] nines. *)
Fixpoint nines (n : nat) : string :=
  match n with
  | O => EmptyString
  | S k => String "9" (nines k)
  end.

(** A server whose transport service holds a URI, set and not yet played. *)
Definition server_with_uri : server :=
  {| player := Mpv.init 50;
     av_transport_service :=
       {| current_uri := "http://media.local/a.mp3"; current_uri_metadata := "" |};
     rendering_control_service := {| muted := false; volume_before_mute := None |} |}.

(** The file of [tests/test_config.py]. *)
Definition test_config : Config.yaml :=
  Config.YDict
    [ ("device", Config.YDict [ ("name", Config.YStr "Test Device");
                                ("uuid", Config.YStr "test-uuid-123") ]);
      ("network", Config.YDict [ ("interface", Config.YStr "eth0");
                                 ("http_port", Config.YInt 8000) ]);
      ("audio", Config.YDict [ ("default_volume", Config.YInt 75) ]);
      ("logging", Config.YDict [ ("level", Config.YStr "DEBUG") ]) ].

(** The request of [tests/test_soap_handler.py] as a tree, the blank text
    between the elements left out. *)
Definition test_action : Soap.element :=
  Soap.Element "{urn:schemas-upnp-org:service:AVTransport:1}Play" None
    [ Soap.Element "InstanceID" (Some "0") [];
      Soap.Element "Speed" (Some "1") [] ].

Definition test_body : Soap.element :=
  Soap.Element Soap.BODY_TAG None [ test_action ].

Definition test_request : Soap.element :=
  Soap.Element "{http://schemas.xmlsoap.org/soap/envelope/}Envelope" None [ test_body ].

(** Every component starts; port 1900 is taken and discovery cannot start. *)
Definition all_start : Renderer.world :=
  {| Renderer.player_starts := true; Renderer.http_is_created := true;
     Renderer.http_starts := true; Renderer.discovery_starts := true |}.

Definition no_discovery : Renderer.world :=
  {| Renderer.player_starts := true; Renderer.http_is_created := true;
     Renderer.http_starts := true; Renderer.discovery_starts := false |}.

(** The engine's socket never appears. *)
Definition no_socket : MpvProcess.os :=
  {| MpvProcess.popen_returns := true; MpvProcess.socket_exists := fun _ => false |}.

End Samples.

(** * Properties *)

(** ** The bridge *)

Section BridgeFacts.
Import PyNum Mpv.
Variable engine : nat -> event.

(** [_send_command] never raises; it leaves the playback fields alone and
    either takes no id and writes nothing, or takes the next id and writes
    nothing or one request carrying that id. *)
Lemma send_command_spec (cmd : list json) (p : MPVController) :
  exists r p',
    _send_command engine cmd p = (Ok r, p') /\
    current_url p' = current_url p /\
    current_state p' = current_state p /\
    current_volume p' = current_volume p /\
    current_position p' = current_position p /\
    current_duration p' = current_duration p /\
    calls p' = S (calls p) /\
    ((wire p' = wire p /\ request_id p' = request_id p) \/
     (wire p' = wire p /\ request_id p' = request_id p + 1) \/
     (wire p' = (wire p ++ [ {| command := cmd; req_id := request_id p + 1 |} ])%list /\
      request_id p' = request_id p + 1)).
Proof.
  unfold _send_command.
  destruct (negb (socket p) && negb (connects (engine (calls p)))).
  - eexists _, _. split; [reflexivity|]. simpl. intuition.
  - destruct (outcome (engine (calls p)));
      (eexists _, _; split; [reflexivity|]; simpl; intuition).
Qed.

(** The ids on the wire grow strictly and never pass [request_id]. *)
Definition ids_ok (p : MPVController) : Prop :=
  StronglySorted Z.lt (map req_id (wire p)) /\
  Forall (fun r => req_id r <= request_id p) (wire p).

(** A method keeps [ids_ok], whatever it returns or raises. *)
Definition keeps_ids {A} (m : M MPVController A) : Prop :=
  forall p, ids_ok p -> ids_ok (snd (m p)).

Lemma sorted_snoc (l : list Z) (x : Z) :
  StronglySorted Z.lt l -> Forall (fun y => y < x) l -> StronglySorted Z.lt (l ++ [x]).
Proof.
  induction l as [|a l IH]; simpl; intros Hs Hf.
  - repeat constructor.
  - inversion Hs; subst. inversion Hf; subst.
    constructor; [auto|].
    apply Forall_app. split; [assumption|]. constructor; [assumption|constructor].
Qed.

Lemma keeps_send_command cmd : keeps_ids (_send_command engine cmd).
Proof.
  intros p [Hs Hf].
  destruct (send_command_spec cmd p) as (r & p' & E & _ & _ & _ & _ & _ & _ & Hw).
  rewrite E; simpl.
  destruct Hw as [[Hw Hr]|[[Hw Hr]|[Hw Hr]]]; unfold ids_ok; rewrite Hw, Hr.
  - split; assumption.
  - split; [assumption|]. eapply Forall_impl; [|exact Hf]. simpl; intros; lia.
  - split.
    + rewrite map_app; simpl. apply sorted_snoc; [assumption|].
      rewrite Forall_map. eapply Forall_impl; [|exact Hf]. simpl; intros; lia.
    + apply Forall_app; split.
      * eapply Forall_impl; [|exact Hf]. simpl; intros; lia.
      * constructor; [simpl; lia|constructor].
Qed.

Lemma keeps_ret {A} (a : A) : keeps_ids (ret a).
Proof. intros p H; exact H. Qed.

Lemma keeps_raise {A} (e : exn) : keeps_ids (@raise _ A e).
Proof. intros p H; exact H. Qed.

Lemma keeps_lift {A} (r : result A) : keeps_ids (lift r).
Proof. intros p H; exact H. Qed.

Lemma keeps_get : keeps_ids get.
Proof. intros p H; exact H. Qed.

Lemma keeps_modify (f : MPVController -> MPVController) :
  (forall p, wire (f p) = wire p /\ request_id (f p) = request_id p) ->
  keeps_ids (modify f).
Proof.
  intros Hf p H. unfold modify, ids_ok in *; simpl.
  destruct (Hf p) as [-> ->]. exact H.
Qed.

Lemma keeps_bind {A B} (m : M MPVController A) (k : A -> M MPVController B) :
  keeps_ids m -> (forall a, keeps_ids (k a)) -> keeps_ids (bind m k).
Proof.
  intros Hm Hk p H. unfold bind.
  specialize (Hm p H). destruct (m p) as [[a|e] p']; simpl in *.
  - apply Hk; assumption.
  - assumption.
Qed.

Ltac keeps :=
  repeat first
    [ apply keeps_send_command
    | apply keeps_ret
    | apply keeps_raise
    | apply keeps_lift
    | apply keeps_get
    | apply keeps_modify; intros; split; reflexivity
    | apply keeps_bind; [|intros]
    | match goal with
      | |- keeps_ids (if ?b then _ else _) => destruct b
      | |- keeps_ids (match ?x with _ => _ end) => destruct x
      end ].

Lemma keeps_get_property name : keeps_ids (_get_property engine name).
Proof. unfold _get_property. keeps. Qed.

Lemma keeps_get_position : keeps_ids (get_position engine).
Proof. unfold get_position. apply keeps_bind; [apply keeps_get_property|intros]. keeps. Qed.

Lemma keeps_get_duration : keeps_ids (get_duration engine).
Proof. unfold get_duration. apply keeps_bind; [apply keeps_get_property|intros]. keeps. Qed.

Lemma keeps_exec (o : op) (p : MPVController) : ids_ok p -> ids_ok (exec engine o p).
Proof.
  revert p.
  destruct o; simpl;
    match goal with
    | |- forall p, ids_ok p -> ids_ok (snd (?m p)) => change (keeps_ids m)
    end.
  - unfold play. keeps.
  - unfold pause. keeps.
  - unfold resume. keeps.
  - unfold stop. keeps.
  - unfold set_volume. keeps.
  - unfold get_volume. apply keeps_bind; [apply keeps_get_property|intros]. keeps.
  - apply keeps_get_position.
  - apply keeps_get_duration.
  - unfold seek. keeps.
  - unfold get_status. apply keeps_bind; [apply keeps_get|intros].
    apply keeps_bind; [|intros; keeps].
    destruct (current_state a); keeps;
      first [apply keeps_get_position | apply keeps_get_duration].
  - unfold is_playing. apply keeps_bind; [apply keeps_get_property|intros]. keeps.
Qed.

Lemma keeps_run (ops : list op) (p : MPVController) : ids_ok p -> ids_ok (run engine ops p).
Proof.
  revert p. induction ops as [|o ops IH]; simpl; intros p H.
  - exact H.
  - apply IH, keeps_exec, H.
Qed.

(** C9.  Starting from a fresh controller, whatever methods of the bridge are
    called and whatever the engine does, the request ids on the wire, read in
    the order the requests were written, increase strictly: every id is
    greater than each id issued before it, so none is used twice. *)
Theorem request_ids_strictly_increase (ops : list op) (default_volume : Z) :
  StronglySorted Z.lt (map req_id (wire (run engine ops (init default_volume)))).
Proof.
  apply (keeps_run ops (init default_volume)).
  split; simpl; constructor.
Qed.

(** The player side of C2: [stop] returns [True] from any state, under any
    event, and resets the session. *)
Lemma stop_spec (p : MPVController) :
  exists p',
    stop engine p = (Ok true, p') /\
    current_state p' = STOPPED /\
    current_url p' = None /\
    current_position p' = PInt 0 /\
    current_duration p' = PInt 0 /\
    current_volume p' = current_volume p.
Proof.
  unfold stop, bind.
  destruct (send_command_spec [JStr "stop"] p) as (r & p1 & E & H).
  rewrite E. simpl. eexists. split; [reflexivity|]. simpl. intuition.
Qed.

Lemma send_command_accepted (cmd : list json) (p : MPVController) :
  accepts (engine (calls p)) ->
  exists r p',
    _send_command engine cmd p = (Ok r, p') /\
    succeeded r = Ok true /\
    current_url p' = current_url p /\
    current_state p' = current_state p /\
    current_volume p' = current_volume p /\
    current_position p' = current_position p /\
    current_duration p' = current_duration p /\
    calls p' = S (calls p) /\
    wire p' = (wire p ++ [ {| command := cmd; req_id := request_id p + 1 |} ])%list /\
    request_id p' = request_id p + 1.
Proof.
  intros [Hc (r & Ho & Hr)]. unfold _send_command.
  rewrite Hc, Ho, andb_false_r.
  eexists _, _. split; [reflexivity|]. simpl. intuition.
Qed.

(** [set_volume] writes at most one request, [set_property volume] with the
    clamped level, and stores nothing but that level. *)
Lemma set_volume_spec (level : Z) (p : MPVController) :
  let clamped := Z.max 0 (Z.min 100 level) in
  exists r p',
    set_volume engine level p = (r, p') /\
    current_url p' = current_url p /\
    current_state p' = current_state p /\
    current_position p' = current_position p /\
    current_duration p' = current_duration p /\
    calls p' = S (calls p) /\
    (current_volume p' = current_volume p \/ current_volume p' = clamped) /\
    (wire p' = wire p \/
     wire p' = (wire p ++ [ {| command := [JStr "set_property"; JStr "volume"; JInt clamped];
                               req_id := request_id p + 1 |} ])%list).
Proof.
  intros clamped. unfold set_volume, bind. fold clamped.
  destruct (send_command_spec [JStr "set_property"; JStr "volume"; JInt clamped] p)
    as (r & p1 & E & Hu & Hs & Hv & Hp & Hd & Hc & Hw).
  rewrite E. unfold lift.
  assert (Hw' : wire p1 = wire p \/
     wire p1 = (wire p ++ [ {| command := [JStr "set_property"; JStr "volume"; JInt clamped];
                               req_id := request_id p + 1 |} ])%list) by tauto.
  destruct (succeeded r) as [[|]|e]; simpl;
    (eexists _, _; split; [reflexivity|]; simpl; intuition).
Qed.

Lemma set_volume_accepted (level : Z) (p : MPVController) :
  accepts (engine (calls p)) ->
  let clamped := Z.max 0 (Z.min 100 level) in
  exists p',
    set_volume engine level p = (Ok true, p') /\
    current_volume p' = clamped /\
    calls p' = S (calls p) /\
    wire p' = (wire p ++ [ {| command := [JStr "set_property"; JStr "volume"; JInt clamped];
                              req_id := request_id p + 1 |} ])%list.
Proof.
  intros Ha clamped. unfold set_volume, bind. fold clamped.
  destruct (send_command_accepted [JStr "set_property"; JStr "volume"; JInt clamped] p Ha)
    as (r & p1 & E & Hr & Hu & Hs & Hv & Hp & Hd & Hc & Hw & Hi).
  rewrite E. unfold lift. rewrite Hr. simpl.
  eexists. split; [reflexivity|]. simpl. intuition.
Qed.

(** [get_volume] makes one call and writes no field but [current_volume],
    which holds the value it returns. *)
Lemma get_volume_spec (p : MPVController) (v : Z) (p' : MPVController) :
  get_volume engine p = (Ok v, p') ->
  current_volume p' = v /\ calls p' = S (calls p).
Proof.
  unfold get_volume, _get_property, bind.
  destruct (send_command_spec [JStr "get_property"; JStr "volume"] p)
    as (r & p1 & E & Hu & Hs & Hv & Hp & Hd & Hc & Hw).
  rewrite E. unfold lift.
  destruct (succeeded r) as [[|]|e]; simpl.
  - destruct r; simpl;
      try (intros H; inversion H; subst; simpl; auto; fail).
    destruct (dict_get items "data"); simpl;
      try (intros H; inversion H; subst; simpl; auto; fail);
      match goal with
      | |- context [int_of_float ?f] => destruct (int_of_float f)
      | |- context [int_of_string ?f] => destruct (int_of_string f)
      | _ => idtac
      end; simpl; intros H; inversion H; subst; simpl; auto.
  - intros H; inversion H; subst; simpl; auto.
  - intros H; inversion H.
Qed.

End BridgeFacts.

(** ** The services *)

Section ServiceFacts.
Import PyStr PyNum TimeCodec Mpv Services.
Variable engine : nat -> event.

Lemma on_player_eq {A} (m : M MPVController A) (s : server) (r : result A) (p' : MPVController) :
  m (player s) = (r, p') ->
  on_player m s =
    (r, {| player := p';
           av_transport_service := av_transport_service s;
           rendering_control_service := rendering_control_service s |}).
Proof. unfold on_player. intros ->. reflexivity. Qed.

(** C2, as the code has it.  From every state of the session and under every
    event of the engine (an answer of any shape, a failure, a timeout, no
    data, no connection), [stop] returns [True] and the [Stop] action returns
    an empty result, no exception and no fault; afterwards the player's state
    is [STOPPED], its URL is [None], and position and duration are 0.  The
    URI of the transport service, which [SetAVTransportURI] stores, [Play]
    requires and [GetMediaInfo] reports, is not cleared: [Stop] leaves the
    service as it is, with its URI and metadata. *)
Theorem stop_resets_the_player_and_keeps_the_uri (s : server) (args : dict) :
  (exists p', stop engine (player s) = (Ok true, p')) /\
  exists s',
    handle_action engine Transport "Stop" args s = (Ok [], s') /\
    (forall path st, route path = Some Transport ->
       do_POST engine path (Some {| action := "Stop"; service_type := st; args := args |}) s
       = (SoapResponse "Stop" AV_SERVICE_TYPE [], s')) /\
    current_state (player s') = STOPPED /\
    current_url (player s') = None /\
    current_position (player s') = PInt 0 /\
    current_duration (player s') = PInt 0 /\
    current_uri (av_transport_service s') = current_uri (av_transport_service s) /\
    current_uri_metadata (av_transport_service s')
      = current_uri_metadata (av_transport_service s) /\
    rendering_control_service s' = rendering_control_service s.
Proof.
  destruct (stop_spec engine (player s)) as (p' & E & Hs & Hu & Hp & Hd & _).
  split; [eexists; exact E|].
  assert (H : handle_action engine Transport "Stop" args s =
              (Ok [], {| player := p';
                         av_transport_service := av_transport_service s;
                         rendering_control_service := rendering_control_service s |})).
  { change (handle_action engine Transport "Stop" args) with (_handle_Stop engine args).
    unfold _handle_Stop, bind. rewrite (on_player_eq _ _ _ _ E). reflexivity. }
  eexists. split; [exact H|]. split.
  - intros path st Hr. unfold do_POST. rewrite Hr. cbn [Services.action Services.args].
    rewrite H. reflexivity.
  - cbn [player av_transport_service rendering_control_service].
    split; [exact Hs|]. split; [exact Hu|]. split; [exact Hp|]. split; [exact Hd|].
    split; [reflexivity|]. split; reflexivity.
Qed.

(** C5.  While the transport service holds no URI, [Play] raises and the
    endpoint answers with a fault; nothing at all has changed afterwards: not
    the session's state, URL, position or duration, nor any other field, and
    no command was written. *)
Theorem play_without_uri_faults (s : server) (args : dict) (path st : string) :
  current_uri (av_transport_service s) = "" ->
  route path = Some Transport ->
  handle_action engine Transport "Play" args s = (Raise (ValueError "No URI set"), s) /\
  do_POST engine path (Some {| action := "Play"; service_type := st; args := args |}) s
  = (SoapError 501 "No URI set", s).
Proof.
  intros Hu Hr.
  assert (H : handle_action engine Transport "Play" args s
              = (Raise (ValueError "No URI set"), s)).
  { change (handle_action engine Transport "Play" args) with (_handle_Play engine args).
    unfold _handle_Play, bind, get. rewrite Hu. reflexivity. }
  split; [exact H|].
  unfold do_POST. rewrite Hr. cbn [Services.action Services.args]. rewrite H. reflexivity.
Qed.

(** C4.  Whatever integer [v] the [DesiredVolume] argument denotes, inside
    [0, 100] or not, the [SetVolume] action writes at most one request, and that
    request asks for [max(0, min(100, v))], which lies in [0, 100]; a session
    volume inside [0, 100] before the call is inside [0, 100] after it. *)
Theorem set_volume_action_clamps (s : server) (args : dict) (v : Z) :
  int_of_string (args_get args "DesiredVolume" "50") = Ok v ->
  let level := Z.max 0 (Z.min 100 v) in
  let s' := snd (handle_action engine Rendering "SetVolume" args s) in
  0 <= level <= 100 /\
  (wire (player s') = wire (player s) \/
   wire (player s') =
     (wire (player s) ++
      [ {| command := [JStr "set_property"; JStr "volume"; JInt level];
           req_id := request_id (player s) + 1 |} ])%list) /\
  (0 <= current_volume (player s) <= 100 -> 0 <= current_volume (player s') <= 100).
Proof.
  intros Hv level s'. split; [unfold level; lia|].
  subst s'.
  change (handle_action engine Rendering "SetVolume" args) with (_handle_SetVolume engine args).
  unfold _handle_SetVolume, bind, lift. rewrite Hv.
  destruct (set_volume_spec engine v (player s))
    as (r & p' & E & _ & _ & _ & _ & _ & Hvol & Hw).
  rewrite (on_player_eq _ _ _ _ E).
  fold level in Hvol, Hw.
  destruct r; simpl;
    (split; [exact Hw|]; intros Hb;
     destruct Hvol as [-> | ->]; [exact Hb | unfold level; lia]).
Qed.

(** A [DesiredVolume] that is no integer literal makes [SetVolume] raise
    before the player is reached. *)
Lemma set_volume_action_bad_literal (s : server) (args : dict) (e : exn) :
  int_of_string (args_get args "DesiredVolume" "50") = Raise e ->
  handle_action engine Rendering "SetVolume" args s = (Raise e, s).
Proof.
  intros Hv.
  change (handle_action engine Rendering "SetVolume" args) with (_handle_SetVolume engine args).
  unfold _handle_SetVolume, bind, lift. rewrite Hv. reflexivity.
Qed.

(** [SetMute] with a true flag: the volume [get_volume] returns is kept in
    [volume_before_mute], then the volume is set to 0. *)
Lemma set_mute_true_spec (s : server) (args : dict) (v : Z) (b : bool)
      (p1 p2 : MPVController) :
  desired_mute args = true ->
  get_volume engine (player s) = (Ok v, p1) ->
  set_volume engine 0 p1 = (Ok b, p2) ->
  handle_action engine Rendering "SetMute" args s =
    (Ok [], {| player := p2;
               av_transport_service := av_transport_service s;
               rendering_control_service :=
                 {| muted := true; volume_before_mute := Some v |} |}).
Proof.
  intros Hm Hg Hs.
  change (handle_action engine Rendering "SetMute" args) with (_handle_SetMute engine args).
  unfold _handle_SetMute. rewrite Hm. cbv zeta.
  unfold bind at 1 2 3 4. unfold get, modify. cbv beta iota.
  rewrite (on_player_eq (get_volume engine) (set_rc _ s) (Ok v) p1 Hg).
  unfold bind.
  match goal with
  | |- context [on_player (set_volume engine 0) ?st] =>
      rewrite (on_player_eq (set_volume engine 0) st (Ok b) p2 Hs)
  end.
  reflexivity.
Qed.

(** [SetMute] with a false flag after a mute: the kept volume is set again. *)
Lemma set_mute_false_spec (s : server) (args : dict) (v : Z) (b : bool)
      (p' : MPVController) :
  desired_mute args = false ->
  volume_before_mute (rendering_control_service s) = Some v ->
  set_volume engine v (player s) = (Ok b, p') ->
  handle_action engine Rendering "SetMute" args s =
    (Ok [], {| player := p';
               av_transport_service := av_transport_service s;
               rendering_control_service :=
                 {| muted := false; volume_before_mute := Some v |} |}).
Proof.
  intros Hm Hv Hs.
  change (handle_action engine Rendering "SetMute" args) with (_handle_SetMute engine args).
  unfold _handle_SetMute. rewrite Hm. cbv zeta.
  unfold bind, get, modify. rewrite Hv.
  rewrite (on_player_eq (set_volume engine v) (set_rc _ s) (Ok b) p' Hs).
  reflexivity.
Qed.

(** C6.  (1) Let [v] be the volume the session holds when the mute is asked
    for ([get_volume]'s answer), and let the engine acknowledge the two
    volume commands that follow.  Then [SetMute] with a true flag followed by
    [SetMute] with a false flag, nothing in between, both return normally;
    the volume is 0 in between, and at the end the session's volume is
    [max 0 (min 100 v)], the value the last request written asks for: it is
    [v] again exactly when [v] lies between 0 and 100.
    (2) [SetMute] with a false flag on a service that never muted returns
    normally, writes no request and leaves the player as it was. *)
Theorem mute_then_unmute_restores_clamped (s : server) :
  (forall (args1 args2 : dict) (v : Z),
     desired_mute args1 = true ->
     desired_mute args2 = false ->
     fst (get_volume engine (player s)) = Ok v ->
     accepts (engine (S (calls (player s)))) ->
     accepts (engine (S (S (calls (player s))))) ->
     exists s1 s2,
       handle_action engine Rendering "SetMute" args1 s = (Ok [], s1) /\
       handle_action engine Rendering "SetMute" args2 s1 = (Ok [], s2) /\
       current_volume (player s1) = 0 /\
       muted (rendering_control_service s1) = true /\
       current_volume (player s2) = Z.max 0 (Z.min 100 v) /\
       (current_volume (player s2) = v <-> 0 <= v <= 100) /\
       muted (rendering_control_service s2) = false /\
       wire (player s2) =
         (wire (player s1) ++
          [ {| command := [JStr "set_property"; JStr "volume";
                           JInt (Z.max 0 (Z.min 100 v))];
               req_id := request_id (player s1) + 1 |} ])%list) /\
  (forall args : dict,
     desired_mute args = false ->
     volume_before_mute (rendering_control_service s) = None ->
     exists s',
       handle_action engine Rendering "SetMute" args s = (Ok [], s') /\
       player s' = player s /\
       muted (rendering_control_service s') = false).
Proof.
  split.
  - intros args1 args2 v Hm1 Hm2 Hg Ha1 Ha2.
    destruct (get_volume engine (player s)) as [r p1] eqn:Eg. simpl in Hg. subst r.
    destruct (get_volume_spec engine _ _ _ Eg) as [Hv1 Hc1].
    rewrite <- Hc1 in Ha1.
    destruct (set_volume_accepted engine 0 p1 Ha1) as (p2 & Es & Hv2 & Hc2 & _).
    rewrite <- Hc1, <- Hc2 in Ha2.
    destruct (set_volume_accepted engine v p2 Ha2) as (p3 & Es3 & Hv3 & _ & Hw3).
    eexists _, _.
    split; [exact (set_mute_true_spec s args1 v true p1 p2 Hm1 Eg Es)|].
    split; [apply (set_mute_false_spec _ args2 v true p3 Hm2); [reflexivity | exact Es3]|].
    cbn [player rendering_control_service muted].
    split; [exact Hv2|]. split; [reflexivity|]. split; [exact Hv3|].
    split; [rewrite Hv3; lia|]. split; [reflexivity|]. exact Hw3.
  - intros args Hm Hn.
    change (handle_action engine Rendering "SetMute" args) with (_handle_SetMute engine args).
    unfold _handle_SetMute. rewrite Hm. cbv zeta.
    unfold bind, get, modify. rewrite Hn.
    eexists. split; [reflexivity|]. simpl. auto.
Qed.

(** The closed action sets, by name. *)
Lemma actions_closed :
  actions engine Transport =
    [ "SetAVTransportURI"; "Play"; "Pause"; "Stop"; "Seek";
      "GetTransportInfo"; "GetPositionInfo"; "GetMediaInfo" ] /\
  actions engine Rendering = [ "GetVolume"; "SetVolume"; "GetMute"; "SetMute" ] /\
  actions engine Connection =
    [ "GetProtocolInfo"; "GetCurrentConnectionIDs"; "GetCurrentConnectionInfo" ].
Proof. repeat split. Qed.

Lemma lookup_handler_none (hs : list (string * (dict -> M server dict))) (a : string) :
  ~ In a (map fst hs) -> lookup_handler hs a = None.
Proof.
  induction hs as [|[name h] hs IH]; simpl; intros Hn; [reflexivity|].
  destruct (String.eqb_spec name a) as [->|Hne].
  - exfalso. apply Hn. left. reflexivity.
  - apply IH. intros Hin. apply Hn. right. exact Hin.
Qed.

(** C1, as the code has it.  (1) However a service is addressed, an action
    name outside its closed set makes the endpoint answer with a fault of code
    501 whose description is ["Unknown action: "] followed by the name, and
    changes nothing.  (2) Whatever exception an action raises, the fault
    carries code 501 and the exception's message.  (3) Code 401 is the answer
    to a body that could not be parsed, and to nothing else. *)
Theorem unknown_action_faults_501 (svc : service) (path : string) (s : server) :
  route path = Some svc ->
  (forall req : soap_request,
     ~ In (action req) (actions engine svc) ->
     do_POST engine path (Some req) s
     = (SoapError 501 ("Unknown action: " ++ action req), s)) /\
  (forall (req : soap_request) (e : exn) (s' : server),
     handle_action engine svc (action req) (args req) s = (Raise e, s') ->
     do_POST engine path (Some req) s = (SoapError 501 (exn_str e), s')) /\
  (forall (request : option soap_request) (d : string),
     fst (do_POST engine path request s) = SoapError 401 d <-> request = None /\ d = "Invalid Action").
Proof.
  intros Hr. split; [|split].
  - intros req Hn. unfold do_POST. rewrite Hr.
    unfold handle_action. rewrite (lookup_handler_none _ _ Hn). reflexivity.
  - intros req e s' H. unfold do_POST. rewrite Hr, H. reflexivity.
  - intros [req|] d; unfold do_POST.
    + rewrite Hr.
      destruct (handle_action engine svc (action req) (args req) s) as [[a|e] s'];
        simpl; split; [discriminate | intros [H _]; discriminate
                      | intros H; inversion H | intros [H _]; discriminate].
    + simpl. split.
      * intros H. inversion H. auto.
      * intros [_ ->]. reflexivity.
Qed.

End ServiceFacts.

(** ** Discovery *)

Section DiscoveryFacts.
Import PyStr Ssdp.

Lemma startswith_app (p s : string) : startswith (p ++ s) p = true.
Proof.
  induction p as [|c p IH]; simpl; [reflexivity|].
  rewrite Ascii.eqb_refl. exact IH.
Qed.

Lemma append_assoc (a b c : string) : (a ++ b) ++ c = a ++ b ++ c.
Proof. induction a; simpl; congruence. Qed.

Lemma contains_prefix (sub s : string) : startswith s sub = true -> contains sub s = true.
Proof. intros H. destruct s; cbn [contains]; rewrite H; reflexivity. Qed.

Lemma contains_app (sub a b : string) : contains sub (a ++ sub ++ b) = true.
Proof.
  induction a as [|c a IH]; simpl.
  - apply contains_prefix, startswith_app.
  - rewrite IH. apply orb_true_r.
Qed.

Lemma contains_between (sub a b text : string) :
  text = a ++ sub ++ b -> contains sub text = true.
Proof. intros ->. apply contains_app. Qed.

(** A line that starts with [ST:] is cut by [split(':', 1)] into [ST] and
    what follows the colon. *)
Lemma split_once_st (line : string) :
  startswith line "ST:" = true ->
  split_once line ":" = ["ST"; drop 3 line].
Proof.
  unfold split_once. intros H.
  destruct line as [|a [|b [|c rest]]]; cbn [startswith] in H;
    rewrite ?andb_false_r in H; try discriminate H.
  rewrite andb_true_r in H.
  apply andb_true_iff in H as [Ha H]. apply andb_true_iff in H as [Hb Hc].
  apply Ascii.eqb_eq in Ha, Hb, Hc. subst a b c. reflexivity.
Qed.

(** The loop stops at the first line that starts with [ST:]. *)
Lemma search_target_first (pre : list string) (line : string) (post : list string) :
  Forall (fun l => startswith l "ST:" = false) pre ->
  startswith line "ST:" = true ->
  search_target (pre ++ line :: post) = Ok (Some (strip (drop 3 line))).
Proof.
  intros Hpre Hline. induction Hpre as [|l pre Hl _ IH]; cbn [search_target app].
  - rewrite Hline, (split_once_st line Hline). reflexivity.
  - rewrite Hl. exact IH.
Qed.

Lemma search_target_none (lines : list string) :
  Forall (fun l => startswith l "ST:" = false) lines ->
  search_target lines = Ok None.
Proof.
  intros H. induction H as [|l lines Hl _ IH]; cbn [search_target]; [reflexivity|].
  rewrite Hl. exact IH.
Qed.

(** The test of [_handle_msearch] accepts the seven listed targets and no
    other. *)
Lemma should_respond_iff (self : SSDPServer) (st : string) :
  should_respond self st = true <-> In st (accepted_targets self).
Proof.
  unfold should_respond, accepted_targets. simpl.
  rewrite !orb_true_iff, !String.eqb_eq.
  intuition (subst; auto).
Qed.

(** C7.  For a datagram that holds [M-SEARCH]: if the first line that starts
    with [ST:] carries, blanks stripped, one of the seven accepted targets,
    one datagram is sent, to the querying address, and its text has the
    header lines [ST] with that same target, [LOCATION] with the device's
    location URL and [CACHE-CONTROL: max-age=1800]; if it carries anything
    else, or if no line starts with [ST:], nothing is sent.  The listener
    raises in none of these cases. *)
Theorem msearch_reply (self : SSDPServer) (message : string) (addr : address) :
  contains "M-SEARCH" message = true ->
  (forall (pre : list string) (line : string) (post : list string),
     split message crlf = (pre ++ line :: post)%list ->
     Forall (fun l => startswith l "ST:" = false) pre ->
     startswith line "ST:" = true ->
     let st := strip (drop 3 line) in
     (In st (accepted_targets self) ->
      exists text,
        _listen_step self message addr = Ok [ {| payload := text; dest := addr |} ] /\
        contains ("ST: " ++ st ++ crlf) text = true /\
        contains ("LOCATION: " ++ location_url self ++ crlf) text = true /\
        contains ("CACHE-CONTROL: max-age=1800" ++ crlf) text = true) /\
     (~ In st (accepted_targets self) ->
      _listen_step self message addr = Ok [])) /\
  (Forall (fun l => startswith l "ST:" = false) (split message crlf) ->
   _listen_step self message addr = Ok []).
Proof.
  intros Hm. unfold _listen_step. rewrite Hm. unfold _handle_msearch. split.
  - intros pre line post Hsplit Hpre Hline.
    rewrite Hsplit, (search_target_first pre line post Hpre Hline).
    set (st := strip (drop 3 line)).
    unfold rbind. split.
    + intros Hin. apply should_respond_iff in Hin.
      destruct st as [|c st'] eqn:Est; [discriminate Hin|].
      rewrite Hin. unfold _send_msearch_response.
      eexists. split; [reflexivity|]. cbn [payload].
      set (t := String c st').
      split; [|split].
      * apply (contains_between _
          ("HTTP/1.1 200 OK" ++ crlf ++ "CACHE-CONTROL: max-age=1800" ++ crlf ++
           "EXT:" ++ crlf ++ "LOCATION: " ++ location_url self ++ crlf ++
           "SERVER: Linux/4.x UPnP/1.1 Pi-Audio-Renderer/1.0" ++ crlf)
          ("USN: uuid:" ++ device_uuid self ++ "::" ++ t ++ crlf ++ crlf)).
        rewrite !append_assoc. reflexivity.
      * apply (contains_between _
          ("HTTP/1.1 200 OK" ++ crlf ++ "CACHE-CONTROL: max-age=1800" ++ crlf ++
           "EXT:" ++ crlf)
          ("SERVER: Linux/4.x UPnP/1.1 Pi-Audio-Renderer/1.0" ++ crlf ++
           "ST: " ++ t ++ crlf ++
           "USN: uuid:" ++ device_uuid self ++ "::" ++ t ++ crlf ++ crlf)).
        rewrite !append_assoc. reflexivity.
      * apply (contains_between _ ("HTTP/1.1 200 OK" ++ crlf)
          ("EXT:" ++ crlf ++ "LOCATION: " ++ location_url self ++ crlf ++
           "SERVER: Linux/4.x UPnP/1.1 Pi-Audio-Renderer/1.0" ++ crlf ++
           "ST: " ++ t ++ crlf ++
           "USN: uuid:" ++ device_uuid self ++ "::" ++ t ++ crlf ++ crlf)).
        rewrite !append_assoc. reflexivity.
    + intros Hn.
      destruct (should_respond self st) eqn:Hs.
      * exfalso. apply Hn, should_respond_iff, Hs.
      * destruct st; reflexivity.
  - intros Hnone. rewrite (search_target_none _ Hnone). reflexivity.
Qed.

(** The notification types of a round of withdrawals: the first three of the
    six that [_send_alive] announces.  C8 asks for all six; the three service
    types are never withdrawn. *)
Theorem byebye_omits_the_services (self : SSDPServer) :
  byebye_services self = firstn 3 (alive_services self) /\
  List.length (_send_byebye self) = 3%nat /\
  List.length (_send_alive self) = 6%nat /\
  skipn 3 (alive_services self) =
    [ "urn:schemas-upnp-org:service:AVTransport:1";
      "urn:schemas-upnp-org:service:RenderingControl:1";
      "urn:schemas-upnp-org:service:ConnectionManager:1" ].
Proof. repeat split. Qed.

End DiscoveryFacts.

(** ** Binary64: results that are exact *)

Section Binary64Facts.
Import PyNum.

Lemma digits2_size (p : positive) : digits2_pos p = Pos.size p.
Proof. induction p; simpl; congruence. Qed.

Lemma Zdigits_log2 (p : positive) : Zpos (digits2_pos p) = Z.log2 (Zpos p) + 1.
Proof.
  destruct p; cbn [digits2_pos Z.log2]; rewrite ?Pos2Z.inj_succ, ?digits2_size; lia.
Qed.

Lemma Zdigits_spec (p : positive) :
  2 ^ (Zpos (digits2_pos p) - 1) <= Zpos p < 2 ^ Zpos (digits2_pos p).
Proof.
  rewrite Zdigits_log2.
  replace (Z.log2 (Zpos p) + 1 - 1) with (Z.log2 (Zpos p)) by lia.
  replace (Z.log2 (Zpos p) + 1) with (Z.succ (Z.log2 (Zpos p))) by lia.
  apply Z.log2_spec. lia.
Qed.

Lemma Zdigits_unique (p : positive) (d : Z) :
  2 ^ (d - 1) <= Zpos p < 2 ^ d -> Zpos (digits2_pos p) = d.
Proof.
  intros H. rewrite Zdigits_log2.
  assert (0 <= d - 1).
  { destruct (Z.le_gt_cases 0 (d - 1)) as [|Hn]; [assumption|].
    exfalso. destruct (Z.eq_dec d 0) as [->|Hd]; [simpl in H; lia|].
    rewrite (Z.pow_neg_r 2 d) in H by lia. lia. }
  rewrite (Z.log2_unique (Zpos p) (d - 1)); [lia | assumption |].
  replace (Z.succ (d - 1)) with d by lia. assumption.
Qed.

Lemma Zdigits_shift (p : positive) (n : Z) :
  0 <= n -> Zdigits2 (Zpos p * 2 ^ n) = Zpos (digits2_pos p) + n.
Proof.
  intros Hn.
  assert (Hp : 0 < Zpos p * 2 ^ n) by (apply Z.mul_pos_pos; [lia | apply Z.pow_pos_nonneg; lia]).
  destruct (Zpos p * 2 ^ n) as [|q|q] eqn:E; try lia.
  cbn [Zdigits2]. rewrite !Zdigits_log2, <- E.
  rewrite Z.log2_mul_pow2 by lia. lia.
Qed.

Lemma fexp_mono (a b : Z) : a <= b -> fexp prec emax a <= fexp prec emax b.
Proof. unfold fexp. lia. Qed.

Lemma bounded_spec (m : positive) (e : Z) :
  bounded prec emax m e = true ->
  fexp prec emax (Zpos (digits2_pos m) + e) = e /\ -1074 <= e <= 971.
Proof.
  unfold bounded, canonical_mantissa. intros H.
  apply andb_true_iff in H as [H1 H2].
  apply Z.eqb_eq in H1. apply Z.leb_le in H2.
  split; [exact H1|]. unfold fexp, emin, prec, emax in *. lia.
Qed.

Lemma iter_pos_nat {A} (f : A -> A) (p : positive) (x : A) :
  iter_pos f p x = Nat.iter (Pos.to_nat p) f x.
Proof.
  revert x. induction p as [p IH|p IH|]; intros x; cbn [iter_pos].
  - rewrite !IH, Pos2Nat.inj_xI.
    replace (2 * Pos.to_nat p)%nat with (Pos.to_nat p + Pos.to_nat p)%nat by lia.
    rewrite Nat.iter_succ_r, Nat.iter_add. reflexivity.
  - rewrite !IH, Pos2Nat.inj_xO.
    replace (2 * Pos.to_nat p)%nat with (Pos.to_nat p + Pos.to_nat p)%nat by lia.
    rewrite Nat.iter_add. reflexivity.
  - reflexivity.
Qed.

Lemma shr_1_even (m : Z) :
  0 < m ->
  shr_1 {| shr_m := 2 * m; shr_r := false; shr_s := false |}
  = {| shr_m := m; shr_r := false; shr_s := false |}.
Proof. intros H. destruct m; try lia; reflexivity. Qed.

(** Shifting out [n] bits that are all zero loses nothing. *)
Lemma iter_shr_exact (n : nat) (m : Z) :
  0 < m ->
  Nat.iter n shr_1 {| shr_m := m * 2 ^ Z.of_nat n; shr_r := false; shr_s := false |}
  = {| shr_m := m; shr_r := false; shr_s := false |}.
Proof.
  intros Hm. induction n as [|n IH].
  - simpl. rewrite Z.mul_1_r. reflexivity.
  - rewrite Nat.iter_succ_r, Nat2Z.inj_succ, Z.pow_succ_r by lia.
    replace (m * (2 * 2 ^ Z.of_nat n)) with (2 * (m * 2 ^ Z.of_nat n)) by ring.
    rewrite shr_1_even; [exact IH|].
    apply Z.mul_pos_pos; [assumption | apply Z.pow_pos_nonneg; lia].
Qed.

Lemma shr_fexp_canonical (m0 : positive) (e0 d : Z) :
  0 <= d -> bounded prec emax m0 e0 = true ->
  shr_fexp prec emax (Zpos m0 * 2 ^ d) (e0 - d) loc_Exact
  = ({| shr_m := Zpos m0; shr_r := false; shr_s := false |}, e0).
Proof.
  intros Hd Hb. destruct (bounded_spec _ _ Hb) as [Hc He].
  unfold shr_fexp. rewrite Zdigits_shift by lia.
  replace (Zpos (digits2_pos m0) + d + (e0 - d)) with (Zpos (digits2_pos m0) + e0) by lia.
  rewrite Hc. replace (e0 - (e0 - d)) with d by lia.
  unfold shr, shr_record_of_loc.
  destruct d as [|p|p]; [ | | lia].
  - rewrite Z.pow_0_r, Z.mul_1_r, Z.sub_0_r. reflexivity.
  - rewrite iter_pos_nat.
    rewrite <- (positive_nat_Z p) at 1.
    rewrite iter_shr_exact by lia. f_equal. lia.
Qed.

(** Rounding a mantissa that is a canonical one followed by zeros gives back
    the canonical float. *)
Lemma binary_round_aux_exact (sx : bool) (m0 : positive) (e0 d : Z) :
  0 <= d -> bounded prec emax m0 e0 = true ->
  binary_round_aux prec emax sx (Zpos m0 * 2 ^ d) (e0 - d) loc_Exact
  = S754_finite sx m0 e0.
Proof.
  intros Hd Hb. destruct (bounded_spec _ _ Hb) as [Hc He].
  unfold binary_round_aux.
  rewrite (shr_fexp_canonical m0 e0 d Hd Hb).
  cbn [shr_m loc_of_shr_record round_nearest_even].
  generalize (shr_fexp_canonical m0 e0 0 (Z.le_refl 0) Hb).
  rewrite Z.pow_0_r, Z.mul_1_r, Z.sub_0_r. intros ->.
  cbn [shr_m].
  replace (e0 <=? emax - prec) with true; [reflexivity|].
  symmetry. apply Z.leb_le. unfold emax, prec. lia.
Qed.

Lemma pow2_pos (n : Z) : 0 <= n -> 0 < 2 ^ n.
Proof. intros. apply Z.pow_pos_nonneg; lia. Qed.

Lemma B2U_nonneg (x : float) : 0 <= B2U x.
Proof.
  destruct x as [s|s| |s m e]; cbn [B2U]; lia.
Qed.

Lemma good_finite (s : bool) (m : positive) (e : Z) :
  good (S754_finite s m e) ->
  s = false /\ bounded prec emax m e = true /\ -1074 <= e <= 971 /\
  0 < B2U (S754_finite s m e).
Proof.
  intros [Hv Hs]. cbn [valid_binary] in Hv.
  destruct (bounded_spec _ _ Hv) as [_ He].
  split; [exact Hs|]. split; [exact Hv|]. split; [lia|].
  cbn [B2U]. apply Z.mul_pos_pos; [lia | apply pow2_pos; lia].
Qed.

Lemma good_zero (x : float) : good x -> B2U x = 0 -> x = S754_zero false.
Proof.
  intros Hg H0. destruct x as [s|s| |s m e].
  - destruct Hg as [_ ->]. reflexivity.
  - destruct Hg as [_ []].
  - destruct Hg as [_ []].
  - apply good_finite in Hg. lia.
Qed.

Lemma good_zero_false : good (S754_zero false).
Proof. split; reflexivity. Qed.

(** A canonical mantissa has at most 53 digits. *)
Lemma bounded_mantissa (m : positive) (e : Z) :
  bounded prec emax m e = true -> Zpos m < 2 ^ 53.
Proof.
  intros Hb. destruct (bounded_spec _ _ Hb) as [Hc He].
  unfold fexp, emin, prec, emax in Hc.
  assert (Zpos (digits2_pos m) <= 53) by lia.
  eapply Z.lt_le_trans; [apply Zdigits_spec|].
  apply Z.pow_le_mono_r; lia.
Qed.

(** The sum of the number of digits and the exponent, read off the value. *)
Lemma magnitude_eq (m n : positive) (a b : Z) :
  0 <= a -> 0 <= b ->
  Zpos m * 2 ^ a = Zpos n * 2 ^ b ->
  Zpos (digits2_pos m) + a = Zpos (digits2_pos n) + b.
Proof.
  intros Ha Hb H.
  rewrite <- (Zdigits_shift m a Ha), <- (Zdigits_shift n b Hb), H. reflexivity.
Qed.

(** Two good floats of the same value are the same float. *)
Lemma good_unique (x y : float) : good x -> good y -> B2U x = B2U y -> x = y.
Proof.
  intros Hx Hy H.
  destruct x as [s|s| |s m e].
  - assert (s = false) by (destruct Hx as [_ Hs]; exact Hs). subst s.
    symmetry. apply good_zero; [assumption | symmetry; exact H].
  - destruct Hx as [_ []].
  - destruct Hx as [_ []].
  - destruct y as [s'|s'| |s' m' e'].
    + exfalso. destruct (good_finite _ _ _ Hx) as (_ & _ & _ & Hp).
      rewrite H in Hp. cbn [B2U] in Hp. lia.
    + destruct Hy as [_ []].
    + destruct Hy as [_ []].
    + destruct (good_finite _ _ _ Hx) as (-> & Hb & He & _).
      destruct (good_finite _ _ _ Hy) as (-> & Hb' & He' & _).
      cbn [B2U] in H.
      destruct (bounded_spec _ _ Hb) as [Hc _].
      destruct (bounded_spec _ _ Hb') as [Hc' _].
      assert (Hmag := magnitude_eq m m' (e + 1074) (e' + 1074) ltac:(lia) ltac:(lia) H).
      assert (e = e').
      { rewrite <- Hc, <- Hc'. f_equal. lia. }
      subst e'. apply Z.mul_cancel_r in H; [|pose proof (pow2_pos (e + 1074)); lia].
      congruence.
Qed.

Lemma shl_align_value (mx : positive) (ex ez : Z) :
  ez <= ex -> Zpos (fst (shl_align mx ex ez)) = Zpos mx * 2 ^ (ex - ez).
Proof.
  intros H. unfold shl_align.
  destruct (ez - ex) as [|d|d] eqn:E; cbn [fst]; try lia.
  - replace (ex - ez) with 0 by lia. rewrite Z.mul_1_r. reflexivity.
  - replace (ex - ez) with (Zpos d) by lia.
    rewrite (Pos.iter_swap_gen _ _ Zpos xO (Z.mul 2)) by reflexivity.
    change (Pos.iter (Z.mul 2) (Zpos mx) d) with (Z.shiftl (Zpos mx) (Zpos d)).
    apply Z.shiftl_mul_pow2. lia.
Qed.

Lemma shl_align_exponent (mx : positive) (ex ez : Z) :
  ez <= ex -> snd (shl_align mx ex ez) = ez.
Proof.
  intros H. unfold shl_align.
  destruct (ez - ex) as [|d|d] eqn:E; cbn [snd]; lia.
Qed.

(** Rounding an integer multiple of a power of two that is the value of a
    good float returns that float. *)
Lemma normalize_exact (x : float) (n c : Z) :
  good x -> 0 <= n -> -1074 <= c ->
  B2U x = n * 2 ^ (c + 1074) ->
  normalize n c false = x.
Proof.
  intros Hx Hn Hc H. unfold normalize, binary_normalize.
  destruct n as [|np|np]; [| |lia].
  - symmetry. apply good_zero; [assumption | lia].
  - destruct x as [s|s| |s m0 e0];
      try (cbn [B2U] in H; pose proof (pow2_pos (c + 1074)); lia).
    destruct (good_finite _ _ _ Hx) as (-> & Hb & He & _).
      cbn [B2U] in H.
      destruct (bounded_spec _ _ Hb) as [Hcan _].
      assert (Hmag := magnitude_eq m0 np (e0 + 1074) (c + 1074) ltac:(lia) ltac:(lia) H).
      unfold binary_round.
      replace (Zpos (digits2_pos np) + c) with (Zpos (digits2_pos m0) + e0) by lia.
      rewrite Hcan.
      destruct (Z.le_gt_cases e0 c) as [Hle|Hgt].
      * (* the mantissa is shifted left *)
        pose proof (shl_align_value np c e0 Hle) as Hv.
        pose proof (shl_align_exponent np c e0 Hle) as Hs.
        destruct (shl_align np c e0) as [mz ez]. cbn [fst snd] in Hv, Hs. subst ez.
        assert (Zpos mz = Zpos m0).
        { replace (c + 1074) with ((c - e0) + (e0 + 1074)) in H by lia.
          rewrite (Z.pow_add_r 2 (c - e0) (e0 + 1074)), Z.mul_assoc in H by lia.
          apply Z.mul_cancel_r in H; [|pose proof (pow2_pos (e0 + 1074)); lia].
          lia. }
        replace mz with m0 by congruence.
        generalize (binary_round_aux_exact false m0 e0 0 (Z.le_refl 0) Hb).
        rewrite Z.pow_0_r, Z.mul_1_r, Z.sub_0_r. auto.
      * (* the mantissa ends in zeros *)
        unfold shl_align. destruct (e0 - c) as [|d|d] eqn:E; try lia.
        assert (Zpos np = Zpos m0 * 2 ^ (e0 - c)).
        { replace (e0 + 1074) with ((e0 - c) + (c + 1074)) in H by lia.
          rewrite (Z.pow_add_r 2 (e0 - c) (c + 1074)), Z.mul_assoc in H by lia.
          apply Z.mul_cancel_r in H; [|pose proof (pow2_pos (c + 1074)); lia].
          lia. }
        replace c with (e0 - (e0 - c)) at 1 by lia.
        rewrite H0. apply binary_round_aux_exact; [lia | assumption].
Qed.

(** A whole number of units with at most 53 significant digits is the value
    of a good float. *)
Lemma good_exists (n j : Z) :
  0 <= n < 2 ^ 53 -> 0 <= j <= 2045 ->
  exists x, good x /\ B2U x = n * 2 ^ j.
Proof.
  intros Hn Hj.
  destruct n as [|np|np]; [| |lia].
  - exists (S754_zero false). split; [apply good_zero_false | reflexivity].
  - set (d := Zpos (digits2_pos np)).
    assert (Hd : 1 <= d <= 53).
    { unfold d. split; [lia|].
      destruct (Z.le_gt_cases d 53) as [|Hgt]; [assumption|].
      exfalso. pose proof (Zdigits_spec np) as [Hlo _]. fold d in Hlo.
      assert (2 ^ 53 <= 2 ^ (d - 1)) by (apply Z.pow_le_mono_r; lia). lia. }
    set (c := j - 1074).
    set (e0 := fexp prec emax (d + c)).
    assert (He0 : -1074 <= e0 <= c /\ e0 <= 971 /\ d + c - 53 <= e0)
      by (unfold e0, fexp, emin, prec, emax, c; lia).
    assert (Hpos : 0 < Zpos np * 2 ^ (c - e0))
      by (apply Z.mul_pos_pos; [lia | apply pow2_pos; lia]).
    destruct (Zpos np * 2 ^ (c - e0)) as [|m0|m0] eqn:Em; try lia.
    exists (S754_finite false m0 e0). split; [split; [|reflexivity]|].
    + cbn [valid_binary]. unfold bounded, canonical_mantissa.
      apply andb_true_iff. split; [apply Z.eqb_eq | apply Z.leb_le; unfold emax, prec; lia].
      assert (Zpos (digits2_pos m0) = d + (c - e0)).
      { change (Zpos (digits2_pos m0)) with (Zdigits2 (Zpos m0)).
        rewrite <- Em, Zdigits_shift by lia. reflexivity. }
      replace (Zpos (digits2_pos m0) + e0) with (d + c) by lia. reflexivity.
    + cbn [B2U]. rewrite <- Em, <- Z.mul_assoc, <- Z.pow_add_r by lia.
      f_equal. f_equal. unfold c. lia.
Qed.

(** A difference of good floats that is the value of a good float is
    computed exactly. *)
Lemma fsub_exact (x y z : float) :
  good x -> good y -> good z ->
  B2U z = B2U x - B2U y ->
  fsub x y = z.
Proof.
  intros Hx Hy Hz H. unfold fsub.
  destruct y as [sy|sy| |sy my ey].
  - (* y is zero *)
    assert (sy = false) by (destruct Hy as [_ Hs]; exact Hs). subst sy.
    cbn [B2U] in H. rewrite Z.sub_0_r in H.
    rewrite (good_unique z x Hz Hx H).
    destruct x as [sx|sx| |sx mx ex].
    + assert (sx = false) by (destruct Hx as [_ Hs]; exact Hs). subst sx. reflexivity.
    + destruct Hx as [_ []].
    + destruct Hx as [_ []].
    + reflexivity.
  - destruct Hy as [_ []].
  - destruct Hy as [_ []].
  - destruct (good_finite _ _ _ Hy) as (-> & Hby & Hey & Hpy).
    destruct x as [sx|sx| |sx mx ex].
    + exfalso. cbn [B2U] in H, Hpy. pose proof (B2U_nonneg z). cbn [B2U] in *. lia.
    + destruct Hx as [_ []].
    + destruct Hx as [_ []].
    + destruct (good_finite _ _ _ Hx) as (-> & Hbx & Hex & Hpx).
      cbn [SFsub cond_Zopp].
      set (ez := Z.min ex ey).
      rewrite !shl_align_value by (unfold ez; lia).
      apply normalize_exact; [assumption | | unfold ez; lia |].
      * (* the difference is not negative *)
        pose proof (B2U_nonneg z) as Hzn. rewrite H in Hzn. cbn [B2U] in Hzn.
        replace (ex + 1074) with ((ex - ez) + (ez + 1074)) in Hzn by lia.
        replace (ey + 1074) with ((ey - ez) + (ez + 1074)) in Hzn by lia.
        rewrite (Z.pow_add_r 2 (ex - ez)), (Z.pow_add_r 2 (ey - ez)) in Hzn
          by (unfold ez; lia).
        pose proof (pow2_pos (ez + 1074) ltac:(unfold ez; lia)).
        nia.
      * rewrite H. cbn [B2U].
        replace (ex + 1074) with ((ex - ez) + (ez + 1074)) by lia.
        replace (ey + 1074) with ((ey - ez) + (ez + 1074)) by lia.
        rewrite (Z.pow_add_r 2 (ex - ez)), (Z.pow_add_r 2 (ey - ez)) by (unfold ez; lia).
        ring.
Qed.

Lemma new_location_zero (n : Z) : new_location n 0 = loc_Exact.
Proof. unfold new_location. destruct (Z.even n); reflexivity. Qed.

(** A quotient of good floats that is the value of a good float is computed
    exactly.  Values are counted in units of [2^-1074], hence the factor [W]. *)
Lemma fdiv_exact (x y z : float) :
  good x -> good y -> good z ->
  0 < B2U y ->
  B2U x * W = B2U z * B2U y ->
  fdiv x y = z.
Proof.
  intros Hx Hy Hz Hpos H. unfold fdiv.
  destruct y as [sy|sy| |sy my ey]; try (cbn [B2U] in Hpos; lia).
  destruct (good_finite _ _ _ Hy) as (-> & Hby & Hey & _).
  destruct x as [sx|sx| |sx mx ex].
  - (* x is zero *)
    assert (sx = false) by (destruct Hx as [_ Hs]; exact Hs). subst sx.
    cbn [B2U] in H. cbn [SFdiv xorb].
    symmetry. apply good_zero; [assumption|].
    cbn [B2U] in Hpos. nia.
  - destruct Hx as [_ []].
  - destruct Hx as [_ []].
  - destruct (good_finite _ _ _ Hx) as (-> & Hbx & Hex & Hpx).
    destruct z as [sz|sz| |sz mz ez].
    + exfalso. cbn [B2U] in H, Hpx. unfold W in H.
      pose proof (pow2_pos 1074 ltac:(lia)). nia.
    + destruct Hz as [_ []].
    + destruct Hz as [_ []].
    + destruct (good_finite _ _ _ Hz) as (-> & Hbz & Hez & _).
      destruct (bounded_spec _ _ Hbz) as [Hcz _].
      cbn [B2U] in H. unfold W in H.
      cbn [SFdiv xorb]. unfold SFdiv_core_binary.
      cbn [Zdigits2].
      set (d1 := Zpos (digits2_pos mx)). set (d2 := Zpos (digits2_pos my)).
      set (e' := Z.min (fexp prec emax (d1 + ex - (d2 + ey))) (ex - ey)).
      (* the value equation, with all exponents shifted to be positive *)
      assert (Heq : Zpos mx * 2 ^ (ex + 4000) = Zpos mz * Zpos my * 2 ^ (ez + ey + 4000)).
      { replace (ex + 4000) with ((ex + 1074) + 1074 + 1852) by lia.
        replace (ez + ey + 4000) with ((ez + 1074) + (ey + 1074) + 1852) by lia.
        rewrite (Z.pow_add_r 2 (ex + 1074 + 1074)), (Z.pow_add_r 2 (ex + 1074)) by lia.
        rewrite (Z.pow_add_r 2 (ez + 1074 + (ey + 1074))), (Z.pow_add_r 2 (ez + 1074)) by lia.
        set (pa := 2 ^ (ex + 1074)) in *. set (pb := 2 ^ 1074) in *.
        set (pc := 2 ^ 1852). set (pd := 2 ^ (ez + 1074)) in *.
        set (pe := 2 ^ (ey + 1074)) in *. clearbody pa pb pc pd pe.
        transitivity (Zpos mx * pa * pb * pc); [ring|].
        rewrite H. ring. }
      (* the magnitude of the quotient *)
      assert (Hmag : d1 + ex - (d2 + ey) <= Zpos (digits2_pos mz) + ez).
      { pose proof (Zdigits_spec mx) as [Hlo _]. fold d1 in Hlo.
        pose proof (Zdigits_spec my) as [_ Hhi2]. fold d2 in Hhi2.
        pose proof (Zdigits_spec mz) as [_ Hhiz].
        set (dz := Zpos (digits2_pos mz)) in *.
        destruct (Z.le_gt_cases (d1 + ex - (d2 + ey)) (dz + ez)) as [|Hgt]; [assumption|].
        exfalso.
        assert (H1 : 2 ^ (d1 - 1 + (ex + 4000)) <= Zpos mx * 2 ^ (ex + 4000)).
        { rewrite Z.pow_add_r by (unfold d1; lia).
          apply Z.mul_le_mono_nonneg_r; [pose proof (pow2_pos (ex + 4000)); lia | assumption]. }
        assert (H2 : Zpos mz * Zpos my * 2 ^ (ez + ey + 4000)
                     < 2 ^ (dz + d2 + (ez + ey + 4000))).
        { rewrite (Z.pow_add_r 2 (dz + d2)) by (unfold dz, d2; lia).
          apply Z.mul_lt_mono_pos_r; [apply pow2_pos; lia|].
          rewrite Z.pow_add_r by (unfold dz, d2; lia).
          apply Z.mul_lt_mono_nonneg; lia. }
        assert (2 ^ (dz + d2 + (ez + ey + 4000)) <= 2 ^ (d1 - 1 + (ex + 4000)))
          by (apply Z.pow_le_mono_r; lia).
        lia. }
      assert (He' : e' <= ez /\ e' <= ex - ey /\ -2045 <= e').
      { pose proof (fexp_mono _ _ Hmag) as Hm. rewrite Hcz in Hm.
        unfold e', fexp, emin, prec, emax in *. lia. }
      destruct He' as (He1 & He2 & He3).
      assert (Hval : Zpos mx * 2 ^ (ex - ey - e') = Zpos mz * 2 ^ (ez - e') * Zpos my).
      { apply (Z.mul_cancel_r _ _ (2 ^ (ey + e' + 4000)));
          [pose proof (pow2_pos (ey + e' + 4000)); lia|].
        rewrite <- !Z.mul_assoc, <- Z.pow_add_r by lia.
        replace (ex - ey - e' + (ey + e' + 4000)) with (ex + 4000) by lia.
        rewrite Heq.
        replace (ez + ey + 4000) with ((ez - e') + (ey + e' + 4000)) by lia.
        rewrite Z.pow_add_r by lia. ring. }
      assert (Hm' : match ex - ey - e' with
                    | Z.pos _ => Z.shiftl (Z.pos mx) (ex - ey - e')
                    | 0 => Z.pos mx
                    | Z.neg _ => 0
                    end = Zpos mz * 2 ^ (ez - e') * Zpos my).
      { rewrite <- Hval.
        destruct (ex - ey - e') as [|p|p] eqn:Esh; try lia.
        apply Z.shiftl_mul_pow2. lia. }
      rewrite Hm'.
      pose proof (Z.div_mul (Zpos mz * 2 ^ (ez - e')) (Zpos my) ltac:(lia)) as Hq.
      pose proof (Z.mod_mul (Zpos mz * 2 ^ (ez - e')) (Zpos my) ltac:(lia)) as Hr.
      unfold Z.div, Z.modulo in Hq, Hr.
      destruct (Z.div_eucl (Zpos mz * 2 ^ (ez - e') * Zpos my) (Zpos my)) as [q r].
      subst q r. rewrite new_location_zero.
      replace e' with (ez - (ez - e')) at 2 by lia.
      apply binary_round_aux_exact; [lia | assumption].
Qed.

(** [fmod] of good floats is a good float, the exact remainder. *)
Lemma fmod_spec (x y : float) :
  good x -> good y -> 0 < B2U y ->
  good (fmod x y) /\ B2U (fmod x y) = B2U x mod B2U y.
Proof.
  intros Hx Hy Hpos.
  destruct y as [sy|sy| |sy my ey]; try (cbn [B2U] in Hpos; lia).
  destruct (good_finite _ _ _ Hy) as (-> & Hby & Hey & _).
  destruct x as [sx|sx| |sx mx ex].
  - assert (sx = false) by (destruct Hx as [_ Hs]; exact Hs). subst sx.
    cbn [fmod B2U]. split; [apply good_zero_false|].
    rewrite Z.mod_0_l; [reflexivity | cbn [B2U] in Hpos; lia].
  - destruct Hx as [_ []].
  - destruct Hx as [_ []].
  - destruct (good_finite _ _ _ Hx) as (-> & Hbx & Hex & _).
    cbn [fmod cond_Zopp B2U].
    set (e := Z.min ex ey).
    set (a := Zpos mx * 2 ^ (ex - e)). set (b := Zpos my * 2 ^ (ey - e)).
    assert (Hb : 0 < b)
      by (apply Z.mul_pos_pos; [lia | apply pow2_pos; unfold e; lia]).
    assert (Ha : 0 <= a)
      by (apply Z.mul_nonneg_nonneg; [lia | apply Z.pow_nonneg; lia]).
    assert (Hr : 0 <= a mod b < 2 ^ 53).
    { pose proof (Z.mod_pos_bound a b Hb) as [Hr0 Hrb].
      split; [assumption|].
      destruct (Z.le_ge_cases ex ey) as [Hle|Hge].
      - (* e = ex: the remainder is at most [mx] *)
        assert (a = Zpos mx).
        { unfold a, e. rewrite Z.min_l by assumption.
          rewrite Z.sub_diag, Z.pow_0_r. lia. }
        pose proof (Z.mod_le a b Ha Hb).
        pose proof (bounded_mantissa _ _ Hbx). lia.
      - (* e = ey: the remainder is less than [my] *)
        assert (b = Zpos my).
        { unfold b, e. rewrite Z.min_r by assumption.
          rewrite Z.sub_diag, Z.pow_0_r. lia. }
        pose proof (bounded_mantissa _ _ Hby). lia. }
    assert (Hval : (a mod b) * 2 ^ (e + 1074)
                   = (Zpos mx * 2 ^ (ex + 1074)) mod (Zpos my * 2 ^ (ey + 1074))).
    { rewrite <- Z.mul_mod_distr_r by (pose proof (pow2_pos (e + 1074)); unfold e in *; lia).
      unfold a, b. rewrite <- !Z.mul_assoc, <- !Z.pow_add_r by (unfold e; lia).
      replace (ex - e + (e + 1074)) with (ex + 1074) by lia.
      replace (ey - e + (e + 1074)) with (ey + 1074) by lia.
      reflexivity. }
    destruct (good_exists (a mod b) (e + 1074) Hr ltac:(unfold e; lia)) as (z & Hz & Hzv).
    rewrite (normalize_exact z (a mod b) e Hz (proj1 Hr) ltac:(unfold e; lia) Hzv).
    split; [exact Hz|]. rewrite Hzv. exact Hval.
Qed.

(** [int(x)] of a good float: the whole units in its value. *)
Lemma int_of_float_good (x : float) : good x -> int_of_float x = Ok (B2U x / W).
Proof.
  intros Hx. destruct x as [s|s| |s m e].
  - reflexivity.
  - destruct Hx as [_ []].
  - destruct Hx as [_ []].
  - destruct (good_finite _ _ _ Hx) as (-> & _ & He & _).
    cbn [int_of_float cond_Zopp B2U]. unfold W. f_equal.
    destruct (Z.leb_spec 0 e).
    + rewrite Z.pow_add_r, Z.mul_assoc by lia.
      rewrite Z.div_mul; [reflexivity | pose proof (pow2_pos 1074); lia].
    + replace 1074 with ((e + 1074) + (- e)) at 2 by lia.
      rewrite (Z.pow_add_r 2 (e + 1074)) by lia.
      rewrite (Z.mul_comm (Zpos m)).
      rewrite Z.div_mul_cancel_l;
        [reflexivity | pose proof (pow2_pos (- e)); lia | pose proof (pow2_pos (e + 1074)); lia].
Qed.

Lemma floorZ_good (x : float) : good x -> floorZ x = B2U x / W.
Proof.
  intros Hx. pose proof (int_of_float_good x Hx) as H.
  destruct x as [s|s| |s m e]; try (destruct Hx as [_ []]; fail).
  - reflexivity.
  - destruct (good_finite _ _ _ Hx) as (-> & _ & He & _).
    cbn [int_of_float floorZ cond_Zopp] in *.
    destruct (0 <=? e); congruence.
Qed.

(** [floor] of a good float that is a whole number is that float. *)
Lemma ffloor_whole (x : float) (n : Z) : good x -> B2U x = n * W -> ffloor x = x.
Proof.
  intros Hx Hn. destruct x as [s|s| |s m e]; try reflexivity.
  destruct (good_finite _ _ _ Hx) as (-> & _ & He & Hp).
  cbn [ffloor cond_Zopp].
  destruct (Z.leb_spec 0 e) as [|Hlt]; [reflexivity|].
  apply normalize_exact; [assumption | | lia |].
  - apply Z.div_pos; [lia | apply pow2_pos; lia].
  - pose proof (int_of_float_good _ Hx) as Hi.
    cbn [int_of_float cond_Zopp] in Hi.
    replace (0 <=? e) with false in Hi by (symmetry; apply Z.leb_gt; lia).
    assert (Hq : Zpos m / 2 ^ (- e) = B2U (S754_finite false m e) / W) by congruence.
    rewrite Hq, Hn.
    rewrite Z.div_mul by (unfold W; pose proof (pow2_pos 1074); lia).
    reflexivity.
Qed.

Lemma fltb_good_zero (x : float) : good x -> fltb x fzero = false.
Proof.
  intros Hx. destruct x as [s|s| |s m e]; try (destruct Hx as [_ []]; fail).
  - destruct s; reflexivity.
  - destruct (good_finite _ _ _ Hx) as (-> & _). reflexivity.
Qed.

Lemma nonzero_good (x : float) : good x -> nonzero x = false -> x = S754_zero false.
Proof.
  intros Hx Hn. destruct x as [s|s| |s m e]; try discriminate Hn.
  f_equal. destruct Hx as [_ Hs]. exact Hs.
Qed.

(** The sign of a rounded result is the sign that was asked for. *)
Lemma signbit_round (mz ez : Z) (lz : location) :
  signbit (binary_round_aux prec emax false mz ez lz) = false.
Proof.
  unfold binary_round_aux.
  destruct (shr_fexp prec emax mz ez lz) as [mrs' e'].
  destruct (shr_fexp prec emax _ e' loc_Exact) as [mrs'' e''].
  destruct (shr_m mrs''); try reflexivity.
  destruct (e'' <=? emax - prec); reflexivity.
Qed.

Lemma signbit_fdiv_good (x y : float) :
  good x -> good y -> 0 < B2U y -> signbit (fdiv x y) = false.
Proof.
  intros Hx Hy Hpos.
  destruct y as [sy|sy| |sy my ey]; try (cbn [B2U] in Hpos; lia).
  destruct (good_finite _ _ _ Hy) as (-> & _).
  destruct x as [sx|sx| |sx mx ex]; try (destruct Hx as [_ []]; fail).
  - assert (sx = false) by (destruct Hx as [_ Hs]; exact Hs). subst sx. reflexivity.
  - destruct (good_finite _ _ _ Hx) as (-> & _).
    unfold fdiv. cbn [SFdiv xorb].
    destruct (SFdiv_core_binary prec emax (Zpos mx) ex (Zpos my) ey) as [[mz ez] lz].
    apply signbit_round.
Qed.

Lemma feqb_good_zero (y : float) : good y -> 0 < B2U y -> feqb y fzero = false.
Proof.
  intros Hy Hpos.
  destruct y as [sy|sy| |sy my ey]; try (cbn [B2U] in Hpos; lia).
  destruct (good_finite _ _ _ Hy) as (-> & _). reflexivity.
Qed.

Lemma feqb_good_inf (x : float) : good x -> feqb x finf = false.
Proof.
  intros Hx. destruct x as [s|s| |s m e]; try (destruct Hx as [_ []]; fail).
  - reflexivity.
  - destruct (good_finite _ _ _ Hx) as (-> & _). reflexivity.
Qed.

Lemma W_pos : 0 < W.
Proof. unfold W. apply pow2_pos. lia. Qed.

(** [x // y] for good floats, [y] a whole number [k], when the multiple of
    [k] below [x] has at most 53 digits: the exact floor of the quotient. *)
Lemma float_floor_div_spec (x y : float) (k : Z) :
  good x -> good y -> 0 < k -> B2U y = k * W ->
  B2U x / B2U y * k < 2 ^ 53 ->
  exists q, float_floor_div x y = Ok q /\ good q /\ B2U q = B2U x / B2U y * W.
Proof.
  intros Hx Hy Hk HY Hsmall.
  pose proof W_pos as HW.
  assert (Hpos : 0 < B2U y) by (rewrite HY; nia).
  destruct (fmod_spec x y Hx Hy Hpos) as [Hgm Hvm].
  pose proof (B2U_nonneg x) as Hx0.
  set (X := B2U x) in *. set (Q := X / B2U y) in *.
  assert (HQ : 0 <= Q) by (apply Z.div_pos; lia).
  assert (Hdm : X = B2U y * Q + X mod B2U y) by (apply Z.div_mod; lia).
  destruct (good_exists (Q * k) 1074) as (t & Ht & Htv); [nia | lia |].
  destruct (good_exists Q 1074) as (dv & Hdv & Hdvv); [nia | lia |].
  fold W in Htv, Hdvv.
  assert (Esub : fsub x (fmod x y) = t).
  { apply fsub_exact; try assumption. rewrite Htv, Hvm. fold X.
    assert (B2U y * Q = Q * k * W) by (rewrite HY; ring). lia. }
  assert (Ediv : fdiv t y = dv).
  { apply fdiv_exact; try assumption. rewrite Htv, Hdvv, HY. ring. }
  unfold float_floor_div.
  rewrite (feqb_good_zero y Hy Hpos), Esub, Ediv.
  rewrite (fltb_good_zero y Hy), (fltb_good_zero _ Hgm).
  cbn [Bool.eqb negb]. rewrite andb_false_r.
  exists dv. split; [|split; assumption].
  destruct (nonzero dv) eqn:Hnz.
  - rewrite (ffloor_whole dv Q Hdv Hdvv).
    rewrite (fsub_exact dv dv (S754_zero false) Hdv Hdv good_zero_false)
      by (cbn [B2U]; lia).
    reflexivity.
  - rewrite (signbit_fdiv_good x y Hx Hy Hpos).
    rewrite (nonzero_good dv Hdv Hnz). reflexivity.
Qed.

(** [x % y] for good floats: the exact remainder. *)
Lemma float_rem_spec (x y : float) :
  good x -> good y -> 0 < B2U y ->
  exists r, float_rem x y = Ok r /\ good r /\ B2U r = B2U x mod B2U y.
Proof.
  intros Hx Hy Hpos.
  destruct (fmod_spec x y Hx Hy Hpos) as [Hgm Hvm].
  unfold float_rem. rewrite (feqb_good_zero y Hy Hpos).
  rewrite (fltb_good_zero y Hy), (fltb_good_zero _ Hgm).
  cbn [Bool.eqb negb].
  exists (fmod x y). split; [|split; assumption].
  destruct (nonzero (fmod x y)) eqn:Hnz; [reflexivity|].
  rewrite (nonzero_good _ Hgm Hnz).
  destruct y as [sy|sy| |sy my ey]; try (cbn [B2U] in Hpos; lia).
  destruct (good_finite _ _ _ Hy) as (-> & _). reflexivity.
Qed.

Lemma good_f3600 : good f3600 /\ B2U f3600 = 3600 * W.
Proof. split; [split; reflexivity | vm_compute; reflexivity]. Qed.

Lemma good_f60 : good f60 /\ B2U f60 = 60 * W.
Proof. split; [split; reflexivity | vm_compute; reflexivity]. Qed.

(** The arithmetic of the three fields, in units [w]. *)
Lemma fields_sum (X w : Z) :
  0 <= X -> 0 < w ->
  let Q := X / (3600 * w) in
  let K := (X mod (3600 * w)) / (60 * w) in
  let S := (X mod (60 * w)) / w in
  0 <= Q /\ 0 <= K < 60 /\ 0 <= S < 60 /\
  Q * 3600 + K * 60 + S = X / w.
Proof.
  intros HX Hw Q K S.
  assert (H36 : 0 < 3600 * w) by lia.
  assert (H60 : 0 < 60 * w) by lia.
  pose proof (Z.div_mod X (3600 * w) ltac:(lia)) as E1.
  pose proof (Z.mod_pos_bound X (3600 * w) H36) as B1.
  set (R1 := X mod (3600 * w)) in *. fold Q in E1.
  pose proof (Z.div_mod R1 (60 * w) ltac:(lia)) as E2.
  pose proof (Z.mod_pos_bound R1 (60 * w) H60) as B2.
  set (R2 := R1 mod (60 * w)) in *. fold K in E2.
  assert (HQ : 0 <= Q) by (apply Z.div_pos; lia).
  assert (HK : 0 <= K < 60).
  { split; [apply Z.div_pos; lia|]. apply Z.div_lt_upper_bound; lia. }
  assert (HXw : X = (Q * 3600 + K * 60) * w + R2) by lia.
  assert (HX60 : X mod (60 * w) = R2).
  { symmetry. apply (Z.mod_unique_pos X (60 * w) (60 * Q + K)); [assumption | lia]. }
  assert (HS : 0 <= S < 60).
  { unfold S. rewrite HX60. split; [apply Z.div_pos; lia|].
    apply Z.div_lt_upper_bound; lia. }
  repeat split; try lia.
  unfold S. rewrite HX60.
  rewrite HXw at 1. rewrite Z.div_add_l by lia. reflexivity.
Qed.

Lemma floordiv_float (x : float) (k : Z) (fk : float) :
  float_of_int k = Ok fk ->
  floordiv (PFloat x) (PInt k) = rbind (float_floor_div x fk) (fun r => Ok (PFloat r)).
Proof. intros H. unfold floordiv. cbn [as_float rbind]. rewrite H. reflexivity. Qed.

Lemma modulo_float (x : float) (k : Z) (fk : float) :
  float_of_int k = Ok fk ->
  modulo (PFloat x) (PInt k) = rbind (float_rem x fk) (fun r => Ok (PFloat r)).
Proof. intros H. unfold modulo. cbn [as_float rbind]. rewrite H. reflexivity. Qed.

Lemma float_of_int_3600 : float_of_int 3600 = Ok f3600.
Proof. reflexivity. Qed.

Lemma float_of_int_60 : float_of_int 60 = Ok f60.
Proof. reflexivity. Qed.

End Binary64Facts.

(** ** The time-code codec *)

Section CodecFacts.
Import PyStr PyNum TimeCodec.

Lemma double_nb_digits (d : Decimal.uint) :
  (Decimal.nb_digits (Decimal.Little.double d) <= S (Decimal.nb_digits d))%nat /\
  (Decimal.nb_digits (Decimal.Little.succ_double d) <= S (Decimal.nb_digits d))%nat.
Proof.
  induction d as [|d [IH1 IH2]|d [IH1 IH2]|d [IH1 IH2]|d [IH1 IH2]|d [IH1 IH2]
                  |d [IH1 IH2]|d [IH1 IH2]|d [IH1 IH2]|d [IH1 IH2]|d [IH1 IH2]];
    cbn [Decimal.Little.double Decimal.Little.succ_double Decimal.nb_digits]; lia.
Qed.

(** A number has no more decimal digits than binary ones. *)
Lemma nb_digits_to_uint (p : positive) :
  (Decimal.nb_digits (Pos.to_uint p) <= Pos.to_nat (digits2_pos p))%nat.
Proof.
  unfold Pos.to_uint. rewrite DecimalFacts.nb_digits_rev.
  induction p as [p IH|p IH|]; cbn [Pos.to_little_uint digits2_pos].
  - pose proof (proj2 (double_nb_digits (Pos.to_little_uint p))). lia.
  - pose proof (proj1 (double_nb_digits (Pos.to_little_uint p))). lia.
  - cbn. lia.
Qed.

Lemma nb_digits_below_pow2 (p : positive) (k : Z) :
  0 <= k -> Zpos p < 2 ^ k -> (Decimal.nb_digits (Pos.to_uint p) <= Z.to_nat k)%nat.
Proof.
  intros Hk Hp.
  pose proof (nb_digits_to_uint p) as Hn.
  assert (Zpos (digits2_pos p) <= k).
  { destruct (Z.le_gt_cases (Zpos (digits2_pos p)) k) as [|Hgt]; [assumption|].
    exfalso. pose proof (Zdigits_spec p) as [Hlo _].
    assert (2 ^ k <= 2 ^ (Zpos (digits2_pos p) - 1)) by (apply Z.pow_le_mono_r; lia).
    lia. }
  lia.
Qed.

(** *** Decimal text *)

Lemma digits_only_uint (u : Decimal.uint) :
  digits_only (NilEmpty.string_of_uint u) = true.
Proof. induction u; cbn [NilEmpty.string_of_uint digits_only]; try rewrite IHu; reflexivity. Qed.

Lemma digits_from_digit (acc : Z) (n : nat) (c : ascii) (s : string) (d : Z) :
  digit_of c = Some d ->
  digits_from acc n (String c s) = digits_from (10 * acc + d) (S n) s.
Proof. intros H. cbn [digits_from]. rewrite H. reflexivity. Qed.

Lemma digits_from_uint (u : Decimal.uint) (acc : Z) (n : nat) :
  digits_from acc n (NilEmpty.string_of_uint u)
  = (uint_value acc u, (n + Decimal.nb_digits u)%nat, EmptyString).
Proof.
  revert acc n.
  induction u; intros acc n; cbn [NilEmpty.string_of_uint uint_value Decimal.nb_digits];
    try (match goal with
         | |- digits_from _ _ (String ?c _) = _ =>
             let d := eval vm_compute in (digit_of c) in
             match d with
             | Some ?k => rewrite (digits_from_digit acc n c _ k eq_refl)
             end
         end; rewrite IHu; f_equal; f_equal; lia).
  cbn [digits_from]. f_equal. f_equal. lia.
Qed.

Lemma uint_value_acc (u : Decimal.uint) (acc : positive) :
  Zpos (Pos.of_uint_acc u acc) = uint_value (Zpos acc) u.
Proof.
  revert acc. induction u; intros acc; cbn [Pos.of_uint_acc uint_value];
    try (rewrite IHu; f_equal; lia).
  reflexivity.
Qed.

Lemma uint_value_of_uint (u : Decimal.uint) : Z.of_N (Pos.of_uint u) = uint_value 0 u.
Proof.
  induction u; cbn [Pos.of_uint uint_value];
    try (cbn [Z.of_N]; rewrite uint_value_acc; reflexivity).
  - reflexivity.
  - exact IHu.
Qed.

Lemma uint_value_to_uint (p : positive) : uint_value 0 (Pos.to_uint p) = Zpos p.
Proof. rewrite <- uint_value_of_uint, DecimalPos.Unsigned.of_to. reflexivity. Qed.

(** A number of [n] decimal digits is at least [10^(n-1)]. *)
Lemma uint_value_lower (u : Decimal.uint) (acc : Z) :
  0 <= acc -> acc * 10 ^ Z.of_nat (Decimal.nb_digits u) <= uint_value acc u.
Proof.
  revert acc. induction u; intros acc Hacc; cbn [uint_value Decimal.nb_digits];
    try (rewrite Nat2Z.inj_succ, Z.pow_succ_r by lia;
         match goal with
         | |- _ <= uint_value ?a _ =>
             specialize (IHu a ltac:(lia));
             pose proof (Z.pow_nonneg 10 (Z.of_nat (Decimal.nb_digits u)) ltac:(lia));
             nia
         end).
  cbn. lia.
Qed.

Lemma to_uint_normal (p : positive) : Decimal.unorm (Pos.to_uint p) = Pos.to_uint p.
Proof.
  pose proof (DecimalPos.Unsigned.to_of (Pos.to_uint p)) as H.
  rewrite DecimalPos.Unsigned.of_to in H. cbn [N.to_uint] in H. symmetry. exact H.
Qed.

Lemma pow10_le_pos (p : positive) :
  10 ^ (Z.of_nat (Decimal.nb_digits (Pos.to_uint p)) - 1) <= Zpos p.
Proof.
  rewrite <- (uint_value_to_uint p).
  pose proof (to_uint_normal p) as Hn.
  pose proof (DecimalPos.Unsigned.to_uint_nonzero p) as Hz.
  destruct (Pos.to_uint p) as [|u|u|u|u|u|u|u|u|u|u] eqn:E;
    cbn [uint_value Decimal.nb_digits];
    try (rewrite Nat2Z.inj_succ;
         replace (Z.succ (Z.of_nat (Decimal.nb_digits u)) - 1)
           with (Z.of_nat (Decimal.nb_digits u)) by lia;
         match goal with
         | |- _ <= uint_value ?a _ =>
             pose proof (uint_value_lower u a ltac:(lia));
             pose proof (Z.pow_nonneg 10 (Z.of_nat (Decimal.nb_digits u)) ltac:(lia));
             nia
         end).
  - cbn. lia.
  - exfalso. destruct u as [|v|v|v|v|v|v|v|v|v|v]; [apply Hz; reflexivity|..];
      (rewrite DecimalFacts.unorm_D0 in Hn;
       match type of Hn with
       | Decimal.unorm ?v = _ =>
           pose proof (DecimalFacts.nb_digits_unorm v ltac:(discriminate)) as Hl;
           rewrite Hn in Hl; cbn [Decimal.nb_digits] in Hl; lia
       end).
Qed.

Lemma nb_digits_below_pow10 (p : positive) (k : nat) :
  Zpos p < 10 ^ Z.of_nat k -> (Decimal.nb_digits (Pos.to_uint p) <= k)%nat.
Proof.
  intros Hp. pose proof (pow10_le_pos p) as Hlo.
  destruct (Nat.le_gt_cases (Decimal.nb_digits (Pos.to_uint p)) k) as [|Hgt]; [assumption|].
  exfalso.
  assert (10 ^ Z.of_nat k <= 10 ^ (Z.of_nat (Decimal.nb_digits (Pos.to_uint p)) - 1))
    by (apply Z.pow_le_mono_r; lia).
  lia.
Qed.

(** [str] accepts an int of at most 4300 decimal digits. *)
Lemma str_int_below (z : Z) : Z.abs z < 10 ^ 4300 -> str_int z = Ok (str_of_int z).
Proof.
  intros Hz. unfold str_int, int_digits.
  replace (max_str_digits <? Decimal.nb_digits (uint_of_Z (Z.abs z)))%nat with false;
    [reflexivity|].
  symmetry. apply Nat.ltb_ge. unfold max_str_digits.
  destruct z as [|p|p]; cbn [Z.abs uint_of_Z] in *.
  - cbn. lia.
  - apply (nb_digits_below_pow10 p 4300). exact Hz.
  - apply (nb_digits_below_pow10 p 4300). exact Hz.
Qed.

(** Hours below [2**4300] leave room for the minutes and seconds. *)
Lemma pow2_below_pow10 : 2 ^ 4300 * 3601 <= 10 ^ 4300.
Proof. apply Z.leb_le. vm_compute. reflexivity. Qed.

Lemma str_int_small (z : Z) : 0 <= z < 2 ^ 4300 * 3601 -> str_int z = Ok (str_of_int z).
Proof.
  intros Hz. apply str_int_below. pose proof pow2_below_pow10. lia.
Qed.

(** What [format_time] writes for a good float below [2**53]: the three
    fields of the whole seconds in it. *)
Lemma format_time_fields (x : float) :
  good x -> B2U x < 2 ^ 53 * W ->
  exists h m s,
    format_time (PFloat x)
    = Ok (str_of_int h ++ ":" ++ format_02d m ++ ":" ++ format_02d s) /\
    0 <= h < 2 ^ 53 /\ 0 <= m < 60 /\ 0 <= s < 60 /\
    h * 3600 + m * 60 + s = floorZ x.
Proof.
  intros Hx Hlt.
  pose proof W_pos as HW. pose proof (B2U_nonneg x) as Hx0.
  destruct good_f3600 as [G36 V36]. destruct good_f60 as [G60 V60].
  destruct (fields_sum (B2U x) W Hx0 HW) as (HQ & HK & HS & Hsum).
  set (Q := B2U x / (3600 * W)) in *.
  set (K := B2U x mod (3600 * W) / (60 * W)) in *.
  set (S := B2U x mod (60 * W) / W) in *.
  assert (HQ53 : Q * 3600 < 2 ^ 53).
  { pose proof (Z.mul_div_le (B2U x) (3600 * W) ltac:(lia)) as Hle. fold Q in Hle. nia. }
  (* hours *)
  destruct (float_floor_div_spec x f3600 3600 Hx G36 ltac:(lia) V36) as (q1 & E1 & Gq1 & Vq1);
    [rewrite V36; exact HQ53|].
  rewrite V36 in Vq1. fold Q in Vq1.
  (* the remainder of the hours, and the minutes in it *)
  destruct (float_rem_spec x f3600 Hx G36 ltac:(lia)) as (r1 & E2 & Gr1 & Vr1).
  rewrite V36 in Vr1.
  destruct (float_floor_div_spec r1 f60 60 Gr1 G60 ltac:(lia) V60) as (q2 & E3 & Gq2 & Vq2);
    [rewrite V60, Vr1; fold K; lia|].
  rewrite V60, Vr1 in Vq2. fold K in Vq2.
  (* seconds *)
  destruct (float_rem_spec x f60 Hx G60 ltac:(lia)) as (r2 & E4 & Gr2 & Vr2).
  rewrite V60 in Vr2.
  exists Q, K, S.
  split; [|split; [lia|split; [lia|split; [lia|]]]].
  - unfold format_time. cbn [is_negative is_inf].
    rewrite (fltb_good_zero x Hx), (feqb_good_inf x Hx). cbn [orb].
    rewrite (floordiv_float x 3600 f3600 float_of_int_3600), E1. cbn [rbind int_of_num].
    rewrite (int_of_float_good q1 Gq1), Vq1, Z.div_mul by lia. cbn [rbind].
    rewrite (modulo_float x 3600 f3600 float_of_int_3600), E2. cbn [rbind].
    rewrite (floordiv_float r1 60 f60 float_of_int_60), E3. cbn [rbind int_of_num].
    rewrite (int_of_float_good q2 Gq2), Vq2, Z.div_mul by lia. cbn [rbind].
    rewrite (modulo_float x 60 f60 float_of_int_60), E4. cbn [rbind int_of_num].
    rewrite (int_of_float_good r2 Gr2), Vr2. fold S. cbn [rbind].
    rewrite (str_int_small Q); [reflexivity|].
    assert (2 ^ 53 <= 2 ^ 4300) by (apply Z.pow_le_mono_r; lia). lia.
  - rewrite (floorZ_good x Hx). exact Hsum.
Qed.

(** *** Reading the text back *)

Lemma digit_char (c : ascii) :
  is_digit c = true ->
  is_blank c = false /\ Ascii.eqb ":" c = false /\
  forall s, sign_of (String c s) = (false, String c s).
Proof.
  destruct c as [[] [] [] [] [] [] [] []]; intros H;
    try discriminate H; repeat split.
Qed.

Lemma lskip_digits (s : string) : digits_only s = true -> lskip s = s.
Proof.
  destruct s as [|c s]; [reflexivity|]. cbn [digits_only lskip]. intros H.
  apply andb_true_iff in H as [Hc _].
  destruct (digit_char c Hc) as [-> _]. reflexivity.
Qed.

Lemma rskip_digits (s : string) : digits_only s = true -> rskip s = s.
Proof.
  induction s as [|c s IH]; [reflexivity|]. cbn [digits_only rskip]. intros H.
  apply andb_true_iff in H as [Hc Hs]. rewrite (IH Hs).
  destruct (digit_char c Hc) as [-> _]. destruct s; reflexivity.
Qed.

Lemma trim_digits (s : string) : digits_only s = true -> trim s = s.
Proof.
  intros H. unfold trim. rewrite (lskip_digits s H). apply rskip_digits, H.
Qed.

Lemma digits_cons (c : ascii) (s : string) (d : Z) :
  digit_of c = Some d -> digits (String c s) = Some (digits_from d 1 s).
Proof. intros H. cbn [digits]. rewrite H. reflexivity. Qed.

(** [int] reads back a run of at most 4300 digits. *)
Lemma int_of_string_uint (u : Decimal.uint) :
  u <> Decimal.Nil -> (Decimal.nb_digits u <= 4300)%nat ->
  int_of_string (NilEmpty.string_of_uint u) = Ok (uint_value 0 u).
Proof.
  intros Hu Hn. unfold int_of_string.
  rewrite (trim_digits _ (digits_only_uint u)).
  destruct u; [congruence|..];
    cbn [NilEmpty.string_of_uint Decimal.nb_digits] in *;
    (match goal with
     | |- context [sign_of (String ?c ?r)] =>
         rewrite (proj2 (proj2 (digit_char c eq_refl)) r);
         let d := eval vm_compute in (digit_of c) in
         match d with
         | Some ?k => rewrite (digits_cons c r k eq_refl)
         end
     end;
     rewrite digits_from_uint;
     replace (max_str_digits <? 1 + Decimal.nb_digits u)%nat with false
       by (symmetry; apply Nat.ltb_ge; unfold max_str_digits; lia);
     reflexivity).
Qed.

Lemma uint_of_Z_spec (z : Z) :
  0 <= z < 2 ^ 53 ->
  uint_of_Z z <> Decimal.Nil /\
  (Decimal.nb_digits (uint_of_Z z) <= 53)%nat /\
  uint_value 0 (uint_of_Z z) = z /\
  str_of_int z = NilEmpty.string_of_uint (uint_of_Z z).
Proof.
  intros Hz. destruct z as [|p|p]; [| |lia].
  - cbn. repeat split; [discriminate | lia].
  - cbn [uint_of_Z str_of_int].
    split; [apply DecimalPos.Unsigned.to_uint_nonnil|].
    split; [|split; [apply uint_value_to_uint | reflexivity]].
    pose proof (nb_digits_to_uint p).
    assert (Zpos (digits2_pos p) <= 53).
    { destruct (Z.le_gt_cases (Zpos (digits2_pos p)) 53) as [|Hgt]; [assumption|].
      exfalso. pose proof (Zdigits_spec p) as [Hlo _].
      assert (2 ^ 53 <= 2 ^ (Zpos (digits2_pos p) - 1)) by (apply Z.pow_le_mono_r; lia).
      lia. }
    lia.
Qed.

Lemma int_of_string_str (z : Z) :
  0 <= z < 2 ^ 53 ->
  int_of_string (str_of_int z) = Ok z /\ digits_only (str_of_int z) = true.
Proof.
  intros Hz. destruct (uint_of_Z_spec z Hz) as (Hnil & Hnb & Hval & ->).
  split; [|apply digits_only_uint].
  rewrite int_of_string_uint by (assumption || lia). rewrite Hval. reflexivity.
Qed.

Lemma int_of_string_02d (z : Z) :
  0 <= z < 2 ^ 53 ->
  int_of_string (format_02d z) = Ok z /\ digits_only (format_02d z) = true.
Proof.
  intros Hz. unfold format_02d.
  destruct ((0 <=? z) && (z <? 10)); [|apply int_of_string_str, Hz].
  destruct (uint_of_Z_spec z Hz) as (Hnil & Hnb & Hval & ->).
  change ("0" ++ NilEmpty.string_of_uint (uint_of_Z z))
    with (NilEmpty.string_of_uint (Decimal.D0 (uint_of_Z z))).
  split; [|apply digits_only_uint].
  rewrite int_of_string_uint; [|discriminate|cbn [Decimal.nb_digits]; lia].
  cbn [uint_value]. rewrite <- Hval at 2. reflexivity.
Qed.

(** *** Splitting at the colons *)

Lemma split_field (a rest : string) :
  digits_only a = true ->
  split_from ":" (a ++ String ":" rest) 0 = a :: split_from ":" rest 0.
Proof.
  induction a as [|c a IH]; intros H.
  - reflexivity.
  - cbn [digits_only] in H. apply andb_true_iff in H as [Hc Ha].
    destruct (digit_char c Hc) as (_ & Hcolon & _).
    cbn [append split_from startswith]. rewrite Hcolon. cbn [andb].
    rewrite (IH Ha). reflexivity.
Qed.

Lemma split_last (a : string) :
  digits_only a = true -> split_from ":" a 0 = [a].
Proof.
  induction a as [|c a IH]; intros H.
  - reflexivity.
  - cbn [digits_only] in H. apply andb_true_iff in H as [Hc Ha].
    destruct (digit_char c Hc) as (_ & Hcolon & _).
    cbn [split_from startswith]. rewrite Hcolon. cbn [andb].
    rewrite (IH Ha). reflexivity.
Qed.

(** [parse_time] reads back three fields written in decimal. *)
Lemma parse_time_fields (h m s : Z) :
  0 <= h < 2 ^ 53 -> 0 <= m < 60 -> 0 <= s < 60 ->
  parse_time (str_of_int h ++ ":" ++ format_02d m ++ ":" ++ format_02d s)
  = PInt (h * 3600 + m * 60 + s).
Proof.
  intros Hh Hm Hs.
  destruct (int_of_string_str h Hh) as [Ih Dh].
  destruct (int_of_string_02d m ltac:(lia)) as [Im Dm].
  destruct (int_of_string_02d s ltac:(lia)) as [Is Ds].
  unfold parse_time, parse_time_try, split.
  change (str_of_int h ++ ":" ++ format_02d m ++ ":" ++ format_02d s)
    with (str_of_int h ++ String ":" (format_02d m ++ String ":" (format_02d s))).
  rewrite (split_field _ _ Dh), (split_field _ _ Dm), (split_last _ Ds).
  rewrite Ih, Im, Is. reflexivity.
Qed.

(** A float of the format that is at least 0 and below [2**53] is [-0.0] or
    a good float of fewer than [2**53] units. *)
Lemma below_two53 (x : float) :
  valid_binary prec emax x = true ->
  fleb fzero x = true ->
  fltb x two53 = true ->
  x = S754_zero true \/ (good x /\ B2U x < 2 ^ 53 * W).
Proof.
  intros Hv Hle Hlt.
  destruct x as [s|s| |s m e].
  - destruct s; [left; reflexivity|right].
    split; [apply good_zero_false|].
    pose proof W_pos as HW. cbn [B2U]. lia.
  - destruct s; [discriminate Hle | discriminate Hlt].
  - discriminate Hle.
  - destruct s; [discriminate Hle|]. right.
    assert (Hg : good (S754_finite false m e)) by (split; [exact Hv | reflexivity]).
    split; [exact Hg|].
    cbn [valid_binary] in Hv.
    destruct (bounded_spec _ _ Hv) as [Hc He].
    pose proof (bounded_mantissa _ _ Hv) as Hm.
    assert (He0 : e <= 0).
    { unfold fltb, SFltb, two53 in Hlt. cbn [SFcompare] in Hlt.
      destruct (Z.compare_spec e 1) as [He1|He1|He1]; [|lia|discriminate Hlt].
      exfalso. subst e.
      rewrite Pos.compare_cont_spec in Hlt. cbn [Pos.switch_Eq] in Hlt.
      destruct (Pos.compare_spec m 4503599627370496) as [Hm1|Hm1|Hm1];
        try discriminate Hlt.
      apply Pos2Z.pos_lt_pos in Hm1.
      unfold fexp, emin, prec, emax in Hc.
      assert (Hd : Zpos (digits2_pos m) = 53) by lia.
      pose proof (Zdigits_spec m) as [Hlo _]. rewrite Hd in Hlo.
      change (2 ^ (53 - 1)) with 4503599627370496 in Hlo. lia. }
    cbn [B2U].
    assert (HT : 2 ^ (e + 1074) <= W) by (unfold W; apply Z.pow_le_mono_r; lia).
    pose proof (pow2_pos (e + 1074) ltac:(lia)) as HT0.
    pose proof W_pos as HW.
    generalize dependent (2 ^ (e + 1074)). intros T HT HT0.
    apply Z.le_lt_trans with (Zpos m * W);
      [apply Z.mul_le_mono_nonneg_l; lia | apply Z.mul_lt_mono_pos_r; lia].
Qed.

(** C3, as the code has it.  (1) For every float [x] of the format with
    [0 <= x < 2**53], [format_time] returns a text and [parse_time] of that
    text is the integer [floor(x)].  (2) For every negative number and for
    both infinities, [format_time] returns ["00:00:00"]. *)
Theorem time_round_trip_below_two53 :
  (forall x : float,
     valid_binary prec emax x = true ->
     fleb fzero x = true ->
     fltb x two53 = true ->
     exists text,
       format_time (PFloat x) = Ok text /\ parse_time text = PInt (floorZ x)) /\
  (forall n : pynum,
     is_negative n = true \/ (exists s, n = PFloat (S754_infinity s)) ->
     format_time n = Ok "00:00:00").
Proof.
  split.
  - intros x Hv Hle Hlt.
    destruct (below_two53 x Hv Hle Hlt) as [->|[Hg Hb]].
    + exists "0:00:00". split; vm_compute; reflexivity.
    + destruct (format_time_fields x Hg Hb) as (h & m & s & E & Hh & Hm & Hs & Hsum).
      eexists. split; [exact E|].
      rewrite (parse_time_fields h m s Hh Hm Hs), Hsum. reflexivity.
  - intros n [Hn|[s ->]]; unfold format_time.
    + rewrite Hn. reflexivity.
    + destruct s; vm_compute; reflexivity.
Qed.

End CodecFacts.

(** ** The code at concrete inputs *)

Section Instances.
Import PyStr PyNum TimeCodec Mpv Services Ssdp Samples.

(** C2, as the specification has it, fails on the URI: a URI is set, played
    and stopped, with an engine that acknowledges every command.  [Stop]
    returns normally and the player is [STOPPED] with no URL, but the
    transport service still holds the URI and [GetMediaInfo] reports it. *)
Lemma stop_leaves_the_transport_uri :
  let uri := "http://media.local/a.mp3" in
  let s1 := snd (handle_action engine_ok Transport "SetAVTransportURI"
                   [("CurrentURI", uri)] (new_server 50)) in
  let s2 := snd (handle_action engine_ok Transport "Play" [] s1) in
  let s3 := snd (handle_action engine_ok Transport "Stop" [] s2) in
  current_state (player s2) = PLAYING /\
  fst (handle_action engine_ok Transport "Stop" [] s2) = Ok [] /\
  current_state (player s3) = STOPPED /\
  current_url (player s3) = None /\
  current_uri (av_transport_service s3) = uri /\
  current_uri (av_transport_service s3) <> "" /\
  fst (handle_action engine_ok Transport "GetMediaInfo" [] s3)
  = Ok [ ("NrTracks", "1");
         ("MediaDuration", "0:00:00");
         ("CurrentURI", uri);
         ("CurrentURIMetaData", "");
         ("NextURI", "");
         ("NextURIMetaData", "");
         ("PlayMedium", "NETWORK");
         ("RecordMedium", "NOT_IMPLEMENTED");
         ("WriteStatus", "NOT_IMPLEMENTED") ].
Proof.
  cbv zeta. repeat split; try reflexivity. discriminate.
Qed.

Lemma play_without_uri_faults_witness :
  current_uri (av_transport_service (new_server 50)) = "" /\
  handle_action engine_ok Transport "Play" [] (new_server 50)
    = (Raise (ValueError "No URI set"), new_server 50) /\
  do_POST engine_ok "/AVTransport/control"
    (Some {| action := "Play"; service_type := AV_SERVICE_TYPE; args := [] |})
    (new_server 50)
    = (SoapError 501 "No URI set", new_server 50).
Proof.
  split; [reflexivity|].
  apply (play_without_uri_faults engine_ok (new_server 50) []
           "/AVTransport/control" AV_SERVICE_TYPE); reflexivity.
Defined.

Lemma set_volume_action_clamps_witness :
  int_of_string (args_get [("DesiredVolume", "150")] "DesiredVolume" "50") = Ok 150 /\
  wire (player (snd (handle_action engine_ok Rendering "SetVolume"
                       [("DesiredVolume", "150")] (new_server 50))))
  = [ {| command := [JStr "set_property"; JStr "volume"; JInt 100]; req_id := 1 |} ] /\
  0 <= current_volume (player (snd (handle_action engine_ok Rendering "SetVolume"
                                      [("DesiredVolume", "150")] (new_server 50)))) <= 100.
Proof.
  split; [reflexivity|].
  destruct (set_volume_action_clamps engine_ok (new_server 50)
              [("DesiredVolume", "150")] 150 eq_refl) as (_ & _ & Hinv).
  split; [reflexivity|].
  apply Hinv. simpl. lia.
Defined.

Lemma accepts_engine_ok (n : nat) : accepts (engine_ok n).
Proof.
  split; [reflexivity|]. eexists. split; reflexivity.
Defined.

Lemma mute_then_unmute_restores_clamped_witness :
  exists s1 s2,
    handle_action engine_ok Rendering "SetMute" [("DesiredMute", "1")] (new_server 50)
      = (Ok [], s1) /\
    handle_action engine_ok Rendering "SetMute" [("DesiredMute", "0")] s1 = (Ok [], s2) /\
    current_volume (player s1) = 0 /\
    muted (rendering_control_service s1) = true /\
    current_volume (player s2) = Z.max 0 (Z.min 100 50) /\
    (current_volume (player s2) = 50 <-> 0 <= 50 <= 100) /\
    muted (rendering_control_service s2) = false /\
    wire (player s2) =
      (wire (player s1) ++
       [ {| command := [JStr "set_property"; JStr "volume";
                        JInt (Z.max 0 (Z.min 100 50))];
            req_id := request_id (player s1) + 1 |} ])%list.
Proof.
  apply (proj1 (mute_then_unmute_restores_clamped engine_ok (new_server 50))
           [("DesiredMute", "1")] [("DesiredMute", "0")] 50);
    try reflexivity; apply accepts_engine_ok.
Defined.

(** A session whose volume is 120 (a [default_volume] of 120 in the
    configuration) comes back from a mute at 100, every command acknowledged;
    a session at 50 whose engine is lost after the mute stays at 0. *)
Lemma mute_then_unmute_loses_volume :
  (exists s1 s2,
     fst (get_volume engine_ok (player (new_server 120))) = Ok 120 /\
     handle_action engine_ok Rendering "SetMute" [("DesiredMute", "1")] (new_server 120)
       = (Ok [], s1) /\
     handle_action engine_ok Rendering "SetMute" [("DesiredMute", "0")] s1 = (Ok [], s2) /\
     current_volume (player s2) = 100) /\
  (exists s1 s2,
     fst (get_volume (engine_until 2) (player (new_server 50))) = Ok 50 /\
     handle_action (engine_until 2) Rendering "SetMute" [("DesiredMute", "1")]
       (new_server 50) = (Ok [], s1) /\
     handle_action (engine_until 2) Rendering "SetMute" [("DesiredMute", "0")] s1
       = (Ok [], s2) /\
     current_volume (player s2) = 0).
Proof.
  split; eexists _, _;
    (split; [vm_compute; reflexivity|]);
    (split; [vm_compute; reflexivity|]);
    (split; [vm_compute; reflexivity|]); vm_compute; reflexivity.
Qed.

Lemma unknown_action_faults_501_witness :
  do_POST engine_ok "/RenderingControl/control"
    (Some {| action := "Rewind"; service_type := RC_SERVICE_TYPE; args := [] |})
    (new_server 50)
  = (SoapError 501 "Unknown action: Rewind", new_server 50).
Proof.
  apply (proj1 (unknown_action_faults_501 engine_ok Rendering
                  "/RenderingControl/control" (new_server 50) eq_refl)
           {| action := "Rewind"; service_type := RC_SERVICE_TYPE; args := [] |}).
  simpl. intros H. repeat (destruct H as [H|H]; [discriminate H|]). exact H.
Defined.

(** Against C1 as stated: an action outside the closed set of the transport
    service is answered with code 501, not 401. *)
Lemma unknown_action_is_not_401 :
  fst (do_POST engine_ok "/AVTransport/control"
         (Some {| action := "Rewind"; service_type := AV_SERVICE_TYPE; args := [] |})
         (new_server 50))
  = SoapError 501 "Unknown action: Rewind" /\
  ~ In "Rewind" (actions engine_ok Transport) /\
  forall d, fst (do_POST engine_ok "/AVTransport/control"
                   (Some {| action := "Rewind"; service_type := AV_SERVICE_TYPE; args := [] |})
                   (new_server 50))
            <> SoapError 401 d.
Proof.
  split; [reflexivity|]. split.
  - simpl. intros H. repeat (destruct H as [H|H]; [discriminate H|]). exact H.
  - intros d H. discriminate H.
Qed.

Lemma msearch_reply_witness :
  exists text,
    _listen_step sample_device sample_search ("192.168.1.7", 50000)
      = Ok [ {| payload := text; dest := ("192.168.1.7", 50000) |} ] /\
    contains ("ST: " ++ "urn:schemas-upnp-org:service:RenderingControl:1" ++ crlf) text = true /\
    contains ("LOCATION: " ++ location_url sample_device ++ crlf) text = true /\
    contains ("CACHE-CONTROL: max-age=1800" ++ crlf) text = true.
Proof.
  apply (proj1 (proj1 (msearch_reply sample_device sample_search ("192.168.1.7", 50000)
                         eq_refl)
                  [ "M-SEARCH * HTTP/1.1"; "HOST: 239.255.255.250:1900";
                    "MAN: ssdp:discover"; "MX: 3" ]
                  "ST: urn:schemas-upnp-org:service:RenderingControl:1"
                  [ ""; "" ]
                  eq_refl
                  ltac:(repeat constructor)
                  eq_refl)).
  simpl. tauto.
Defined.

Lemma time_round_trip_below_two53_witness :
  float_of_string "3665.75" = Ok f3665_75 /\
  format_time (PFloat f3665_75) = Ok "1:01:05" /\
  parse_time "1:01:05" = PInt 3665 /\
  exists text,
    format_time (PFloat f3665_75) = Ok text /\ parse_time text = PInt (floorZ f3665_75).
Proof.
  split; [vm_compute; reflexivity|].
  split; [vm_compute; reflexivity|].
  split; [vm_compute; reflexivity|].
  apply (proj1 time_round_trip_below_two53 f3665_75); reflexivity.
Defined.

(** Against C3 as stated: at the finite float 1e20 the round trip returns
    99999999999999996400, which is not [floor(1e20)]. *)
Lemma time_round_trip_fails_at_1e20 :
  float_of_string "1e20" = Ok f1e20 /\
  valid_binary prec emax f1e20 = true /\
  fleb fzero f1e20 = true /\
  floorZ f1e20 = 100000000000000000000 /\
  format_time (PFloat f1e20) = Ok "27777777777777776:46:40" /\
  parse_time "27777777777777776:46:40" = PInt 99999999999999996400 /\
  PInt 99999999999999996400 <> PInt (floorZ f1e20).
Proof.
  repeat split; try (vm_compute; reflexivity).
  vm_compute. intros H. discriminate H.
Qed.

(** C10 at a text with four fields: [parse_time] falls through to
    [float(parts[0])] and returns 1.0, and a [Seek] to that target asks the
    engine for position 1.0. *)
Theorem parse_time_four_fields :
  split "1:2:3:4" ":" = ["1"; "2"; "3"; "4"] /\
  parse_time "1:2:3:4" = PFloat fone /\
  parse_time "1:2:3:4" <> PFloat fzero /\
  wire (player (snd (handle_action engine_ok Transport "Seek"
                       [("Unit", "REL_TIME"); ("Target", "1:2:3:4")] (new_server 50))))
  = [ {| command := [JStr "seek"; JFloat fone; JStr "absolute"]; req_id := 1 |} ].
Proof.
  repeat split; try (vm_compute; reflexivity).
  vm_compute. intros H. discriminate H.
Qed.

End Instances.

(** ** More on strings *)

Section StringFacts.
Import PyStr.

Lemma split_from_not_nil (sep s : string) (skip : nat) : split_from sep s skip <> [].
Proof.
  revert skip. induction s as [|c s IH]; intros skip; cbn [split_from]; [discriminate|].
  destruct skip as [|k]; [|apply IH].
  destruct (startswith (String c s) sep); [discriminate|].
  destruct (split_from sep s 0) eqn:E; discriminate.
Qed.

(** Cutting at a separator of one character: the part before its first
    occurrence comes first. *)
Lemma split_at_char (c : ascii) (k rest : string) :
  contains (String c "") k = false ->
  split_from (String c "") (k ++ String c rest) 0 = k :: split_from (String c "") rest 0.
Proof.
  induction k as [|a k IH]; intros H.
  - cbn [append split_from startswith]. rewrite Ascii.eqb_refl. reflexivity.
  - cbn [contains startswith] in H. apply orb_false_iff in H as [Ha Hk].
    cbn [append split_from startswith]. rewrite Ha, (IH Hk). reflexivity.
Qed.

Lemma split_without_char (c : ascii) (k : string) :
  contains (String c "") k = false -> split_from (String c "") k 0 = [k].
Proof.
  induction k as [|a k IH]; intros H; [reflexivity|].
  cbn [contains startswith] in H. apply orb_false_iff in H as [Ha Hk].
  cbn [split_from startswith]. rewrite Ha, (IH Hk). reflexivity.
Qed.

End StringFacts.

Section BridgeStates.
Import PyNum Mpv Notions.
Variable engine : nat -> event.

(** When [response and response.get('error') == 'success'] holds. *)
Lemma succeeded_true_iff (r : json) :
  succeeded r = Ok true <->
  exists items, r = JObject items /\ dict_get items "error" = JStr "success".
Proof.
  split.
  - unfold succeeded. destruct (truthy r) eqn:Et; [|discriminate].
    destruct r; try discriminate.
    intros H. exists items. split; [reflexivity|].
    destruct (dict_get items "error"); try discriminate.
    injection H as H. apply String.eqb_eq in H. subst. reflexivity.
  - intros (items & -> & He). unfold succeeded.
    destruct items as [|kv items]; [discriminate He|].
    cbn [truthy]. rewrite He. reflexivity.
Qed.

(** What [_send_command] followed by the test of the response comes to. *)
Lemma send_command_cases (cmd : list json) (p : MPVController) :
  exists r p',
    _send_command engine cmd p = (Ok r, p') /\
    current_url p' = current_url p /\
    current_state p' = current_state p /\
    current_volume p' = current_volume p /\
    current_position p' = current_position p /\
    current_duration p' = current_duration p /\
    (succeeded r = Ok true <-> acknowledged engine p) /\
    (wire p' = wire p \/
     wire p' = (wire p ++ [ {| command := cmd; req_id := request_id p + 1 |} ])%list).
Proof.
  unfold _send_command, acknowledged.
  destruct (negb (socket p) && negb (connects (engine (calls p)))) eqn:En.
  - apply andb_true_iff in En as [Hs Hc].
    apply negb_true_iff in Hs, Hc.
    eexists _, _. split; [reflexivity|].
    cbn [current_url current_state current_volume current_position current_duration
         wire request_id].
    repeat (split; [reflexivity|]). split; [|left; reflexivity].
    rewrite succeeded_true_iff. split.
    + intros (items & Hr & _). discriminate Hr.
    + intros ([H|H] & _); congruence.
  - assert (Hopen : socket p = true \/ connects (engine (calls p)) = true).
    { apply andb_false_iff in En as [H|H]; apply negb_false_iff in H; auto. }
    destruct (outcome (engine (calls p))) eqn:Eo;
      (eexists _, _; split; [reflexivity|];
       cbn [current_url current_state current_volume current_position current_duration
            wire request_id];
       repeat (split; [reflexivity|]);
       (split; [|first [left; reflexivity | right; reflexivity]]);
       rewrite succeeded_true_iff; split;
       [ intros (items & Hr & He);
         first [ discriminate Hr
               | split; [exact Hopen|]; exists items; split; [congruence|assumption] ]
       | intros (_ & items & Hr & He);
         first [ discriminate Hr
               | exists items; split; [congruence|assumption] ] ]).
Qed.

(** [play]: the URL is recorded whatever happens; the state ends [PLAYING]
    when the call returns [True], [STOPPED] when it returns [False], and is
    left [TRANSITIONING] when the test of the response raises.  It returns
    [True] exactly when the engine acknowledges the command. *)
Lemma play_cases (url : string) (p : MPVController) :
  let r := fst (play engine url p) in
  let p' := snd (play engine url p) in
  current_url p' = Some url /\
  current_volume p' = current_volume p /\
  current_position p' = current_position p /\
  current_duration p' = current_duration p /\
  current_state p' =
    match r with
    | Ok true => PLAYING
    | Ok false => STOPPED
    | Raise _ => TRANSITIONING
    end /\
  (r = Ok true <-> acknowledged engine p) /\
  (wire p' = wire p \/
   wire p' = (wire p ++ [ {| command := [JStr "loadfile"; JStr url; JStr "replace"];
                             req_id := request_id p + 1 |} ])%list).
Proof.
  cbv zeta. unfold play, bind, modify.
  destruct (send_command_cases [JStr "loadfile"; JStr url; JStr "replace"]
              (set_url (Some url) (set_state TRANSITIONING p)))
    as (r & p1 & E & Hu & Hs & Hv & Hp & Hd & Hok & Hw).
  rewrite E. unfold lift.
  change (acknowledged engine (set_url (Some url) (set_state TRANSITIONING p)))
    with (acknowledged engine p) in Hok.
  cbn [set_url set_state current_url current_state current_volume current_position
       current_duration wire request_id] in Hu, Hs, Hv, Hp, Hd, Hw.
  destruct (succeeded r) as [[|]|e] eqn:Hr; cbn [fst snd ret];
    cbn [set_state current_url current_state current_volume current_position
         current_duration wire request_id];
    (repeat (split; [assumption || reflexivity|])); exact Hw.
Qed.

Lemma pause_cases (p : MPVController) : follows engine p (pause engine) PAUSED_PLAYBACK.
Proof.
  unfold follows, pause, bind.
  destruct (send_command_cases [JStr "set_property"; JStr "pause"; JBool true] p)
    as (r & p1 & E & Hu & Hs & Hv & Hp & Hd & Hok & Hw).
  rewrite E. unfold lift, modify.
  destruct (succeeded r) as [[|]|e] eqn:Hr; cbn [fst snd ret];
    cbn [set_state current_url current_state current_volume current_position
         current_duration];
    (repeat (split; [assumption || reflexivity|])); exact Hok.
Qed.

Lemma resume_cases (p : MPVController) : follows engine p (resume engine) PLAYING.
Proof.
  unfold follows, resume, bind.
  destruct (send_command_cases [JStr "set_property"; JStr "pause"; JBool false] p)
    as (r & p1 & E & Hu & Hs & Hv & Hp & Hd & Hok & Hw).
  rewrite E. unfold lift, modify.
  destruct (succeeded r) as [[|]|e] eqn:Hr; cbn [fst snd ret];
    cbn [set_state current_url current_state current_volume current_position
         current_duration];
    (repeat (split; [assumption || reflexivity|])); exact Hok.
Qed.

(** [seek] of a position that cannot be written into the log line raises
    before anything is done. *)
Lemma seek_refused (position : pynum) (e : exn) (p : MPVController) :
  format_num position = Raise e -> seek engine position p = (Raise e, p).
Proof. intros H. unfold seek, bind, lift. rewrite H. reflexivity. Qed.

(** [seek] of a position that can: the position is recorded exactly when the
    engine acknowledges the command. *)
Lemma seek_cases (position : pynum) (p : MPVController) :
  format_num position = Ok tt ->
  let r := fst (seek engine position p) in
  let p' := snd (seek engine position p) in
  current_url p' = current_url p /\
  current_state p' = current_state p /\
  current_volume p' = current_volume p /\
  current_duration p' = current_duration p /\
  current_position p' =
    match r with
    | Ok true => position
    | _ => current_position p
    end /\
  (r = Ok true <-> acknowledged engine p) /\
  (wire p' = wire p \/
   wire p' = (wire p ++ [ {| command := [JStr "seek"; json_of_num position; JStr "absolute"];
                             req_id := request_id p + 1 |} ])%list).
Proof.
  intros Hlog. cbv zeta. unfold seek, bind, lift. rewrite Hlog. cbv beta iota.
  destruct (send_command_cases [JStr "seek"; json_of_num position; JStr "absolute"] p)
    as (r & p1 & E & Hu & Hs & Hv & Hp & Hd & Hok & Hw).
  rewrite E. unfold modify.
  destruct (succeeded r) as [[|]|e] eqn:Hr; cbn [fst snd ret];
    cbn [set_position current_url current_state current_volume current_position
         current_duration wire request_id];
    (repeat (split; [assumption || reflexivity|])); exact Hw.
Qed.

Lemma send_command_unanswered (cmd : list json) (p : MPVController) :
  unanswered engine p ->
  exists p',
    _send_command engine cmd p = (Ok JNull, p') /\
    current_url p' = current_url p /\
    current_state p' = current_state p /\
    current_volume p' = current_volume p /\
    current_position p' = current_position p /\
    current_duration p' = current_duration p.
Proof.
  intros H. unfold unanswered in H. unfold _send_command.
  destruct (negb (socket p) && negb (connects (engine (calls p)))) eqn:En.
  - eexists. split; [reflexivity|]. repeat split.
  - destruct H as [[Hs Hc]|H]; [rewrite Hs, Hc in En; discriminate En|].
    destruct H as [H|[H|[H|[H|H]]]]; rewrite H;
      (eexists; split; [reflexivity|]; repeat split).
Qed.

(** X1.  [pause] and [resume]: the state moves, to [PAUSED_PLAYBACK] or to
    [PLAYING], exactly when the call returns [True], which it does exactly
    when the engine acknowledges the command; the state the player is in is
    not looked at, and nothing else changes. *)
Theorem pause_and_resume_follow_the_engine (p : MPVController) :
  follows engine p (pause engine) PAUSED_PLAYBACK /\ follows engine p (resume engine) PLAYING.
Proof. split; [apply pause_cases | apply resume_cases]. Qed.

End BridgeStates.

Section BridgeInvariants.
Import PyNum Mpv Notions.
Variable engine : nat -> event.

Lemma preserves_ret I {A} (a : A) : preserves I (ret a).
Proof. intros p H; exact H. Qed.

Lemma preserves_raise I {A} (e : exn) : preserves I (@raise _ A e).
Proof. intros p H; exact H. Qed.

Lemma preserves_lift I {A} (r : result A) : preserves I (lift r).
Proof. intros p H; exact H. Qed.

Lemma preserves_get I : preserves I get.
Proof. intros p H; exact H. Qed.

Lemma preserves_modify I (f : MPVController -> MPVController) :
  (forall p, I p -> I (f p)) -> preserves I (modify f).
Proof. intros Hf p H. apply Hf, H. Qed.

Lemma preserves_bind I {A B} (m : M MPVController A) (k : A -> M MPVController B) :
  preserves I m -> (forall a, preserves I (k a)) -> preserves I (bind m k).
Proof.
  intros Hm Hk p H. unfold bind.
  specialize (Hm p H). destruct (m p) as [[a|e] p']; cbn [snd] in *.
  - apply Hk; assumption.
  - assumption.
Qed.

Lemma preserves_get_property (I : MPVController -> Prop) (name : string) :
  (forall cmd, preserves I (_send_command engine cmd)) ->
  preserves I (_get_property engine name).
Proof.
  intros Hsend. unfold _get_property.
  apply preserves_bind; [apply Hsend|intros r].
  apply preserves_bind; [apply preserves_lift|intros [|]];
    [destruct r|]; apply preserves_ret.
Qed.

Lemma preserves_get_position (I : MPVController -> Prop) :
  (forall cmd, preserves I (_send_command engine cmd)) ->
  (forall x p, I p -> I (set_position x p)) ->
  preserves I (get_position engine).
Proof.
  intros Hsend Hp. unfold get_position.
  apply preserves_bind; [apply preserves_get_property, Hsend|intros v].
  apply preserves_bind;
    [|intros; apply preserves_bind; [apply preserves_get | intros; apply preserves_ret]].
  destruct v; try apply preserves_ret;
    (apply preserves_bind; [apply preserves_lift | intros; apply preserves_modify, Hp]).
Qed.

Lemma preserves_get_duration (I : MPVController -> Prop) :
  (forall cmd, preserves I (_send_command engine cmd)) ->
  (forall x p, I p -> I (set_duration x p)) ->
  preserves I (get_duration engine).
Proof.
  intros Hsend Hd. unfold get_duration.
  apply preserves_bind; [apply preserves_get_property, Hsend|intros v].
  apply preserves_bind;
    [|intros; apply preserves_bind; [apply preserves_get | intros; apply preserves_ret]].
  destruct v; try apply preserves_ret;
    (apply preserves_bind; [apply preserves_lift | intros; apply preserves_modify, Hd]).
Qed.

Lemma preserves_get_status (I : MPVController -> Prop) :
  (forall cmd, preserves I (_send_command engine cmd)) ->
  (forall x p, I p -> I (set_position x p)) ->
  (forall x p, I p -> I (set_duration x p)) ->
  preserves I (get_status engine).
Proof.
  intros Hsend Hp Hd. unfold get_status.
  apply preserves_bind; [apply preserves_get|intros self].
  apply preserves_bind;
    [|intros; apply preserves_bind; [apply preserves_get | intros; apply preserves_ret]].
  destruct (current_state self); try apply preserves_ret.
  apply preserves_bind; [apply preserves_get_position; assumption|intros _].
  apply preserves_bind; [apply preserves_get_duration; assumption|intros _].
  apply preserves_ret.
Qed.

(** The methods of the bridge are built from [_send_command] and from
    assignments to the playback fields: a property kept by both is kept by
    every method. *)
Lemma preserves_exec (I : MPVController -> Prop) :
  (forall cmd, preserves I (_send_command engine cmd)) ->
  (forall st p, I p -> I (set_state st p)) ->
  (forall u p, I p -> I (set_url u p)) ->
  (forall v p, I p -> I (set_volume_field v p)) ->
  (forall x p, I p -> I (set_position x p)) ->
  (forall x p, I p -> I (set_duration x p)) ->
  forall o p, I p -> I (exec engine o p).
Proof.
  intros Hsend Hst Hu Hv Hp Hd.
  intros o. destruct o; cbn [exec];
    match goal with
    | |- forall p, I p -> I (snd (?m p)) => change (preserves I m)
    end.
  - unfold play.
    apply preserves_bind; [apply preserves_modify, Hst|intros _].
    apply preserves_bind; [apply preserves_modify, Hu|intros _].
    apply preserves_bind; [apply Hsend|intros r].
    apply preserves_bind; [apply preserves_lift|intros [|]];
      (apply preserves_bind; [apply preserves_modify, Hst | intros; apply preserves_ret]).
  - unfold pause.
    apply preserves_bind; [apply Hsend|intros r].
    apply preserves_bind; [apply preserves_lift|intros [|]]; [|apply preserves_ret].
    apply preserves_bind; [apply preserves_modify, Hst | intros; apply preserves_ret].
  - unfold resume.
    apply preserves_bind; [apply Hsend|intros r].
    apply preserves_bind; [apply preserves_lift|intros [|]]; [|apply preserves_ret].
    apply preserves_bind; [apply preserves_modify, Hst | intros; apply preserves_ret].
  - unfold stop.
    apply preserves_bind; [apply Hsend|intros _].
    apply preserves_bind; [apply preserves_modify, Hst|intros _].
    apply preserves_bind; [apply preserves_modify, Hu|intros _].
    apply preserves_bind; [apply preserves_modify, Hp|intros _].
    apply preserves_bind; [apply preserves_modify, Hd|intros _].
    apply preserves_ret.
  - unfold set_volume.
    apply preserves_bind; [apply Hsend|intros r].
    apply preserves_bind; [apply preserves_lift|intros [|]]; [|apply preserves_ret].
    apply preserves_bind; [apply preserves_modify, Hv | intros; apply preserves_ret].
  - unfold get_volume.
    apply preserves_bind; [apply preserves_get_property, Hsend|intros v].
    apply preserves_bind;
      [|intros; apply preserves_bind; [apply preserves_get | intros; apply preserves_ret]].
    destruct v; try apply preserves_ret;
      (apply preserves_bind; [apply preserves_lift | intros; apply preserves_modify, Hv]).
  - apply preserves_get_position; assumption.
  - apply preserves_get_duration; assumption.
  - unfold seek.
    apply preserves_bind; [apply preserves_lift|intros _].
    apply preserves_bind; [apply Hsend|intros r].
    apply preserves_bind; [apply preserves_lift|intros [|]]; [|apply preserves_ret].
    apply preserves_bind; [apply preserves_modify, Hp | intros; apply preserves_ret].
  - apply preserves_get_status; assumption.
  - unfold is_playing.
    apply preserves_bind; [apply preserves_get_property, Hsend|intros v].
    destruct v as [|[|]| | | | |];
      (apply preserves_bind; [apply preserves_modify, Hst | intros; apply preserves_ret]).
Qed.

Lemma preserves_run (I : MPVController -> Prop) :
  (forall o p, I p -> I (exec engine o p)) ->
  forall ops p, I p -> I (run engine ops p).
Proof.
  intros Hexec ops. induction ops as [|o ops IH]; cbn [run fold_left]; intros p H.
  - exact H.
  - apply IH, Hexec, H.
Qed.

Lemma ids_counted_send_command cmd : preserves ids_counted (_send_command engine cmd).
Proof.
  intros p (Hs & Hf & Hn).
  destruct (send_command_spec engine cmd p) as (r & p' & E & _ & _ & _ & _ & _ & Hcalls & Hw).
  rewrite E. cbn [snd]. unfold ids_counted.
  destruct Hw as [[Hw Hi]|[[Hw Hi]|[Hw Hi]]]; rewrite Hw, Hi, Hcalls.
  - split; [assumption|]. split; [assumption|]. lia.
  - split; [assumption|]. split; [|lia].
    eapply Forall_impl; [|exact Hf]. cbn beta. intros; lia.
  - rewrite length_app, map_app. cbn [List.length map req_id]. split; [|split; [|lia]].
    + apply sorted_snoc; [assumption|].
      rewrite Forall_map. eapply Forall_impl; [|exact Hf]. cbn beta. intros; lia.
    + apply Forall_app. split.
      * eapply Forall_impl; [|exact Hf]. cbn beta. intros; lia.
      * constructor; [cbn [req_id]; lia|constructor].
Qed.

Lemma ids_dense_send_command cmd :
  (forall n, sends (engine n)) -> preserves ids_dense (_send_command engine cmd).
Proof.
  intros Hsends p (Hm & Hr). unfold ids_dense, _send_command.
  destruct (negb (socket p) && negb (connects (engine (calls p)))); [split; assumption|].
  destruct (Hsends (calls p)) as [H1 H2].
  destruct (outcome (engine (calls p))); try congruence;
    cbn [snd wire request_id];
    rewrite length_app, map_app; cbn [List.length map req_id];
    rewrite seq_app, map_app; cbn [seq map];
    (split; [rewrite Hm, Hr; f_equal; f_equal; f_equal; lia | lia]).
Qed.

(** The id a call takes: none when no connection can be had, the next one
    otherwise, whether or not the request is then written. *)
Lemma send_command_takes_an_id (cmd : list json) (p : MPVController) :
  request_id (snd (_send_command engine cmd p)) =
    if negb (socket p) && negb (connects (engine (calls p)))
    then request_id p else request_id p + 1.
Proof.
  unfold _send_command.
  destruct (negb (socket p) && negb (connects (engine (calls p)))); [reflexivity|].
  destruct (outcome (engine (calls p))); reflexivity.
Qed.

(** X2.  Starting from a fresh controller, whatever methods are called and
    whatever the engine does: the ids taken are 1, ..., [request_id], each
    call of [_send_command] takes the next one unless no connection can be
    had, in which case it takes none; the requests written carry ids among
    these, in increasing order.  An id is taken before the request is handed
    to [sendall], so when [sendall] raises the id is used and nothing is
    written: only if that never happens are the ids written 1, 2, ... with no
    gap, [request_id] being their number. *)
Theorem request_ids_count_the_requests (ops : list op) (default_volume : Z) :
  let p := run engine ops (init default_volume) in
  StronglySorted Z.lt (map req_id (wire p)) /\
  Forall (fun r => 1 <= req_id r <= request_id p) (wire p) /\
  Z.of_nat (List.length (wire p)) <= request_id p <= Z.of_nat (calls p) /\
  (forall cmd,
     request_id (snd (_send_command engine cmd p)) =
       if negb (socket p) && negb (connects (engine (calls p)))
       then request_id p else request_id p + 1) /\
  ((forall n, sends (engine n)) ->
   map req_id (wire p) = map Z.of_nat (seq 1 (List.length (wire p))) /\
   request_id p = Z.of_nat (List.length (wire p))).
Proof.
  cbv zeta.
  assert (Hc : ids_counted (run engine ops (init default_volume))).
  { apply (preserves_run ids_counted).
    - apply preserves_exec; try (intros; assumption). apply ids_counted_send_command.
    - split; [constructor|]. split; [constructor|]. cbn. lia. }
  destruct Hc as (Hs & Hf & Hn).
  split; [exact Hs|]. split; [exact Hf|]. split; [exact Hn|].
  split; [intros cmd; apply send_command_takes_an_id|].
  intros Hsends. apply (preserves_run ids_dense).
  - apply preserves_exec; try (intros; assumption).
    intros cmd. apply ids_dense_send_command, Hsends.
  - split; reflexivity.
Qed.

End BridgeInvariants.

Section Unreachable.
Import PyNum Mpv Notions.
Variable engine : nat -> event.

Lemma send_command_down (cmd : list json) (p : MPVController) :
  connects (engine (calls p)) = false ->
  socket p = false ->
  _send_command engine cmd p =
    (Ok JNull,
     {| socket := false; current_url := current_url p;
        current_state := current_state p; current_volume := current_volume p;
        current_position := current_position p;
        current_duration := current_duration p;
        request_id := request_id p; wire := wire p;
        calls := S (calls p) |}).
Proof. intros Hc Hs. unfold _send_command. rewrite Hc, Hs. reflexivity. Qed.

Lemma idle_exec (dv : Z) (o : op) (p : MPVController) :
  (forall n, connects (engine n) = false) ->
  idle dv p -> idle dv (exec engine o p).
Proof.
  intros Hdown (Hs & Hw & Hi & Hst & Hv & Hp & Hd).
  destruct o; cbn [exec];
    unfold play, pause, resume, stop, set_volume, get_volume, get_position, get_duration,
      seek, get_status, is_playing, _get_property, bind, modify, get, lift;
    try match goal with
        | |- context [format_num ?x] => destruct (format_num x) as [[]|?]
        end;
    rewrite ?Hst;
    repeat (rewrite send_command_down by (try apply Hdown; cbn; assumption); cbn);
    repeat split; assumption.
Qed.

(** X3.  While the engine cannot be reached, no method of the bridge writes a
    request, uses an id or changes the state, the volume, the position or
    the duration: the player stays stopped as [__init__] left it. *)
Theorem unreachable_engine_changes_nothing (ops : list op) (default_volume : Z) :
  (forall n, connects (engine n) = false) ->
  let p := run engine ops (init default_volume) in
  wire p = [] /\ request_id p = 0 /\ socket p = false /\
  current_state p = STOPPED /\ current_volume p = default_volume /\
  current_position p = PInt 0 /\ current_duration p = PInt 0.
Proof.
  intros Hdown p.
  assert (H : idle default_volume p).
  { apply (preserves_run engine (idle default_volume)).
    - intros o q. apply idle_exec, Hdown.
    - repeat split. }
  destruct H as (Hs & Hw & Hi & Hst & Hv & Hp & Hd). repeat split; assumption.
Qed.

End Unreachable.

Section ServiceStates.
Import PyStr PyNum TimeCodec Mpv Services Notions.
Variable engine : nat -> event.

(** [get_status] asks the engine only while the state is [PLAYING], and
    never writes the state, the URL or the volume. *)
Lemma get_status_cases (p : MPVController) :
  exists r p',
    get_status engine p = (r, p') /\
    current_state p' = current_state p /\
    current_url p' = current_url p /\
    current_volume p' = current_volume p /\
    match r with
    | Ok st =>
        st = {| status_state := current_state p; status_url := current_url p;
                status_volume := current_volume p;
                status_position := current_position p';
                status_duration := current_duration p' |}
    | Raise _ => current_state p = PLAYING
    end /\
    (current_state p = PLAYING \/ (p' = p /\ exists st, r = Ok st)).
Proof.
  pose (I := fun q => current_state q = current_state p /\
                      current_url q = current_url p /\
                      current_volume q = current_volume p).
  assert (HI : I (snd (get_status engine p))).
  { apply (preserves_get_status engine I); [| | |repeat split].
    - intros cmd q (H1 & H2 & H3).
      destruct (send_command_spec engine cmd q) as (r & q' & E & Hu & Hs & Hv & _).
      rewrite E. cbn [snd]. unfold I. rewrite Hu, Hs, Hv. auto.
    - intros x q H. exact H.
    - intros x q H. exact H. }
  unfold I in HI. clear I.
  unfold get_status, bind, get, ret in *.
  destruct (current_state p) eqn:Est;
    try (eexists _, _; split; [reflexivity|]; rewrite ?Est;
         repeat split; try reflexivity; right; split; [reflexivity|eexists; reflexivity]).
  destruct (get_position engine p) as [[x|e] p1].
  - destruct (get_duration engine p1) as [[y|e'] p2];
      cbn [snd] in HI; destruct HI as (H1 & H2 & H3);
      (eexists _, _; split; [reflexivity|]);
      (split; [exact H1|]); (split; [exact H2|]); (split; [exact H3|]);
      (split; [|left; reflexivity]); [|reflexivity].
    rewrite H1, H2, H3. reflexivity.
  - cbn [snd] in HI. destruct HI as (H1 & H2 & H3).
    eexists _, _. split; [reflexivity|]. repeat split; auto.
Qed.

Lemma handle_transport_info (args : dict) :
  handle_action engine Transport "GetTransportInfo" args = _handle_GetTransportInfo engine args.
Proof. reflexivity. Qed.

(** X4.  [GetTransportInfo]: the state reported is the one the session held
    before the call, and the call leaves it as it was; polling never moves
    the session out of [PLAYING].  The action raises only while [PLAYING],
    and outside [PLAYING] it does not reach for the engine at all. *)
Theorem transport_info_reports_the_stored_state (s : server) (args : dict) :
  let r := fst (handle_action engine Transport "GetTransportInfo" args s) in
  let s' := snd (handle_action engine Transport "GetTransportInfo" args s) in
  current_state (player s') = current_state (player s) /\
  current_url (player s') = current_url (player s) /\
  current_volume (player s') = current_volume (player s) /\
  av_transport_service s' = av_transport_service s /\
  rendering_control_service s' = rendering_control_service s /\
  match r with
  | Ok fields =>
      fields = [ ("CurrentTransportState", state_name (current_state (player s)));
                 ("CurrentTransportStatus", "OK");
                 ("CurrentSpeed", "1") ]
  | Raise _ => current_state (player s) = PLAYING
  end /\
  (current_state (player s) = PLAYING \/ s' = s).
Proof.
  cbv zeta. rewrite handle_transport_info. unfold _handle_GetTransportInfo, bind.
  destruct (get_status_cases (player s)) as (r & p' & E & Hs & Hu & Hv & Hr & Hidle).
  rewrite (on_player_eq _ _ _ _ E).
  destruct r as [st|e]; cbn [fst snd ret player av_transport_service rendering_control_service].
  - repeat (split; [assumption || reflexivity|]). split.
    + rewrite Hr. reflexivity.
    + destruct Hidle as [H|[-> _]]; [left; exact H|right]. destruct s; reflexivity.
  - repeat (split; [assumption || reflexivity|]).
    destruct Hidle as [H|[-> _]]; [left; exact H|right]. destruct s; reflexivity.
Qed.

End ServiceStates.

Section ServiceActions.
Import PyStr PyNum TimeCodec Mpv Services Notions.
Variable engine : nat -> event.

(** X5.  [SetAVTransportURI] stores the URI and its metadata and leaves the
    player alone: nothing is played.  [GetMediaInfo] then reports what was
    stored ([d] is the text of the session's duration). *)
Theorem set_uri_is_stored_not_played (s : server) (args args' : dict) (d : string) :
  current_state (player s) <> PLAYING ->
  format_time (current_duration (player s)) = Ok d ->
  let s1 := {| player := player s;
               av_transport_service :=
                 {| current_uri := args_get args "CurrentURI" "";
                    current_uri_metadata := args_get args "CurrentURIMetaData" "" |};
               rendering_control_service := rendering_control_service s |} in
  handle_action engine Transport "SetAVTransportURI" args s = (Ok [], s1) /\
  handle_action engine Transport "GetMediaInfo" args' s1 =
    (Ok [ ("NrTracks", "1");
          ("MediaDuration", d);
          ("CurrentURI", args_get args "CurrentURI" "");
          ("CurrentURIMetaData", args_get args "CurrentURIMetaData" "");
          ("NextURI", "");
          ("NextURIMetaData", "");
          ("PlayMedium", "NETWORK");
          ("RecordMedium", "NOT_IMPLEMENTED");
          ("WriteStatus", "NOT_IMPLEMENTED") ], s1).
Proof.
  intros Hst Hd s1. split; [reflexivity|].
  change (handle_action engine Transport "GetMediaInfo" args')
    with (_handle_GetMediaInfo engine args').
  unfold _handle_GetMediaInfo, bind.
  destruct (get_status_cases engine (player s1)) as (r & p' & E & _ & _ & _ & Hr & Hidle).
  destruct Hidle as [H|[-> [st ->]]]; [contradiction|].
  rewrite (on_player_eq _ _ _ _ E). unfold get, lift.
  rewrite Hr. subst s1. cbn [status_duration player]. rewrite Hd. reflexivity.
Qed.

(** X6.  [Play] with a URI set: the command written, if the engine can be
    reached, is [loadfile <uri> replace], whatever state the session is in;
    the player records the URI.  The endpoint answers 200 exactly when the
    engine acknowledges the command, and the state is then [PLAYING];
    otherwise it answers with fault 501, and the state is [STOPPED]
    ("Failed to start playback") or was left [TRANSITIONING]. *)
Theorem play_action_loads_the_uri (s : server) (args : dict) (path st : string) :
  current_uri (av_transport_service s) <> "" ->
  route path = Some Transport ->
  let uri := current_uri (av_transport_service s) in
  let out := do_POST engine path
               (Some {| action := "Play"; service_type := st; args := args |}) s in
  current_url (player (snd out)) = Some uri /\
  av_transport_service (snd out) = av_transport_service s /\
  (wire (player (snd out)) = wire (player s) \/
   wire (player (snd out)) =
     (wire (player s) ++
      [ {| command := [JStr "loadfile"; JStr uri; JStr "replace"];
           req_id := request_id (player s) + 1 |} ])%list) /\
  match fst out with
  | SoapResponse a t fields =>
      a = "Play" /\ t = AV_SERVICE_TYPE /\ fields = [] /\
      current_state (player (snd out)) = PLAYING /\
      acknowledged engine (player s)
  | SoapError code description =>
      code = 501 /\ ~ acknowledged engine (player s) /\
      ((description = "Failed to start playback" /\
        current_state (player (snd out)) = STOPPED) \/
       current_state (player (snd out)) = TRANSITIONING)
  | HttpError _ _ => False
  end.
Proof.
  intros Hu Hr uri out. subst out. unfold do_POST. rewrite Hr.
  cbn [Services.action Services.args].
  change (handle_action engine Transport "Play" args) with (_handle_Play engine args).
  unfold _handle_Play, bind, get. fold uri.
  destruct (String.eqb_spec uri "") as [He|_]; [contradiction|].
  pose proof (play_cases engine uri (player s)) as Hp. cbv zeta in Hp.
  destruct (play engine uri (player s)) as [r p'] eqn:E.
  cbn [fst snd] in Hp. destruct Hp as (H1 & _ & _ & _ & H5 & H6 & H7).
  rewrite (on_player_eq _ _ _ _ E).
  destruct r as [[|]|e];
    cbn [fst snd ret raise player av_transport_service exn_str];
    (split; [exact H1|]); (split; [reflexivity|]); (split; [exact H7|]).
  - split; [reflexivity|]. split; [reflexivity|]. split; [reflexivity|].
    split; [exact H5 | apply H6; reflexivity].
  - split; [reflexivity|]. split; [|left; split; [reflexivity|exact H5]].
    intros Ha. apply H6 in Ha. discriminate Ha.
  - split; [reflexivity|]. split; [|right; exact H5].
    intros Ha. apply H6 in Ha. discriminate Ha.
Qed.

(** X7.  When the engine gives no reply, [Pause], [Seek] and [SetVolume] still
    return normally, so the endpoint answers 200, though nothing was paused,
    sought or set: the playback fields are what they were.  This is so for
    every request whose arguments the handler itself accepts: a
    [DesiredVolume] that [int] reads, and a [Target] whose position can be
    written into the log line; a position that is an int of more than 4300
    digits makes [Seek] raise before the player is reached. *)
Theorem unanswered_commands_report_success (s : server) (args : dict) :
  unanswered engine (player s) ->
  (fst (handle_action engine Transport "Pause" args s) = Ok [] /\
   same_playback s (snd (handle_action engine Transport "Pause" args s))) /\
  (format_num (parse_time (args_get args "Target" "00:00:00")) = Ok tt ->
   fst (handle_action engine Transport "Seek" args s) = Ok [] /\
   same_playback s (snd (handle_action engine Transport "Seek" args s))) /\
  (forall e,
     String.eqb (args_get args "Unit" "ABS_TIME") "ABS_TIME"
     || String.eqb (args_get args "Unit" "ABS_TIME") "REL_TIME" = true ->
     format_num (parse_time (args_get args "Target" "00:00:00")) = Raise e ->
     handle_action engine Transport "Seek" args s = (Raise e, s)) /\
  (forall v, int_of_string (args_get args "DesiredVolume" "50") = Ok v ->
   fst (handle_action engine Rendering "SetVolume" args s) = Ok [] /\
   same_playback s (snd (handle_action engine Rendering "SetVolume" args s))).
Proof.
  intros Hun. unfold same_playback. split; [|split; [|split]].
  - change (handle_action engine Transport "Pause" args) with (_handle_Pause engine args).
    unfold _handle_Pause, bind, on_player, pause, bind.
    destruct (send_command_unanswered engine
                [JStr "set_property"; JStr "pause"; JBool true] (player s) Hun)
      as (p' & -> & Hu & Hs & Hv & Hp & Hd).
    cbn. repeat split; assumption.
  - intros Hlog.
    change (handle_action engine Transport "Seek" args) with (_handle_Seek engine args).
    unfold _handle_Seek. cbv zeta. unfold bind.
    destruct (_ || _); [|cbn; repeat split; reflexivity].
    unfold on_player, seek, bind, lift. rewrite Hlog. cbv beta iota.
    destruct (send_command_unanswered engine
                [JStr "seek"; json_of_num (parse_time (args_get args "Target" "00:00:00"));
                 JStr "absolute"] (player s) Hun)
      as (p' & -> & Hu & Hs & Hv & Hp & Hd).
    cbn. repeat split; assumption.
  - intros e Hunit Hlog.
    change (handle_action engine Transport "Seek" args) with (_handle_Seek engine args).
    unfold _handle_Seek. cbv zeta. unfold bind. rewrite Hunit.
    unfold lift. rewrite Hlog. reflexivity.
  - intros v Hv0.
    change (handle_action engine Rendering "SetVolume" args)
      with (_handle_SetVolume engine args).
    unfold _handle_SetVolume, bind, lift. rewrite Hv0.
    unfold on_player, set_volume, bind.
    destruct (send_command_unanswered engine
                [JStr "set_property"; JStr "volume"; JInt (Z.max 0 (Z.min 100 v))]
                (player s) Hun)
      as (p' & -> & Hu & Hs & Hv & Hp & Hd).
    cbn. repeat split; assumption.
Qed.

End ServiceActions.

Section RenderingActions.
Import PyStr PyNum TimeCodec Mpv Services Notions.
Variable engine : nat -> event.

(** X8.  [SetMute] records the requested flag before it turns to the player, so
    the flag is set also when the player raises or the engine fails;
    [GetMute] reads the flag back without touching anything. *)
Theorem mute_flag_follows_the_request (s : server) (args args' : dict) :
  let s1 := snd (handle_action engine Rendering "SetMute" args s) in
  muted (rendering_control_service s1) = desired_mute args /\
  av_transport_service s1 = av_transport_service s /\
  handle_action engine Rendering "GetMute" args' s1 =
    (Ok [ ("CurrentMute", if desired_mute args then "1" else "0") ], s1).
Proof.
  cbv zeta.
  change (handle_action engine Rendering "SetMute" args) with (_handle_SetMute engine args).
  change (handle_action engine Rendering "GetMute" args') with (_handle_GetMute args').
  assert (H : muted (rendering_control_service (snd (_handle_SetMute engine args s)))
              = desired_mute args /\
              av_transport_service (snd (_handle_SetMute engine args s))
              = av_transport_service s).
  { unfold _handle_SetMute. cbv zeta. unfold bind, get, modify, on_player.
    destruct (desired_mute args); cbn [set_rc player].
    - destruct (get_volume engine (player s)) as [[v|e] p1]; cbn; [|auto].
      destruct (set_volume engine 0 p1) as [[b|e] p2]; cbn; auto.
    - destruct (volume_before_mute (rendering_control_service s)) as [v|]; cbn; [|auto].
      destruct (set_volume engine v (player s)) as [[b|e] p2]; cbn; auto. }
  destruct H as [Hm Ha]. split; [exact Hm|]. split; [exact Ha|].
  unfold _handle_GetMute, bind, get. cbn [ret]. rewrite Hm. reflexivity.
Qed.

(** X9.  Muting twice.  The second [SetMute] with a true flag reads the
    volume again and keeps what it reads, [w], as the volume to restore, in
    place of [v], which the first had kept; the [SetMute] with a false flag
    that follows sets the volume to [w] cut to [0, 100].  The volume held
    before the first mute is lost.  What [w] is lies with the engine's answer
    to the second reading: when that answer carries no value, [w] is the
    volume the first mute has set, 0. *)
Theorem second_mute_forgets_the_volume (s : server) (on off : dict) (v w : Z) :
  desired_mute on = true ->
  desired_mute off = false ->
  (forall n, accepts (engine n)) ->
  fst (get_volume engine (player s)) = Ok v ->
  fst (get_volume engine
         (player (snd (handle_action engine Rendering "SetMute" on s)))) = Ok w ->
  exists s1 s2 s3,
    handle_action engine Rendering "SetMute" on s = (Ok [], s1) /\
    handle_action engine Rendering "SetMute" on s1 = (Ok [], s2) /\
    handle_action engine Rendering "SetMute" off s2 = (Ok [], s3) /\
    volume_before_mute (rendering_control_service s1) = Some v /\
    volume_before_mute (rendering_control_service s2) = Some w /\
    current_volume (player s3) = Z.max 0 (Z.min 100 w) /\
    (forall items,
       outcome (engine (calls (player s1))) = Reply (JObject items) ->
       dict_get items "data" = JNull ->
       w = 0).
Proof.
  intros Hon Hoff Hacc Hg Hg1.
  destruct (get_volume engine (player s)) as [r p1] eqn:Eg. cbn [fst] in Hg. subst r.
  destruct (set_volume_accepted engine 0 p1 (Hacc _)) as (p2 & Es & Hv2 & _).
  pose proof (set_mute_true_spec engine s on v true p1 p2 Hon Eg Es) as H1.
  rewrite H1 in Hg1. cbn [snd player] in Hg1.
  destruct (get_volume engine p2) as [r p3] eqn:Eg2. cbn [fst] in Hg1. subst r.
  destruct (set_volume_accepted engine 0 p3 (Hacc _)) as (p4 & Es2 & Hv4 & _).
  destruct (set_volume_accepted engine w p4 (Hacc _)) as (p5 & Es3 & Hv5 & _).
  eexists _, _, _.
  split; [exact H1|].
  split; [apply (set_mute_true_spec engine _ on w true p3 p4 Hon); [exact Eg2|exact Es2]|].
  split; [apply (set_mute_false_spec engine _ off w true p5 Hoff); [reflexivity|exact Es3]|].
  cbn [rendering_control_service volume_before_mute player].
  split; [reflexivity|]. split; [reflexivity|]. split; [exact Hv5|].
  intros items Ho Hdata.
  destruct (Hacc (calls p2)) as [Hc (r & Ho' & Hr)].
  rewrite Ho in Ho'. injection Ho' as <-.
  unfold get_volume, _get_property, bind, _send_command in Eg2.
  rewrite Hc, Ho, andb_false_r in Eg2. unfold lift in Eg2. rewrite Hr in Eg2.
  cbn [ret] in Eg2. rewrite Hdata in Eg2. cbn in Eg2.
  injection Eg2 as Hw _. rewrite <- Hw. exact Hv2.
Qed.

(** X10.  A [DesiredVolume] that is no integer literal: [SetVolume] raises before
    it reaches the player, the endpoint answers with fault 501, and nothing
    has changed. *)
Theorem set_volume_rejects_a_bad_literal (s : server) (args : dict) (path st : string)
    (e : exn) :
  int_of_string (args_get args "DesiredVolume" "50") = Raise e ->
  route path = Some Rendering ->
  exists description,
    do_POST engine path
      (Some {| action := "SetVolume"; service_type := st; args := args |}) s
    = (SoapError 501 description, s).
Proof.
  intros Hv Hr. exists (exn_str e).
  unfold do_POST. rewrite Hr. cbn [Services.action Services.args].
  rewrite (set_volume_action_bad_literal engine s args e Hv). reflexivity.
Qed.

(** X11.  [GetVolume] when the engine answers the query with a number: the number,
    cut to an integer, is reported and becomes the session's volume as it
    is, also when it lies outside [0, 100]. *)
Theorem get_volume_stores_what_the_engine_reports (s : server) (args : dict)
    (items : list (string * json)) (v : Z) :
  socket (player s) = true \/ connects (engine (calls (player s))) = true ->
  outcome (engine (calls (player s))) = Reply (JObject items) ->
  dict_get items "error" = JStr "success" ->
  dict_get items "data" <> JNull ->
  int_of_json (dict_get items "data") = Ok v ->
  exists s',
    handle_action engine Rendering "GetVolume" args s
      = (Ok [ ("CurrentVolume", str_of_int v) ], s') /\
    current_volume (player s') = v.
Proof.
  intros Hopen Ho He Hn Hv.
  change (handle_action engine Rendering "GetVolume" args) with (_handle_GetVolume engine args).
  unfold _handle_GetVolume, bind, on_player, get_volume, _get_property, bind.
  unfold _send_command.
  replace (negb (socket (player s)) && negb (connects (engine (calls (player s)))))
    with false
    by (destruct Hopen as [-> | ->]; [reflexivity | apply eq_sym, andb_false_r]).
  rewrite Ho. unfold lift.
  assert (Hs : succeeded (JObject items) = Ok true).
  { apply succeeded_true_iff. exists items. auto. }
  rewrite Hs. cbn [ret].
  destruct (dict_get items "data") eqn:Ed; [congruence|..];
    rewrite Hv; cbn; eexists; split; reflexivity.
Qed.

(** X12.  [GetVolume] when the engine gives no reply: the session's volume is
    reported and kept. *)
Theorem get_volume_falls_back_to_the_session (s : server) (args : dict) :
  unanswered engine (player s) ->
  fst (handle_action engine Rendering "GetVolume" args s)
    = Ok [ ("CurrentVolume", str_of_int (current_volume (player s))) ] /\
  same_playback s (snd (handle_action engine Rendering "GetVolume" args s)).
Proof.
  intros Hun.
  change (handle_action engine Rendering "GetVolume" args) with (_handle_GetVolume engine args).
  unfold _handle_GetVolume, bind, on_player, get_volume, _get_property, bind.
  destruct (send_command_unanswered engine [JStr "get_property"; JStr "volume"]
              (player s) Hun) as (p' & -> & Hu & Hs & Hv & Hp & Hd).
  unfold same_playback. cbn. rewrite Hv. repeat split; assumption.
Qed.

End RenderingActions.

Section CodecMore.
Import PyStr PyNum TimeCodec Notions.

(** [int] reads back what [str] writes, within the limit on the number of
    digits. *)
Lemma int_of_string_str_wide (z : Z) :
  0 <= z < 2 ^ 4300 ->
  int_of_string (str_of_int z) = Ok z /\ digits_only (str_of_int z) = true.
Proof.
  intros [Hz0 Hz]. destruct z as [|p|p]; [| |lia].
  - split; reflexivity.
  - cbn [str_of_int]. split; [|apply digits_only_uint].
    rewrite int_of_string_uint.
    + rewrite uint_value_to_uint. reflexivity.
    + apply DecimalPos.Unsigned.to_uint_nonnil.
    + apply (nb_digits_below_pow2 p 4300); [lia|exact Hz].
Qed.

Lemma parse_time_fields_wide (h m s : Z) :
  0 <= h < 2 ^ 4300 -> 0 <= m < 60 -> 0 <= s < 60 ->
  parse_time (str_of_int h ++ ":" ++ format_02d m ++ ":" ++ format_02d s)
  = PInt (h * 3600 + m * 60 + s).
Proof.
  intros Hh Hm Hs.
  destruct (int_of_string_str_wide h Hh) as [Ih Dh].
  destruct (int_of_string_02d m ltac:(lia)) as [Im Dm].
  destruct (int_of_string_02d s ltac:(lia)) as [Is Ds].
  unfold parse_time, parse_time_try, split.
  change (str_of_int h ++ ":" ++ format_02d m ++ ":" ++ format_02d s)
    with (str_of_int h ++ String ":" (format_02d m ++ String ":" (format_02d s))).
  rewrite (split_field _ _ Dh), (split_field _ _ Dm), (split_last _ Ds).
  rewrite Ih, Im, Is. reflexivity.
Qed.

(** What [format_time] writes for an [int] that is not negative and whose
    hours [str] accepts. *)
Lemma format_time_int (n : Z) :
  0 <= n -> n / 3600 < 2 ^ 4300 ->
  format_time (PInt n)
  = Ok (str_of_int (n / 3600) ++ ":" ++ format_02d (n mod 3600 / 60) ++ ":" ++
        format_02d (n mod 60)).
Proof.
  intros Hn Hh. unfold format_time. cbn [is_negative is_inf orb].
  replace (n <? 0) with false by (symmetry; apply Z.ltb_ge; exact Hn).
  cbn [floordiv modulo Z.eqb rbind int_of_num].
  rewrite (str_int_small (n / 3600)); [reflexivity|].
  pose proof (Z.div_pos n 3600 Hn ltac:(lia)). lia.
Qed.

(** X13.  A whole number of seconds, given as an [int]: [format_time] writes its
    hours, minutes and seconds and [parse_time] reads the same number back.
    The bound keeps the hours within the digits [int] accepts in a text. *)
Theorem whole_seconds_round_trip (n : Z) :
  0 <= n -> n / 3600 < 2 ^ 4300 ->
  exists text,
    format_time (PInt n) = Ok text /\
    text = str_of_int (n / 3600) ++ ":" ++ format_02d (n mod 3600 / 60) ++ ":" ++
           format_02d (n mod 60) /\
    parse_time text = PInt n.
Proof.
  intros Hn Hh. eexists. split; [apply format_time_int; assumption|]. split; [reflexivity|].
  pose proof (Z.div_pos n 3600 Hn ltac:(lia)) as Hq.
  pose proof (Z.mod_pos_bound n 3600 ltac:(lia)) as Hr.
  pose proof (Z.mod_pos_bound n 60 ltac:(lia)) as Hs.
  assert (Hm : 0 <= n mod 3600 / 60 < 60).
  { split; [apply Z.div_pos; lia|apply Z.div_lt_upper_bound; lia]. }
  rewrite parse_time_fields_wide by (split; assumption || lia).
  f_equal.
  pose proof (Z.div_mod n 3600 ltac:(lia)) as E1.
  pose proof (Z.div_mod (n mod 3600) 60 ltac:(lia)) as E2.
  assert (E3 : (n mod 3600) mod 60 = n mod 60).
  { symmetry. rewrite E1 at 1.
    replace (3600 * (n / 3600) + n mod 3600) with (n mod 3600 + (60 * (n / 3600)) * 60) by lia.
    apply Z.mod_add. lia. }
  lia.
Qed.

(** X14.  Texts of two and of three fields of decimal digits, of any value: the
    fields are read as minutes and seconds, or as hours, minutes and
    seconds, and are not checked against 60. *)
Theorem parse_time_reads_the_fields (a b c : Decimal.uint) :
  a <> Decimal.Nil -> b <> Decimal.Nil -> c <> Decimal.Nil ->
  (Decimal.nb_digits a <= 4300)%nat ->
  (Decimal.nb_digits b <= 4300)%nat ->
  (Decimal.nb_digits c <= 4300)%nat ->
  parse_time (NilEmpty.string_of_uint a ++ ":" ++ NilEmpty.string_of_uint b)
  = PInt (uint_value 0 a * 60 + uint_value 0 b) /\
  parse_time (NilEmpty.string_of_uint a ++ ":" ++ NilEmpty.string_of_uint b ++ ":" ++
              NilEmpty.string_of_uint c)
  = PInt (uint_value 0 a * 3600 + uint_value 0 b * 60 + uint_value 0 c).
Proof.
  intros Ha Hb Hc La Lb Lc.
  pose proof (digits_only_uint a) as Da.
  pose proof (digits_only_uint b) as Db.
  pose proof (digits_only_uint c) as Dc.
  split; unfold parse_time, parse_time_try, split.
  - change (NilEmpty.string_of_uint a ++ ":" ++ NilEmpty.string_of_uint b)
      with (NilEmpty.string_of_uint a ++ String ":" (NilEmpty.string_of_uint b)).
    rewrite (split_field _ _ Da), (split_last _ Db).
    rewrite !int_of_string_uint by assumption. reflexivity.
  - change (NilEmpty.string_of_uint a ++ ":" ++ NilEmpty.string_of_uint b ++ ":" ++
            NilEmpty.string_of_uint c)
      with (NilEmpty.string_of_uint a ++
            String ":" (NilEmpty.string_of_uint b ++ String ":" (NilEmpty.string_of_uint c))).
    rewrite (split_field _ _ Da), (split_field _ _ Db), (split_last _ Dc).
    rewrite !int_of_string_uint by assumption. reflexivity.
Qed.

(** X15.  A text with no colon is read as a number of seconds by [float]; when
    [float] refuses it, the result is 0.0. *)
Theorem parse_time_plain_seconds (text : string) :
  contains ":" text = false ->
  parse_time text =
    match float_of_string text with
    | Ok f => PFloat f
    | Raise _ => PFloat fzero
    end.
Proof.
  intros H. unfold parse_time, parse_time_try, split.
  rewrite (split_without_char ":" text H). cbn [getitem nth_error rbind].
  destruct (float_of_string text); reflexivity.
Qed.

End CodecMore.

Section SeekActions.
Import PyStr PyNum TimeCodec Mpv Services Notions.
Variable engine : nat -> event.

Lemma handle_position_info (args : dict) :
  handle_action engine Transport "GetPositionInfo" args = _handle_GetPositionInfo engine args.
Proof. reflexivity. Qed.

(** X16.  [Stop] clears the player's URL but not the URI the transport service
    holds: after it [GetPositionInfo] reports that URI with position and
    duration [0:00:00] and leaves the session as it is, and a [Play] that the
    engine acknowledges loads the same URI again. *)
Theorem stop_keeps_the_uri_for_replay (s : server) (args : dict) :
  current_uri (av_transport_service s) <> "" ->
  acknowledged engine (player (snd (handle_action engine Transport "Stop" args s))) ->
  exists s1 s2,
    handle_action engine Transport "Stop" args s = (Ok [], s1) /\
    av_transport_service s1 = av_transport_service s /\
    current_url (player s1) = None /\
    handle_action engine Transport "GetPositionInfo" args s1 =
      (Ok [ ("Track", "1");
            ("TrackDuration", "0:00:00");
            ("TrackMetaData", current_uri_metadata (av_transport_service s));
            ("TrackURI", current_uri (av_transport_service s));
            ("RelTime", "0:00:00");
            ("AbsTime", "0:00:00");
            ("RelCount", "0");
            ("AbsCount", "0") ], s1) /\
    handle_action engine Transport "Play" args s1 = (Ok [], s2) /\
    current_state (player s2) = PLAYING /\
    current_url (player s2) = Some (current_uri (av_transport_service s)).
Proof.
  intros Hu Hack.
  destruct (stop_spec engine (player s)) as (p1 & E & Hs & Hurl & Hp & Hd & _).
  assert (H1 : handle_action engine Transport "Stop" args s =
               (Ok [], {| player := p1;
                          av_transport_service := av_transport_service s;
                          rendering_control_service := rendering_control_service s |})).
  { change (handle_action engine Transport "Stop" args) with (_handle_Stop engine args).
    unfold _handle_Stop, bind. rewrite (on_player_eq _ _ _ _ E). reflexivity. }
  rewrite H1 in Hack. cbn [snd player] in Hack.
  set (s1 := {| player := p1;
                av_transport_service := av_transport_service s;
                rendering_control_service := rendering_control_service s |}) in *.
  pose proof (play_cases engine (current_uri (av_transport_service s)) p1) as Hplay.
  cbv zeta in Hplay.
  destruct (play engine (current_uri (av_transport_service s)) p1) as [r p2] eqn:Eplay.
  cbn [fst snd] in Hplay. destruct Hplay as (P1 & _ & _ & _ & P5 & P6 & _).
  assert (Hr : r = Ok true) by (apply P6, Hack). subst r.
  exists s1, {| player := p2;
                av_transport_service := av_transport_service s;
                rendering_control_service := rendering_control_service s |}.
  split; [exact H1|]. split; [reflexivity|]. split; [exact Hurl|]. split; [|split].
  - rewrite handle_position_info. unfold _handle_GetPositionInfo, bind.
    destruct (get_status_cases engine (player s1)) as (r & p' & E' & _ & _ & _ & Hr & Hidle).
    rewrite (on_player_eq _ _ _ _ E').
    cbn [player s1] in Hidle, Hr.
    destruct Hidle as [H|[-> [st ->]]]; [rewrite Hs in H; discriminate H|].
    unfold get, lift. rewrite Hr.
    cbn [status_duration status_position player av_transport_service s1].
    rewrite Hd, Hp. reflexivity.
  - change (handle_action engine Transport "Play" args) with (_handle_Play engine args).
    unfold _handle_Play, bind, get. cbn [av_transport_service s1].
    destruct (String.eqb_spec (current_uri (av_transport_service s)) "") as [He|_];
      [contradiction|].
    cbn [ret]. rewrite (on_player_eq _ s1 _ _ Eplay). reflexivity.
  - cbn [player]. split; [exact P5|exact P1].
Qed.

(** X17.  A [Seek] to [H:MM:SS] that the engine acknowledges, in a session that is
    not [PLAYING]: the position becomes the whole number of seconds, and
    [GetPositionInfo] gives the same text back as [RelTime] and [AbsTime]
    ([d] is the text of the session's duration). *)
Theorem seek_is_read_back (s : server) (args args' : dict) (h m sec : Z) (d : string) :
  String.eqb (args_get args "Unit" "ABS_TIME") "ABS_TIME"
  || String.eqb (args_get args "Unit" "ABS_TIME") "REL_TIME" = true ->
  0 <= h < 2 ^ 4300 -> 0 <= m < 60 -> 0 <= sec < 60 ->
  args_get args "Target" "00:00:00"
  = str_of_int h ++ ":" ++ format_02d m ++ ":" ++ format_02d sec ->
  current_state (player s) <> PLAYING ->
  acknowledged engine (player s) ->
  format_time (current_duration (player s)) = Ok d ->
  exists s1,
    handle_action engine Transport "Seek" args s = (Ok [], s1) /\
    current_position (player s1) = PInt (h * 3600 + m * 60 + sec) /\
    handle_action engine Transport "GetPositionInfo" args' s1 =
      (Ok [ ("Track", "1");
            ("TrackDuration", d);
            ("TrackMetaData", current_uri_metadata (av_transport_service s));
            ("TrackURI", current_uri (av_transport_service s));
            ("RelTime", args_get args "Target" "00:00:00");
            ("AbsTime", args_get args "Target" "00:00:00");
            ("RelCount", "0");
            ("AbsCount", "0") ], s1).
Proof.
  intros Hunit Hh Hm Hs Htarget Hst Hack Hd.
  set (n := h * 3600 + m * 60 + sec).
  assert (Hparse : parse_time (args_get args "Target" "00:00:00") = PInt n).
  { rewrite Htarget. apply parse_time_fields_wide; assumption. }
  assert (Hn : 0 <= n) by (unfold n; lia).
  assert (E1 : n / 3600 = h).
  { unfold n. symmetry. apply (Z.div_unique _ _ h (m * 60 + sec)); lia. }
  assert (Hlog : format_num (PInt n) = Ok tt).
  { cbn [format_num]. rewrite (str_int_small n); [reflexivity|]. unfold n. lia. }
  assert (Hfmt : format_time (PInt n) = Ok (args_get args "Target" "00:00:00")).
  { rewrite (format_time_int n Hn) by (rewrite E1; lia). rewrite Htarget.
    assert (E2 : n mod 3600 = m * 60 + sec).
    { unfold n. symmetry. apply (Z.mod_unique _ _ h (m * 60 + sec)); lia. }
    assert (E3 : n mod 60 = sec).
    { unfold n. symmetry. apply (Z.mod_unique _ _ (h * 60 + m) sec); lia. }
    assert (E4 : (m * 60 + sec) / 60 = m).
    { symmetry. apply (Z.div_unique _ _ m sec); lia. }
    rewrite E1, E2, E3, E4. reflexivity. }
  pose proof (seek_cases engine (PInt n) (player s) Hlog) as Hseek. cbv zeta in Hseek.
  destruct (seek engine (PInt n) (player s)) as [r p1] eqn:E. cbn [fst snd] in Hseek.
  destruct Hseek as (Hu1 & Hs1 & Hv1 & Hd1 & Hp1 & Hok & _).
  assert (Hr : r = Ok true) by (apply Hok, Hack). subst r.
  exists {| player := p1;
            av_transport_service := av_transport_service s;
            rendering_control_service := rendering_control_service s |}.
  split; [|split; [exact Hp1|]].
  - change (handle_action engine Transport "Seek" args) with (_handle_Seek engine args).
    unfold _handle_Seek. cbv zeta. rewrite Hunit, Hparse. unfold bind, lift.
    rewrite Hlog. cbv beta iota.
    rewrite (on_player_eq _ _ _ _ E). reflexivity.
  - rewrite handle_position_info. unfold _handle_GetPositionInfo, bind.
    match goal with
    | |- context [on_player (get_status engine) ?st] =>
        destruct (get_status_cases engine (player st)) as (r & p' & E' & _ & _ & _ & Hr & Hidle);
        rewrite (on_player_eq (get_status engine) st r p' E')
    end.
    cbn [player] in Hidle, Hr.
    destruct Hidle as [H|[-> [st ->]]]; [rewrite Hs1 in H; contradiction|].
    unfold get, lift. rewrite Hr.
    cbn [status_duration status_position player av_transport_service].
    rewrite Hd1, Hd, Hp1, Hfmt. reflexivity.
Qed.

End SeekActions.

Section DiscoveryMore.
Import PyStr Ssdp Notions.

(** The loop over the lines never raises: a line that starts with [ST:] has
    a colon to be cut at. *)
Lemma search_target_total (lines : list string) :
  exists st, search_target lines = Ok st.
Proof.
  induction lines as [|line rest IH]; cbn [search_target].
  - eexists; reflexivity.
  - destruct (startswith line "ST:") eqn:E; [|exact IH].
    rewrite (split_once_st line E). eexists; reflexivity.
Qed.

(** X18.  Whatever datagram arrives, from whatever address: the listener does not
    raise, so the loop goes on; it sends at most one datagram, and only to
    the address the datagram came from. *)
Theorem listener_answers_the_sender_only (self : SSDPServer) (message : string)
    (addr : address) :
  exists sent,
    _listen_step self message addr = Ok sent /\
    (List.length sent <= 1)%nat /\
    Forall (fun d => dest d = addr) sent.
Proof.
  unfold _listen_step.
  destruct (contains "M-SEARCH" message);
    [|exists []; repeat split; [cbn; lia | constructor]].
  unfold _handle_msearch.
  destruct (search_target_total (split message crlf)) as [st ->]. cbn [rbind].
  destruct st as [[|c st]|];
    try (exists []; repeat split; [cbn; lia | constructor]).
  destruct (should_respond self (String c st));
    [|exists []; repeat split; [cbn; lia | constructor]].
  eexists. split; [reflexivity|]. split; [cbn; lia|].
  repeat constructor.
Qed.

(** X19.  The types the device announces and the targets it answers to agree: a
    search is answered exactly when it asks for [ssdp:all] or for one of the
    six types [_send_alive] announces. *)
Theorem announced_types_are_the_search_targets (self : SSDPServer) (st : string) :
  should_respond self st = true <->
  st = "ssdp:all" \/ In st (alive_services self).
Proof.
  unfold should_respond, alive_services. cbn [In].
  rewrite !orb_true_iff, !String.eqb_eq.
  intuition (subst; auto).
Qed.

End DiscoveryMore.

Section ConfigFacts.
Import PyStr Config.

Lemma descend_default_or_value (keys : list string) (value default : yaml) :
  keys <> [] ->
  descend keys value default = default \/ descend keys value default <> YNull.
Proof.
  revert value. induction keys as [|k rest IH]; intros value Hne; [congruence|].
  cbn [descend]. destruct value; auto.
  destruct (dict_get items k) eqn:E; auto;
    (destruct rest as [|k' rest']; [right; cbn [descend]; discriminate | apply IH; discriminate]).
Qed.

(** X20.  [get] never returns [None] unless the default is [None]: what it returns
    is the default or a value found in the file, and an entry the file sets
    to null reads as the default. *)
Theorem config_get_is_the_default_or_a_value (config : yaml) (key : string) (default : yaml) :
  get config key default = default \/ get config key default <> YNull.
Proof.
  unfold get, split. apply descend_default_or_value, split_from_not_nil.
Qed.

(** X21.  A dotted key is followed one mapping at a time: the first part is looked
    up in the mapping, and the rest of the key in the mapping found there;
    anything else found on the way, a scalar, a list or nothing, gives the
    default.  The last part gives the value it holds unless that is null. *)
Theorem config_get_follows_the_path (items : list (string * yaml)) (k rest : string)
    (default : yaml) :
  contains "." k = false ->
  get (YDict items) (k ++ "." ++ rest) default =
    match dict_get items k with
    | YDict sub => get (YDict sub) rest default
    | _ => default
    end /\
  get (YDict items) k default =
    match dict_get items k with
    | YNull => default
    | v => v
    end.
Proof.
  intros Hk. unfold get, split. split.
  - change (k ++ "." ++ rest) with (k ++ String "." rest).
    rewrite (split_at_char "." k rest Hk). cbn [descend].
    destruct (dict_get items k) eqn:E; try reflexivity;
      (destruct (split_from "." rest 0) eqn:Es;
       [exfalso; exact (split_from_not_nil _ _ _ Es) | reflexivity]).
  - rewrite (split_without_char "." k Hk). cbn [descend].
    destruct (dict_get items k); reflexivity.
Qed.

(** X22.  A file that holds no mapping at the top, an empty file for one, which
    loads as [None]: every key reads as its default. *)
Theorem config_without_a_mapping_gives_the_defaults (config : yaml) (key : string)
    (default : yaml) :
  (forall items, config <> YDict items) ->
  get config key default = default /\
  get_default_volume config = YInt 50 /\
  get_http_port config = YInt 8000 /\
  get_device_uuid config = YStr "12345678-1234-1234-1234-123456789012".
Proof.
  intros Hn.
  assert (H : forall key default, get config key default = default).
  { intros k d. unfold get, split.
    destruct (split_from "." k 0) eqn:Es; [exfalso; exact (split_from_not_nil _ _ _ Es)|].
    cbn [descend]. destruct config; try reflexivity. exfalso. apply (Hn items). reflexivity. }
  repeat split; apply H.
Qed.

End ConfigFacts.


Section SoapFacts.
Import PyStr Mpv Services Soap Notions.

Lemma last_item_total (xs : list string) : xs <> [] -> exists x, last_item xs = Ok x.
Proof.
  intros H. unfold last_item. destruct (rev xs) eqn:E; [|eexists; reflexivity].
  exfalso. apply H. rewrite <- (rev_involutive xs), E. reflexivity.
Qed.

Lemma getitem_first_total (xs : list string) : xs <> [] -> exists x, getitem xs 0 = Ok x.
Proof. destruct xs; [congruence|]. intros _. eexists; reflexivity. Qed.

Lemma read_args_total (children : list element) (args : dict) :
  exists d, read_args children args = Ok d.
Proof.
  revert args. induction children as [|c rest IH]; intros args; cbn [read_args].
  - eexists; reflexivity.
  - destruct (last_item_total (split (tag_of c) "}") (split_from_not_nil _ _ _)) as [x ->].
    cbn [rbind]. apply IH.
Qed.

Lemma parse_none_iff (document : option element) :
  parse_soap_request document = None <-> unreadable document.
Proof.
  unfold parse_soap_request, unreadable. destruct document as [root|]; [|tauto].
  unfold parse_soap_request_try.
  destruct (find_body root) as [body_elem|]; [|tauto].
  destruct (children_of body_elem) as [|act others]; cbn [first_element rbind]; [tauto|].
  destruct (last_item_total (split (tag_of act) "}") (split_from_not_nil _ _ _)) as [x ->].
  destruct (getitem_first_total (split (tag_of act) "}") (split_from_not_nil _ _ _)) as [y ->].
  cbn [rbind].
  destruct (read_args_total (children_of act) []) as [d ->]. cbn [rbind].
  split; intros H; discriminate H.
Qed.

(** X23.  The endpoint answers with fault 401, [Invalid Action], exactly when no
    request can be read from the body; this is settled before the path is
    looked at, and the state is left as it was.  A request that can be read
    is never answered 401, whatever action it names. *)
Theorem invalid_action_means_an_unreadable_body (engine : nat -> event) (path : string)
    (document : option element) (s : server) :
  (parse_soap_request document = None <-> unreadable document) /\
  (fst (do_POST_body engine path document s) = SoapError 401 "Invalid Action"
   <-> unreadable document) /\
  (do_POST_body engine path document s = (SoapError 401 "Invalid Action", s)
   <-> unreadable document).
Proof.
  split; [apply parse_none_iff|].
  assert (H : fst (do_POST_body engine path document s) = SoapError 401 "Invalid Action"
              -> unreadable document).
  { unfold do_POST_body, do_POST. intros H. apply parse_none_iff.
    destruct (parse_soap_request document) as [req|]; [exfalso|reflexivity].
    destruct (route path); [|discriminate H].
    destruct (handle_action engine s0 (action req) (args req) s) as [[fields|e] s'];
      discriminate H. }
  assert (H' : unreadable document ->
               do_POST_body engine path document s = (SoapError 401 "Invalid Action", s)).
  { intros Hu. apply parse_none_iff in Hu. unfold do_POST_body. rewrite Hu. reflexivity. }
  split; split; auto.
  - intros Hu. rewrite (H' Hu). reflexivity.
  - intros E. apply H. rewrite E. reflexivity.
Qed.

Lemma lstrip_chars_none (chars s : string) :
  (forall c, has_char c chars = true -> contains (String c "") s = false) ->
  lstrip_chars chars s = s.
Proof.
  destruct s as [|a s]; [reflexivity|]. intros H. cbn [lstrip_chars].
  destruct (has_char a chars) eqn:E; [|reflexivity].
  specialize (H a E). cbn [contains startswith] in H. rewrite Ascii.eqb_refl in H.
  discriminate H.
Qed.

Lemma rstrip_chars_none (chars s : string) :
  (forall c, has_char c chars = true -> contains (String c "") s = false) ->
  rstrip_chars chars s = s.
Proof.
  induction s as [|a s IH]; [reflexivity|]. intros H. cbn [rstrip_chars].
  assert (Ha : has_char a chars = false).
  { destruct (has_char a chars) eqn:E; [|reflexivity].
    specialize (H a E). cbn [contains startswith] in H. rewrite Ascii.eqb_refl in H.
    discriminate H. }
  rewrite IH, Ha.
  - destruct s; reflexivity.
  - intros c Hc. specialize (H c Hc). cbn [contains] in H.
    apply orb_false_iff in H. tauto.
Qed.

Lemma strip_brace (ns : string) :
  contains "{" ns = false -> strip_chars "{" ("{" ++ ns) = ns.
Proof.
  intros H. unfold strip_chars. cbn [append lstrip_chars has_char].
  rewrite Ascii.eqb_refl. cbn [orb].
  assert (Hc : forall c, has_char c "{" = true -> contains (String c "") ns = false).
  { intros c Hc. cbn [has_char] in Hc. rewrite orb_false_r in Hc.
    apply Ascii.eqb_eq in Hc. subst c. exact H. }
  rewrite (lstrip_chars_none "{" ns Hc). apply rstrip_chars_none, Hc.
Qed.

Lemma strip_no_brace (name : string) :
  contains "{" name = false -> strip_chars "{" name = name.
Proof.
  intros H. unfold strip_chars.
  assert (Hc : forall c, has_char c "{" = true -> contains (String c "") name = false).
  { intros c Hc. cbn [has_char] in Hc. rewrite orb_false_r in Hc.
    apply Ascii.eqb_eq in Hc. subst c. exact H. }
  rewrite (lstrip_chars_none "{" name Hc). apply rstrip_chars_none, Hc.
Qed.

(** X24.  The first element in the SOAP body names the request.  When its tag
    carries a namespace, the action is the local name and the service type
    is the namespace; when it carries none, both are the tag itself. *)
Theorem request_is_named_by_the_first_element (root body_elem act : element)
    (others : list element) (qualified : bool) (ns name : string) :
  find_body root = Some body_elem ->
  children_of body_elem = act :: others ->
  contains "{" ns = false -> contains "}" ns = false ->
  contains "{" name = false -> contains "}" name = false ->
  tag_of act = (if qualified then "{" ++ ns ++ "}" else "") ++ name ->
  exists args,
    parse_soap_request (Some root) =
      Some {| action := name;
              service_type := if qualified then ns else name;
              args := args |}.
Proof.
  intros Hb Hc Hns1 Hns2 Hn1 Hn2 Ht.
  unfold parse_soap_request, parse_soap_request_try.
  rewrite Hb, Hc. cbn [first_element rbind]. rewrite Ht.
  destruct (read_args_total (children_of act) []) as [d Hd].
  exists d. unfold split. destruct qualified.
  - rewrite !append_assoc.
    change ("{" ++ ns ++ "}" ++ name) with (String "{" (ns ++ String "}" name)).
    assert (Hs : split_from "}" (String "{" (ns ++ String "}" name)) 0 = ["{" ++ ns; name]).
    { change (String "{" (ns ++ String "}" name)) with (("{" ++ ns) ++ String "}" name).
      rewrite (split_at_char "}" ("{" ++ ns) name).
      - rewrite (split_without_char "}" name Hn2). reflexivity.
      - cbn [append contains startswith]. cbn [Ascii.eqb Bool.eqb andb orb]. exact Hns2. }
    rewrite Hs. cbn [last_item rev app getitem nth_error rbind].
    rewrite (strip_brace ns Hns1), Hd. reflexivity.
  - cbn [append]. rewrite (split_without_char "}" name Hn2).
    cbn [last_item rev app getitem nth_error rbind].
    rewrite (strip_no_brace name Hn1), Hd. reflexivity.
Qed.

Lemma args_get_dict_set (d : dict) (k' v k default : string) :
  args_get (dict_set d k' v) k default
  = if String.eqb k' k then v else args_get d k default.
Proof.
  induction d as [|[k0 v0] d IH]; cbn [dict_set args_get].
  - reflexivity.
  - destruct (String.eqb_spec k0 k') as [->|Hne]; cbn [args_get].
    + destruct (String.eqb k' k); reflexivity.
    + rewrite IH. destruct (String.eqb_spec k0 k) as [->|Hne'].
      * destruct (String.eqb_spec k' k) as [->|]; [congruence|reflexivity].
      * reflexivity.
Qed.

Lemma last_item_last (xs : list string) (x : string) :
  last_item xs = Ok x -> last xs "" = x.
Proof.
  unfold last_item. destruct (rev xs) as [|y ys] eqn:E; [discriminate|].
  intros H. injection H as ->.
  rewrite <- (rev_involutive xs), E. cbn [rev]. apply last_last.
Qed.

Lemma read_args_get (children : list element) (args d : dict) (k default : string) :
  read_args children args = Ok d ->
  args_get d k default = last_text k children (args_get args k default).
Proof.
  revert args. induction children as [|c rest IH]; intros args; cbn [read_args].
  - intros H. injection H as ->. reflexivity.
  - destruct (last_item (split (tag_of c) "}")) as [x|e] eqn:E; [|discriminate].
    cbn [rbind]. intros H. rewrite (IH _ H). unfold last_text. cbn [fold_left].
    rewrite args_get_dict_set. unfold local_name. rewrite (last_item_last _ _ E).
    reflexivity.
Qed.

(** X25.  The arguments of a request are the children of its first element, by
    local name: of two children with one name the last one counts, and a
    child with no text gives the empty text. *)
Theorem request_arguments_are_the_last_of_each_name (root body_elem act : element)
    (others : list element) :
  find_body root = Some body_elem ->
  children_of body_elem = act :: others ->
  exists request,
    parse_soap_request (Some root) = Some request /\
    forall k default,
      args_get (args request) k default = last_text k (children_of act) default.
Proof.
  intros Hb Hc.
  unfold parse_soap_request, parse_soap_request_try.
  rewrite Hb, Hc. cbn [first_element rbind].
  destruct (last_item_total (split (tag_of act) "}") (split_from_not_nil _ _ _)) as [x ->].
  destruct (getitem_first_total (split (tag_of act) "}") (split_from_not_nil _ _ _)) as [y ->].
  cbn [rbind].
  destruct (read_args_total (children_of act) []) as [d Hd]. rewrite Hd. cbn [rbind].
  eexists. split; [reflexivity|]. intros k default. cbn [args].
  rewrite (read_args_get _ _ _ k default Hd). reflexivity.
Qed.

End SoapFacts.

Section RendererFacts.
Import Renderer.

(** X26.  A start that fails undoes nothing: [running] is set only at the end of
    [start], so the [stop] of the [except] branch returns at once, and so
    does every later [stop].  The player, started first, is never stopped,
    nor is the HTTP server when it was started. *)
Theorem failed_start_stops_nothing (w : world) (self : AudioRenderer) :
  running self = false ->
  fst (fst (start w self)) = false ->
  let self' := snd (fst (start w self)) in
  let calls := snd (start w self) in
  hd_error calls = Some PlayerStart /\
  existsb is_stop calls = false /\
  running self' = false /\
  player self' = true /\
  stop self' = (self', []).
Proof.
  intros Hr Hf. cbv zeta. revert Hf.
  unfold start, start_failed, stop. cbn [player http_server ssdp_server running].
  rewrite Hr. cbn [negb].
  destruct (player_starts w), (http_is_created w), (http_starts w), (discovery_starts w);
    cbn; intros Hf; try discriminate Hf; repeat split.
Qed.

(** X27.  After a start that succeeds, [stop] stops discovery, then the HTTP
    server, then the player, once: a second [stop] makes no call. *)
Theorem stop_runs_once_in_order (w : world) (self : AudioRenderer) :
  fst (fst (start w self)) = true ->
  let started := snd (fst (start w self)) in
  snd (start w self) = [PlayerStart; HttpCreate; HttpStart; DiscoveryStart] /\
  running started = true /\
  snd (stop started) = [DiscoveryStop; HttpStop; PlayerStop] /\
  running (fst (stop started)) = false /\
  snd (stop (fst (stop started))) = [].
Proof.
  intros Hf. cbv zeta. revert Hf.
  unfold start, start_failed, stop. cbn [player http_server ssdp_server running].
  destruct (player_starts w); cbn [negb]; [|intros Hf; discriminate Hf].
  destruct (http_is_created w); cbn [negb];
    [|destruct (running self); intros Hf; discriminate Hf].
  destruct (http_starts w); cbn [negb];
    [|destruct (running self); intros Hf; discriminate Hf].
  destruct (discovery_starts w); cbn [negb];
    [|destruct (running self); intros Hf; discriminate Hf].
  intros _. repeat split.
Qed.

End RendererFacts.


Section MpvProcessFacts.
Import PyNum MpvProcess Notions.

Lemma waited_table :
  forallb (fun k => lt (waited_after k) (PInt 5)) (seq 0 51) = true /\
  lt (waited_after 51) (PInt 5) = false /\
  forallb (fun k => match add (waited_after k) (PFloat tenth) with
                    | Ok x => true
                    | Raise _ => false
                    end) (seq 0 51) = true.
Proof. vm_compute. repeat split. Qed.

Lemma waited_lt (k : nat) : (k < 51)%nat -> lt (waited_after k) (PInt 5) = true.
Proof.
  intros Hk. destruct waited_table as (H & _ & _).
  rewrite forallb_forall in H. apply H, in_seq. lia.
Qed.

Lemma waited_add (k : nat) :
  (k < 51)%nat -> add (waited_after k) (PFloat tenth) = Ok (waited_after (S k)).
Proof.
  intros Hk. destruct waited_table as (_ & _ & H).
  rewrite forallb_forall in H. specialize (H k ltac:(apply in_seq; lia)).
  cbn [waited_after]. destruct (add (waited_after k) (PFloat tenth)); [reflexivity|discriminate].
Qed.

(** From the [k]-th turn on the loop ends within the turns that are left up
    to the 51st. *)
Lemma wait_ends (w : os) (d k : nat) (fuel : nat) :
  (k + d = 51)%nat -> (d < fuel)%nat ->
  exists check,
    wait w k (waited_after k) fuel = Some (Ok (check, waited_after check)) /\
    (k <= check <= 51)%nat /\
    (forall j, (k <= j < check)%nat -> socket_exists w j = false) /\
    (socket_exists w check = true \/ check = 51%nat).
Proof.
  revert k fuel. induction d as [|d IH]; intros k fuel Hk Hf.
  - destruct fuel as [|fuel]; [lia|]. cbn [wait].
    replace k with 51%nat by lia.
    destruct waited_table as (_ & -> & _). rewrite andb_false_r.
    exists 51%nat. split; [reflexivity|]. split; [lia|]. split; [intros j Hj; lia|].
    right; reflexivity.
  - destruct fuel as [|fuel]; [lia|]. cbn [wait].
    destruct (socket_exists w k) eqn:Ek; cbn [negb andb].
    + exists k. split; [reflexivity|]. split; [lia|]. split; [intros j Hj; lia|].
      left; exact Ek.
    + rewrite (waited_lt k) by lia. rewrite (waited_add k) by lia.
      destruct (IH (S k) fuel ltac:(lia) ltac:(lia)) as (check & E & Hb & Hno & Hend).
      exists check. split; [exact E|]. split; [lia|]. split; [|exact Hend].
      intros j Hj. destruct (Nat.eq_dec j k) as [->|Hne]; [exact Ek|apply Hno; lia].
Qed.

(** X28.  [start] sleeps at most 51 times, a tenth of a second each, before it
    gives up on the socket, not 50: fifty times 0.1, added up in binary
    floating point, is still below 5.  It sleeps until the first check that
    finds the socket, and returns what the check after the loop finds. *)
Theorem start_sleeps_at_most_51_times (w : os) (fuel : nat) :
  popen_returns w = true ->
  (52 <= fuel)%nat ->
  exists sleeps,
    start w fuel = Some (socket_exists w (S sleeps), sleeps) /\
    (sleeps <= 51)%nat /\
    (forall j, (j < sleeps)%nat -> socket_exists w j = false) /\
    (socket_exists w sleeps = true \/ sleeps = 51%nat).
Proof.
  intros Hp Hf. unfold start. rewrite Hp. cbn [negb].
  destruct (wait_ends w 51 0 fuel eq_refl ltac:(lia)) as (check & E & Hb & Hno & Hend).
  cbn [waited_after] in E. rewrite E.
  exists check. split; [reflexivity|]. split; [lia|]. split; [|exact Hend].
  intros j Hj. apply Hno. lia.
Qed.

End MpvProcessFacts.


Section FaultShape.
Import PyStr PyNum Fault Notions.

Lemma string_of_uint_nonempty (u : Decimal.uint) :
  u <> Decimal.Nil -> exists a s, NilEmpty.string_of_uint u = String a s.
Proof. destruct u; [congruence|..]; intros _; eexists _, _; reflexivity. Qed.

Lemma str_of_int_nonempty (z : Z) : exists a s, str_of_int z = String a s.
Proof.
  destruct z as [|p|p]; cbn [str_of_int].
  - eexists _, _; reflexivity.
  - apply string_of_uint_nonempty, DecimalPos.Unsigned.to_uint_nonnil.
  - eexists _, _; reflexivity.
Qed.

Lemma append_nil_r (s : string) : s ++ "" = s.
Proof. induction s; cbn; congruence. Qed.

Lemma replace_char_absent (c : ascii) (by_ s : string) :
  contains (String c "") s = false -> replace_char c by_ s = s.
Proof.
  induction s as [|a s IH]; intros H; [reflexivity|].
  cbn [contains startswith] in H. apply orb_false_iff in H as [Ha Hs].
  cbn [replace_char]. rewrite andb_true_r in Ha.
  rewrite Ascii.eqb_sym, Ha, (IH Hs). reflexivity.
Qed.

Lemma digits_only_no (c : ascii) (s : string) :
  is_digit c = false -> digits_only s = true -> contains (String c "") s = false.
Proof.
  intros Hc. induction s as [|a s IH]; intros H; [reflexivity|].
  cbn [digits_only] in H. apply andb_true_iff in H as [Ha Hs].
  cbn [contains startswith]. rewrite (IH Hs), andb_true_r, orb_false_r.
  destruct (Ascii.eqb_spec c a) as [->|]; [congruence|reflexivity].
Qed.

Lemma escape_cdata_digits (s : string) : digits_only s = true -> _escape_cdata s = s.
Proof.
  intros H. unfold _escape_cdata.
  rewrite (replace_char_absent "&" _ s) by (apply digits_only_no; [reflexivity|exact H]).
  rewrite (replace_char_absent "<" _ s) by (apply digits_only_no; [reflexivity|exact H]).
  apply replace_char_absent, digits_only_no; [reflexivity|exact H].
Qed.

Lemma escape_cdata_str_of_int (z : Z) : _escape_cdata (str_of_int z) = str_of_int z.
Proof.
  destruct z as [|p|p]; cbn [str_of_int].
  - reflexivity.
  - apply escape_cdata_digits, digits_only_uint.
  - pose proof (escape_cdata_digits _ (digits_only_uint (Pos.to_uint p))) as H.
    unfold _escape_cdata in *. cbn [append replace_char Ascii.eqb Bool.eqb].
    cbn [append replace_char] in H |- *.
    change (Ascii.eqb "-" "&") with false. cbn iota.
    cbn [replace_char]. change (Ascii.eqb "-" "<") with false. cbn iota.
    cbn [replace_char]. change (Ascii.eqb "-" ">") with false. cbn iota.
    rewrite H. reflexivity.
Qed.

(** The fault document, for every code and description. *)
Lemma create_soap_error_shape (error_code : Z) (error_description : string) :
  create_soap_error error_code error_description
  = fault_head ++ str_of_int error_code ++ "</errorCode>" ++
    description_element error_description ++ fault_tail.
Proof.
  unfold create_soap_error, fault_head, fault_tail, description_element.
  cbn [tostring map String.concat fst snd].
  destruct (str_of_int_nonempty error_code) as (a & s & E).
  pose proof (escape_cdata_str_of_int error_code) as He.
  rewrite E in *. rewrite He.
  destruct error_description as [|c d].
  - cbn. rewrite ?append_assoc. reflexivity.
  - remember (_escape_cdata (String c d)) as esc.
    repeat first [rewrite !append_assoc | progress cbn].
    reflexivity.
Qed.

End FaultShape.

Section FaultText.
Import PyStr PyNum Fault Notions.

Lemma replace_char_app (c : ascii) (by_ x y : string) :
  replace_char c by_ (x ++ y) = replace_char c by_ x ++ replace_char c by_ y.
Proof.
  induction x as [|a x IH]; [reflexivity|]. cbn [append replace_char].
  destruct (Ascii.eqb a c); rewrite IH; [rewrite append_assoc|]; reflexivity.
Qed.

Lemma escape_cdata_cons (a : ascii) (s : string) :
  _escape_cdata (String a s) = escape_char a ++ _escape_cdata s.
Proof.
  unfold _escape_cdata, escape_char. cbn [replace_char].
  destruct (Ascii.eqb_spec a "&") as [->|Hamp].
  - rewrite !replace_char_app. reflexivity.
  - cbn [replace_char]. destruct (Ascii.eqb_spec a "<") as [->|Hlt].
    + rewrite !replace_char_app. reflexivity.
    + cbn [replace_char]. destruct (Ascii.eqb a ">"); reflexivity.
Qed.

Lemma contains_char_app (c : ascii) (x y : string) :
  contains (String c "") (x ++ y) = contains (String c "") x || contains (String c "") y.
Proof.
  induction x as [|a x IH]; [reflexivity|].
  cbn [append contains startswith]. rewrite IH, orb_assoc. reflexivity.
Qed.

(** The character data [_escape_cdata] writes holds no angle bracket, and
    no ampersand but those of the three entities it writes. *)
Lemma escape_cdata_safe (s : string) :
  contains "<" (_escape_cdata s) = false /\
  contains ">" (_escape_cdata s) = false /\
  entities_only (_escape_cdata s) = true.
Proof.
  induction s as [|a s (IH1 & IH2 & IH3)]; [repeat split|].
  rewrite escape_cdata_cons. unfold escape_char.
  destruct (Ascii.eqb_spec a "&") as [->|Hamp];
    [|destruct (Ascii.eqb_spec a "<") as [->|Hlt];
      [|destruct (Ascii.eqb_spec a ">") as [->|Hgt]]].
  - rewrite !contains_char_app, IH1, IH2. cbn [append entities_only]. rewrite IH3.
    repeat split.
  - rewrite !contains_char_app, IH1, IH2. cbn [append entities_only]. rewrite IH3.
    repeat split.
  - rewrite !contains_char_app, IH1, IH2. cbn [append entities_only]. rewrite IH3.
    repeat split.
  - rewrite !contains_char_app, IH1, IH2. cbn [append entities_only contains startswith].
    rewrite IH3.
    apply Ascii.eqb_neq in Hamp, Hlt, Hgt.
    rewrite Hamp. rewrite (Ascii.eqb_sym "<" a), (Ascii.eqb_sym ">" a), Hlt, Hgt.
    repeat split.
Qed.

(** X29.  [create_soap_error], for every code and description: the document is the
    fixed frame around the code and the description; the description is
    written escaped, so that it holds no angle bracket and no ampersand of
    its own, and an empty one is written as an empty element. *)
Theorem fault_description_is_escaped (error_code : Z) (error_description : string) :
  create_soap_error error_code error_description
  = fault_head ++ str_of_int error_code ++ "</errorCode>" ++
    description_element error_description ++ fault_tail /\
  contains "<" (_escape_cdata error_description) = false /\
  contains ">" (_escape_cdata error_description) = false /\
  entities_only (_escape_cdata error_description) = true.
Proof.
  split; [apply create_soap_error_shape | apply escape_cdata_safe].
Qed.

Lemma beyond_ascii_app (x y : string) :
  beyond_ascii (x ++ y) = (beyond_ascii x + beyond_ascii y)%nat.
Proof. induction x as [|a x IH]; [reflexivity|]. cbn [append beyond_ascii]. rewrite IH. lia. Qed.

Lemma beyond_ascii_escape (s : string) : beyond_ascii (_escape_cdata s) = beyond_ascii s.
Proof.
  induction s as [|a s IH]; [reflexivity|].
  rewrite escape_cdata_cons, beyond_ascii_app, IH. unfold escape_char.
  destruct (Ascii.eqb_spec a "&") as [->|_]; [reflexivity|].
  destruct (Ascii.eqb_spec a "<") as [->|_]; [reflexivity|].
  destruct (Ascii.eqb_spec a ">") as [->|_]; [reflexivity|].
  cbn [beyond_ascii]. lia.
Qed.

Lemma beyond_ascii_digits (s : string) : digits_only s = true -> beyond_ascii s = O.
Proof.
  induction s as [|c s IH]; [reflexivity|]. cbn [digits_only beyond_ascii]. intros H.
  apply andb_true_iff in H as [Hc Hs]. rewrite (IH Hs).
  unfold is_digit, digit_of in Hc.
  destruct ((48 <=? nat_of_ascii c) && (nat_of_ascii c <=? 57))%nat eqn:E; [|discriminate Hc].
  apply andb_true_iff in E as [_ E]. apply Nat.leb_le in E.
  replace (nat_of_ascii c <? 128)%nat with true by (symmetry; apply Nat.ltb_lt; lia).
  reflexivity.
Qed.

Lemma beyond_ascii_str_of_int (z : Z) : beyond_ascii (str_of_int z) = O.
Proof.
  destruct z as [|p|p]; cbn [str_of_int]; [reflexivity| |].
  - apply beyond_ascii_digits, digits_only_uint.
  - rewrite beyond_ascii_app, (beyond_ascii_digits _ (digits_only_uint _)). reflexivity.
Qed.

Lemma utf8_length (s : string) :
  List.length (utf8 s) = (String.length s + beyond_ascii s)%nat.
Proof.
  induction s as [|c s IH]; [reflexivity|].
  cbn [utf8 String.length beyond_ascii]. rewrite length_app, IH. unfold utf8_char.
  destruct (nat_of_ascii c <? 128)%nat; cbn [List.length]; lia.
Qed.

(** X30.  [_send_soap_error] answers with status 500 and declares as
    [Content-Length] the number of characters of the fault document, while
    the body holds its UTF-8 bytes: one more for every character of the
    description from 128 to 255.  The header is right exactly when the
    description is all ASCII. *)
Theorem fault_length_is_right_for_ascii_only (error_code : Z) (error_description : string) :
  let text := create_soap_error error_code error_description in
  let sent := _send_soap_error error_code error_description in
  status sent = 500 /\
  headers sent
  = [ ("Content-Type", "text/xml; charset=" ++ quote ++ "utf-8" ++ quote);
      ("Content-Length", str_of_int (Z.of_nat (String.length text))) ] /\
  List.length (body sent) = (String.length text + beyond_ascii error_description)%nat /\
  (List.length (body sent) = String.length text <-> beyond_ascii error_description = O).
Proof.
  cbv zeta.
  assert (H : beyond_ascii (create_soap_error error_code error_description)
              = beyond_ascii error_description).
  { rewrite create_soap_error_shape, !beyond_ascii_app, beyond_ascii_str_of_int.
    change (beyond_ascii fault_head) with O. change (beyond_ascii "</errorCode>") with O.
    change (beyond_ascii fault_tail) with O.
    destruct error_description as [|c d]; [reflexivity|].
    unfold description_element. rewrite !beyond_ascii_app, beyond_ascii_escape.
    change (beyond_ascii "<errorDescription>") with O.
    change (beyond_ascii "</errorDescription>") with O. lia. }
  split; [reflexivity|]. split; [reflexivity|].
  cbn [body _send_soap_error]. rewrite utf8_length, H. split; lia.
Qed.

End FaultText.

(** ** More of the code at concrete inputs *)

Section MoreInstances.
Import PyStr PyNum TimeCodec Mpv Services Ssdp Notions Samples.

Lemma acknowledged_engine_ok (p : MPVController) : acknowledged engine_ok p.
Proof.
  split; [right; reflexivity|]. eexists. split; reflexivity.
Qed.

Lemma request_ids_count_the_requests_witness :
  let p := run engine_ok [OpPlay "http://media.local/a.mp3"; OpPause; OpStop] (init 50) in
  let q := run engine_drops_first [OpPause; OpResume; OpStop] (init 50) in
  (map req_id (wire p) = [1; 2; 3] /\ request_id p = 3) /\
  (map req_id (wire q) = [2; 3] /\ request_id q = 3 /\
   Forall (fun r => 1 <= req_id r <= request_id q) (wire q)).
Proof.
  intros p q. split.
  - destruct (request_ids_count_the_requests engine_ok
                [OpPlay "http://media.local/a.mp3"; OpPause; OpStop] 50)
      as (_ & _ & _ & _ & Hdense).
    apply Hdense. intros n. split; discriminate.
  - destruct (request_ids_count_the_requests engine_drops_first
                [OpPause; OpResume; OpStop] 50)
      as (_ & Hf & _).
    split; [reflexivity|]. split; [reflexivity|exact Hf].
Defined.

Lemma unreachable_engine_changes_nothing_witness :
  let p := run engine_down
             [OpPlay "http://media.local/a.mp3"; OpSetVolume 30; OpPause; OpGetStatus;
              OpSeek (PInt 10); OpIsPlaying; OpStop]
             (init 50) in
  wire p = [] /\ request_id p = 0 /\ socket p = false /\
  current_state p = STOPPED /\ current_volume p = 50 /\
  current_position p = PInt 0 /\ current_duration p = PInt 0.
Proof.
  apply (unreachable_engine_changes_nothing engine_down). intros n. reflexivity.
Defined.

Lemma set_uri_is_stored_not_played_witness :
  handle_action engine_ok Transport "SetAVTransportURI"
    [("CurrentURI", "http://media.local/a.mp3")] (new_server 50)
  = (Ok [], server_with_uri) /\
  handle_action engine_ok Transport "GetMediaInfo" [] server_with_uri =
    (Ok [ ("NrTracks", "1");
          ("MediaDuration", "0:00:00");
          ("CurrentURI", "http://media.local/a.mp3");
          ("CurrentURIMetaData", "");
          ("NextURI", "");
          ("NextURIMetaData", "");
          ("PlayMedium", "NETWORK");
          ("RecordMedium", "NOT_IMPLEMENTED");
          ("WriteStatus", "NOT_IMPLEMENTED") ], server_with_uri).
Proof.
  apply (set_uri_is_stored_not_played engine_ok (new_server 50)
           [("CurrentURI", "http://media.local/a.mp3")] [] "0:00:00").
  - intros H. discriminate H.
  - reflexivity.
Defined.

Lemma play_action_loads_the_uri_witness :
  let out := do_POST engine_ok "/AVTransport/control"
               (Some {| action := "Play"; service_type := AV_SERVICE_TYPE; args := [] |})
               server_with_uri in
  fst out = SoapResponse "Play" AV_SERVICE_TYPE [] /\
  current_url (player (snd out)) = Some "http://media.local/a.mp3" /\
  wire (player (snd out)) =
    [ {| command := [JStr "loadfile"; JStr "http://media.local/a.mp3"; JStr "replace"];
         req_id := 1 |} ] /\
  current_state (player (snd out)) = PLAYING.
Proof.
  cbv zeta.
  destruct (play_action_loads_the_uri engine_ok server_with_uri []
              "/AVTransport/control" AV_SERVICE_TYPE
              ltac:(intros H; discriminate H) eq_refl) as (H1 & _ & _ & H4).
  split; [reflexivity|]. split; [exact H1|]. split; [reflexivity|].
  exact (proj1 (proj2 (proj2 (proj2 H4)))).
Defined.

Lemma unanswered_commands_report_success_witness :
  let args := [("Unit", "REL_TIME"); ("Target", "0:01:00"); ("DesiredVolume", "30")] in
  let long := [("Target", nines 4300 ++ ":00:00")] in
  (fst (handle_action engine_down Transport "Pause" args (new_server 50)) = Ok [] /\
   same_playback (new_server 50)
     (snd (handle_action engine_down Transport "Pause" args (new_server 50)))) /\
  (fst (handle_action engine_down Transport "Seek" args (new_server 50)) = Ok [] /\
   same_playback (new_server 50)
     (snd (handle_action engine_down Transport "Seek" args (new_server 50)))) /\
  (fst (handle_action engine_down Rendering "SetVolume" args (new_server 50)) = Ok [] /\
   same_playback (new_server 50)
     (snd (handle_action engine_down Rendering "SetVolume" args (new_server 50)))) /\
  (exists e,
     handle_action engine_down Transport "Seek" long (new_server 50)
     = (Raise e, new_server 50)).
Proof.
  intros args long.
  assert (Hun : unanswered engine_down (player (new_server 50)))
    by (left; split; reflexivity).
  destruct (unanswered_commands_report_success engine_down (new_server 50) args Hun)
    as (H1 & H2 & _ & H4).
  destruct (unanswered_commands_report_success engine_down (new_server 50) long Hun)
    as (_ & _ & H3 & _).
  split; [exact H1|]. split; [apply H2; reflexivity|].
  split; [apply (H4 30); reflexivity|].
  eexists. apply H3; [reflexivity|]. vm_compute. reflexivity.
Defined.

Lemma second_mute_forgets_the_volume_witness :
  exists s1 s2 s3,
    handle_action engine_ok Rendering "SetMute" [("DesiredMute", "1")] (new_server 50)
      = (Ok [], s1) /\
    handle_action engine_ok Rendering "SetMute" [("DesiredMute", "1")] s1 = (Ok [], s2) /\
    handle_action engine_ok Rendering "SetMute" [("DesiredMute", "0")] s2 = (Ok [], s3) /\
    volume_before_mute (rendering_control_service s1) = Some 50 /\
    volume_before_mute (rendering_control_service s2) = Some 0 /\
    current_volume (player s3) = 0.
Proof.
  destruct (second_mute_forgets_the_volume engine_ok (new_server 50)
              [("DesiredMute", "1")] [("DesiredMute", "0")] 50 0)
    as (s1 & s2 & s3 & H1 & H2 & H3 & H4 & H5 & H6 & _); try reflexivity.
  - intros n. split; [reflexivity|]. eexists. split; reflexivity.
  - exists s1, s2, s3. repeat split; assumption.
Defined.

Lemma set_volume_rejects_a_bad_literal_witness :
  exists description,
    do_POST engine_ok "/RenderingControl/control"
      (Some {| action := "SetVolume"; service_type := RC_SERVICE_TYPE;
               args := [("DesiredVolume", "12.5")] |})
      (new_server 50)
    = (SoapError 501 description, new_server 50).
Proof.
  apply (set_volume_rejects_a_bad_literal engine_ok (new_server 50)
           [("DesiredVolume", "12.5")] "/RenderingControl/control" RC_SERVICE_TYPE
           (ValueError "invalid literal for int() with base 10"));
    reflexivity.
Defined.

Lemma get_volume_stores_what_the_engine_reports_witness :
  exists s',
    handle_action (engine_reporting (JFloat f130)) Rendering "GetVolume" [] (new_server 50)
      = (Ok [ ("CurrentVolume", "130") ], s') /\
    current_volume (player s') = 130.
Proof.
  apply (get_volume_stores_what_the_engine_reports (engine_reporting (JFloat f130))
           (new_server 50) []
           [("error", JStr "success"); ("data", JFloat f130)] 130).
  - right. reflexivity.
  - reflexivity.
  - reflexivity.
  - intros H. discriminate H.
  - reflexivity.
Defined.

Lemma get_volume_falls_back_to_the_session_witness :
  fst (handle_action engine_down Rendering "GetVolume" [] (new_server 50))
    = Ok [ ("CurrentVolume", "50") ] /\
  same_playback (new_server 50)
    (snd (handle_action engine_down Rendering "GetVolume" [] (new_server 50))).
Proof.
  apply (get_volume_falls_back_to_the_session engine_down (new_server 50) []).
  left. split; reflexivity.
Defined.

Lemma stop_keeps_the_uri_for_replay_witness :
  exists s1 s2,
    handle_action engine_ok Transport "Stop" [] server_with_uri = (Ok [], s1) /\
    av_transport_service s1 = av_transport_service server_with_uri /\
    current_url (player s1) = None /\
    handle_action engine_ok Transport "GetPositionInfo" [] s1 =
      (Ok [ ("Track", "1");
            ("TrackDuration", "0:00:00");
            ("TrackMetaData", "");
            ("TrackURI", "http://media.local/a.mp3");
            ("RelTime", "0:00:00");
            ("AbsTime", "0:00:00");
            ("RelCount", "0");
            ("AbsCount", "0") ], s1) /\
    handle_action engine_ok Transport "Play" [] s1 = (Ok [], s2) /\
    current_state (player s2) = PLAYING /\
    current_url (player s2) = Some "http://media.local/a.mp3".
Proof.
  apply (stop_keeps_the_uri_for_replay engine_ok server_with_uri []).
  - discriminate.
  - apply acknowledged_engine_ok.
Defined.

Lemma seek_is_read_back_witness :
  exists s1,
    handle_action engine_ok Transport "Seek"
      [("Unit", "REL_TIME"); ("Target", "1:02:03")] server_with_uri = (Ok [], s1) /\
    current_position (player s1) = PInt (1 * 3600 + 2 * 60 + 3) /\
    handle_action engine_ok Transport "GetPositionInfo" [] s1 =
      (Ok [ ("Track", "1");
            ("TrackDuration", "0:00:00");
            ("TrackMetaData", "");
            ("TrackURI", "http://media.local/a.mp3");
            ("RelTime", "1:02:03");
            ("AbsTime", "1:02:03");
            ("RelCount", "0");
            ("AbsCount", "0") ], s1).
Proof.
  apply (seek_is_read_back engine_ok server_with_uri
           [("Unit", "REL_TIME"); ("Target", "1:02:03")] [] 1 2 3 "0:00:00").
  - reflexivity.
  - split; [lia | vm_compute; reflexivity].
  - lia.
  - lia.
  - reflexivity.
  - intros H. discriminate H.
  - apply acknowledged_engine_ok.
  - reflexivity.
Defined.

Lemma whole_seconds_round_trip_witness :
  format_time (PInt 3665) = Ok "1:01:05" /\
  exists text,
    format_time (PInt 3665) = Ok text /\
    text = str_of_int (3665 / 3600) ++ ":" ++ format_02d (3665 mod 3600 / 60) ++ ":" ++
           format_02d (3665 mod 60) /\
    parse_time text = PInt 3665.
Proof.
  split; [vm_compute; reflexivity|].
  apply (whole_seconds_round_trip 3665); [lia | vm_compute; reflexivity].
Defined.

Lemma parse_time_reads_the_fields_witness :
  parse_time "90:75" = PInt (90 * 60 + 75) /\
  parse_time "90:75:05" = PInt (90 * 3600 + 75 * 60 + 5).
Proof.
  apply (parse_time_reads_the_fields
           (Decimal.D9 (Decimal.D0 Decimal.Nil))
           (Decimal.D7 (Decimal.D5 Decimal.Nil))
           (Decimal.D0 (Decimal.D5 Decimal.Nil)));
    try (intros H; discriminate H); cbn; lia.
Defined.

Lemma parse_time_plain_seconds_witness :
  float_of_string "90" = Ok (S754_finite false 6333186975989760 (-46)) /\
  float_of_string "soon" = Raise (ValueError "could not convert string to float") /\
  parse_time "90" =
    match float_of_string "90" with
    | Ok f => PFloat f
    | Raise _ => PFloat fzero
    end /\
  parse_time "soon" =
    match float_of_string "soon" with
    | Ok f => PFloat f
    | Raise _ => PFloat fzero
    end.
Proof.
  split; [vm_compute; reflexivity|]. split; [vm_compute; reflexivity|].
  split; apply parse_time_plain_seconds; reflexivity.
Defined.

Lemma config_get_follows_the_path_witness :
  Config.get_default_volume test_config = Config.YInt 75 /\
  Config.get test_config "audio" Config.YNull
  = Config.YDict [ ("default_volume", Config.YInt 75) ].
Proof.
  destruct (config_get_follows_the_path
              [ ("device", Config.YDict [ ("name", Config.YStr "Test Device");
                                          ("uuid", Config.YStr "test-uuid-123") ]);
                ("network", Config.YDict [ ("interface", Config.YStr "eth0");
                                           ("http_port", Config.YInt 8000) ]);
                ("audio", Config.YDict [ ("default_volume", Config.YInt 75) ]);
                ("logging", Config.YDict [ ("level", Config.YStr "DEBUG") ]) ]
              "audio" "default_volume" (Config.YInt 50) eq_refl) as [H1 _].
  destruct (config_get_follows_the_path
              [ ("device", Config.YDict [ ("name", Config.YStr "Test Device");
                                          ("uuid", Config.YStr "test-uuid-123") ]);
                ("network", Config.YDict [ ("interface", Config.YStr "eth0");
                                           ("http_port", Config.YInt 8000) ]);
                ("audio", Config.YDict [ ("default_volume", Config.YInt 75) ]);
                ("logging", Config.YDict [ ("level", Config.YStr "DEBUG") ]) ]
              "audio" "" Config.YNull eq_refl) as [_ H2].
  split; [exact H1 | exact H2].
Defined.

Lemma config_without_a_mapping_gives_the_defaults_witness :
  Config.get Config.YNull "audio.default_volume" (Config.YInt 50) = Config.YInt 50 /\
  Config.get_default_volume Config.YNull = Config.YInt 50 /\
  Config.get_http_port Config.YNull = Config.YInt 8000 /\
  Config.get_device_uuid Config.YNull = Config.YStr "12345678-1234-1234-1234-123456789012".
Proof.
  apply (config_without_a_mapping_gives_the_defaults Config.YNull "audio.default_volume"
           (Config.YInt 50)).
  intros items H. discriminate H.
Defined.

Lemma request_is_named_by_the_first_element_witness :
  exists args,
    Soap.parse_soap_request (Some test_request) =
      Some {| action := "Play";
              service_type := "urn:schemas-upnp-org:service:AVTransport:1";
              args := args |}.
Proof.
  apply (request_is_named_by_the_first_element test_request test_body test_action []
           true "urn:schemas-upnp-org:service:AVTransport:1" "Play");
    reflexivity.
Defined.

Lemma request_arguments_are_the_last_of_each_name_witness :
  Soap.parse_soap_request (Some test_request) =
    Some {| action := "Play";
            service_type := "urn:schemas-upnp-org:service:AVTransport:1";
            args := [("InstanceID", "0"); ("Speed", "1")] |} /\
  exists request,
    Soap.parse_soap_request (Some test_request) = Some request /\
    forall k default,
      args_get (args request) k default
      = last_text k (Soap.children_of test_action) default.
Proof.
  split; [vm_compute; reflexivity|].
  apply (request_arguments_are_the_last_of_each_name test_request test_body test_action []);
    reflexivity.
Defined.

Lemma failed_start_stops_nothing_witness :
  snd (Renderer.start no_discovery Renderer.init)
  = [Renderer.PlayerStart; Renderer.HttpCreate; Renderer.HttpStart;
     Renderer.DiscoveryStart] /\
  hd_error (snd (Renderer.start no_discovery Renderer.init)) = Some Renderer.PlayerStart /\
  existsb Renderer.is_stop (snd (Renderer.start no_discovery Renderer.init)) = false /\
  Renderer.running (snd (fst (Renderer.start no_discovery Renderer.init))) = false /\
  Renderer.player (snd (fst (Renderer.start no_discovery Renderer.init))) = true /\
  Renderer.stop (snd (fst (Renderer.start no_discovery Renderer.init)))
  = (snd (fst (Renderer.start no_discovery Renderer.init)), []).
Proof.
  split; [reflexivity|].
  apply (failed_start_stops_nothing no_discovery Renderer.init); reflexivity.
Defined.

Lemma stop_runs_once_in_order_witness :
  snd (Renderer.start all_start Renderer.init)
  = [Renderer.PlayerStart; Renderer.HttpCreate; Renderer.HttpStart;
     Renderer.DiscoveryStart] /\
  Renderer.running (snd (fst (Renderer.start all_start Renderer.init))) = true /\
  snd (Renderer.stop (snd (fst (Renderer.start all_start Renderer.init))))
  = [Renderer.DiscoveryStop; Renderer.HttpStop; Renderer.PlayerStop] /\
  Renderer.running
    (fst (Renderer.stop (snd (fst (Renderer.start all_start Renderer.init))))) = false /\
  snd (Renderer.stop
         (fst (Renderer.stop (snd (fst (Renderer.start all_start Renderer.init)))))) = [].
Proof.
  apply (stop_runs_once_in_order all_start Renderer.init). reflexivity.
Defined.

Lemma start_sleeps_at_most_51_times_witness :
  MpvProcess.start no_socket 60 = Some (false, 51%nat) /\
  waited_after 50 = PFloat (S754_finite false 5629499534213118 (-50)) /\
  exists sleeps,
    MpvProcess.start no_socket 60
    = Some (MpvProcess.socket_exists no_socket (S sleeps), sleeps) /\
    (sleeps <= 51)%nat /\
    (forall j, (j < sleeps)%nat -> MpvProcess.socket_exists no_socket j = false) /\
    (MpvProcess.socket_exists no_socket sleeps = true \/ sleeps = 51%nat).
Proof.
  split; [vm_compute; reflexivity|].
  split; [vm_compute; reflexivity|].
  apply (start_sleeps_at_most_51_times no_socket 60); [reflexivity|lia].
Defined.

End MoreInstances.
